(** * wdrmcp: the tool dispatch core

    A shallow embedding of the TypeScript sources of the gateway
    (docker.ts, executors/command.ts in its two variants,
    executors/mcp-proxy.ts, executors/ssh.ts, registry.ts, env-resolve.ts,
    config.ts, logger.ts) and the properties of its dispatch path, of the
    loading of tools and of what surrounds them.

    Conventions of the embedding.
    - A JavaScript string is the [string] of the bytes of its UTF-8
      encoding (strings are well formed); [startsWith], [slice],
      [includes], [split], [trim], [join] and the uses of [replace] are
      written out in the module [Str].
    - A JSON value is a [Json]; an object is the list of its own properties
      in insertion order, and a key that occurs twice reads as its last
      entry (as in an object literal).  Every object is a plain one: where
      the code reads a property under a name that it takes from its input,
      the names that come from [Object.prototype] are read as well
      ([inherited]), and an assignment to [__proto__] adds no property
      ([Obj.assign]).
    - Values typed [unknown] (arguments, replies of the remote server) are
      arbitrary [Json]; configuration is taken at its declared type, with
      the fields the code reads through [??], [?.] or a truthiness test
      optional.
    - Code that awaits, mutates the module-level caches, spawns a process,
      sends a request or logs is a computation [M A]: it takes the [World]
      and returns a result or a thrown [JsError] together with the new
      world.  What was written before a throw stays written, as in
      JavaScript.  One call runs at a time.
    - What the host platform supplies (the regular expression engine,
      JSON.stringify, the text String() gives, base64,
      child_process.execFile, fetch) is a field of the class [Runtime]; the
      outcome of a process or a request may depend on everything started
      before it.
    - What the process is started with (the arguments, the environment),
      the time stamp of a log line and what reading the configuration
      directory gives are arguments of the functions that read them. *)

From Stdlib Require Import String Ascii List ZArith Lia Bool Floats.
From stdpp Require Import gmap strings list pretty.
Import ListNotations.
Open Scope string_scope.
Open Scope list_scope.

(** ** Strings *)

Module Str.

(** [s.startsWith(p)] *)
Fixpoint startsWith (s p : string) {struct p} : bool :=
  match p with
  | EmptyString => true
  | String a p' =>
      match s with
      | EmptyString => false
      | String b s' => if Ascii.eqb a b then startsWith s' p' else false
      end
  end.

(** [s.slice(n)] for a start index [n >= 0] *)
Fixpoint slice (s : string) (n : nat) {struct n} : string :=
  match n with
  | O => s
  | S n' => match s with
            | EmptyString => EmptyString
            | String _ s' => slice s' n'
            end
  end.

(** [s.includes(sub)] *)
Fixpoint includes (s sub : string) : bool :=
  startsWith s sub ||
  match s with
  | EmptyString => false
  | String _ s' => includes s' sub
  end.

(** [s.split(sep)] for a separator of one character *)
Fixpoint split (s : string) (sep : ascii) : list string :=
  match s with
  | EmptyString => [EmptyString]
  | String a s' =>
      if Ascii.eqb a sep then EmptyString :: split s' sep
      else match split s' sep with
           | [] => [String a EmptyString]
           | w :: ws => String a w :: ws
           end
  end.

(** [l.join(sep)] *)
Fixpoint join (l : list string) (sep : string) : string :=
  match l with
  | [] => EmptyString
  | [x] => x
  | x :: rest => x +:+ sep +:+ join rest sep
  end.

(** The string of the bytes [l]. *)
Definition bytes (l : list nat) : string := string_of_list_ascii (map ascii_of_nat l).

(** The characters that [trim] strips, each as the bytes of its encoding:
    the white space and the line terminators of ECMAScript. *)
Definition WHITE_SPACE : list string :=
  map bytes
    [[9]; [10]; [11]; [12]; [13]; [32];        (* TAB, LF, VT, FF, CR, SP *)
     [194; 160];                                (* U+00A0 *)
     [225; 154; 128];                           (* U+1680 *)
     [226; 128; 128]; [226; 128; 129]; [226; 128; 130]; [226; 128; 131];
     [226; 128; 132]; [226; 128; 133]; [226; 128; 134]; [226; 128; 135];
     [226; 128; 136]; [226; 128; 137]; [226; 128; 138];   (* U+2000 to U+200A *)
     [226; 128; 168]; [226; 128; 169];          (* U+2028, U+2029 *)
     [226; 128; 175];                           (* U+202F *)
     [226; 129; 159];                           (* U+205F *)
     [227; 128; 128];                           (* U+3000 *)
     [239; 187; 191]].                          (* U+FEFF *)

(** [s] without the first word of [table] that it starts with, if any. *)
Fixpoint strip_first (table : list string) (s : string) : option string :=
  match table with
  | [] => None
  | w :: rest =>
      if startsWith s w then Some (slice s (String.length w)) else strip_first rest s
  end.

(** [s] without the words of [table] at its start; every word that is
    stripped takes a character away, so [fuel] need not exceed the length
    of [s]. *)
Fixpoint strip_all (table : list string) (fuel : nat) (s : string) : string :=
  match fuel with
  | O => s
  | S n =>
      match strip_first table s with
      | Some rest => strip_all table n rest
      | None => s
      end
  end.

(** [s] read backwards. *)
Definition rev (s : string) : string :=
  string_of_list_ascii (List.rev (list_ascii_of_string s)).

Definition trimStart (s : string) : string := strip_all WHITE_SPACE (String.length s) s.

Definition trimEnd (s : string) : string :=
  rev (strip_all (map rev WHITE_SPACE) (String.length s) (rev s)).

(** [s.trim()] *)
Definition trim (s : string) : string := trimEnd (trimStart s).

(** [s.replace(/c/g, by)] for a pattern of one literal character and a
    replacement text without a dollar sign *)
Fixpoint replaceChar (s : string) (c : ascii) (by_ : string) : string :=
  match s with
  | EmptyString => EmptyString
  | String a s' =>
      if Ascii.eqb a c then by_ +:+ replaceChar s' c by_
      else String a (replaceChar s' c by_)
  end.

(** What a replacement text stands for at one match of a pattern without
    groups: [$$] is a dollar sign, [$&] the matched text, [$`] the text
    before the match and [$'] the text after it; every other character
    stands for itself. *)
Fixpoint expand (replacement matched before after : string) : string :=
  match replacement with
  | EmptyString => EmptyString
  | String a rest =>
      if Ascii.eqb a "$"%char then
        match rest with
        | String b rest' =>
            if Ascii.eqb b "$"%char then String "$"%char (expand rest' matched before after)
            else if Ascii.eqb b "&"%char then matched +:+ expand rest' matched before after
            else if Ascii.eqb b "`"%char then before +:+ expand rest' matched before after
            else if Ascii.eqb b "039"%char then after +:+ expand rest' matched before after
            else String a (expand rest matched before after)
        | EmptyString => String a EmptyString
        end
      else String a (expand rest matched before after)
  end.

(** [s.replace(/lit/g, by)] for a literal pattern [lit]: [skip] counts the
    characters of a match still to be stepped over, and [before] is what
    has been read of the string so far. *)
Fixpoint replaceLit (skip : nat) (before s lit by_ : string) : string :=
  match s with
  | EmptyString => EmptyString
  | String a s' =>
      match skip with
      | S k => replaceLit k (before +:+ String a EmptyString) s' lit by_
      | O =>
          if negb (String.eqb lit EmptyString) && startsWith s lit
          then expand by_ lit before (slice s (String.length lit)) +:+
               replaceLit (String.length lit - 1) (before +:+ String a EmptyString) s' lit by_
          else String a (replaceLit O (before +:+ String a EmptyString) s' lit by_)
      end
  end.

(** truthiness of a string *)
Definition nonempty (s : string) : bool := negb (String.eqb s EmptyString).

Definition dquote : string := String "034"%char EmptyString.
Definition squote : string := String "039"%char EmptyString.
Definition newline : string := String "010"%char EmptyString.
Definition cr : string := String "013"%char EmptyString.
Definition backtick : string := String "096"%char EmptyString.
Definition backslash : string := String "092"%char EmptyString.

End Str.

(** ** JSON values *)

#[local] Set Warnings "-register-all".

Inductive Json : Type :=
| JNull
| JBool (b : bool)
| JNum (x : float)
| JStr (s : string)
| JArr (items : list Json)
| JObj (entries : list (string * Json)).

(** [Record<string, unknown>]: the entries of an object. *)
Definition JsObject : Type := list (string * Json).

Section JsonInd.
Variable P : Json -> Prop.
Hypothesis Hnull : P JNull.
Hypothesis Hbool : forall b, P (JBool b).
Hypothesis Hnum : forall x, P (JNum x).
Hypothesis Hstr : forall s, P (JStr s).
Hypothesis Harr : forall l, Forall P l -> P (JArr l).
Hypothesis Hobj : forall o, Forall (fun kv => P (snd kv)) o -> P (JObj o).

Fixpoint Json_nested_ind (v : Json) : P v :=
  match v with
  | JNull => Hnull
  | JBool b => Hbool b
  | JNum x => Hnum x
  | JStr s => Hstr s
  | JArr l =>
      Harr l ((fix go (l : list Json) : Forall P l :=
                 match l with
                 | [] => @List.Forall_nil _ P
                 | x :: r => @List.Forall_cons _ P x r (Json_nested_ind x) (go r)
                 end) l)
  | JObj o =>
      Hobj o ((fix go (o : list (string * Json)) : Forall (fun kv => P (snd kv)) o :=
                 match o with
                 | [] => @List.Forall_nil _ _
                 | kv :: r => @List.Forall_cons _ _ kv r (Json_nested_ind (snd kv)) (go r)
                 end) o)
  end.
End JsonInd.

Module Obj.

(** [o[k]] on own properties; [None] is [undefined]. *)
Fixpoint get (o : JsObject) (k : string) : option Json :=
  match o with
  | [] => None
  | (k', v) :: rest =>
      match get rest k with
      | Some v' => Some v'
      | None => if String.eqb k' k then Some v else None
      end
  end.

(** [Object.keys(o)] *)
Definition keys (o : JsObject) : list string := map fst o.

(** [Object.hasOwn(o, k)] *)
Definition has (o : JsObject) (k : string) : bool :=
  existsb (String.eqb k) (keys o).

(** The own property [k] of [o] made [v], as an object literal and a
    spread define it. *)
Fixpoint set (o : JsObject) (k : string) (v : Json) : JsObject :=
  match o with
  | [] => [(k, v)]
  | (k', v') :: rest =>
      if String.eqb k' k then (k', v) :: (if has rest k then set rest k v else rest)
      else (k', v') :: set rest k v
  end.

(** [{...a, ...b}] *)
Definition spread (a b : JsObject) : JsObject :=
  fold_left (fun acc kv => set acc (fst kv) (snd kv)) b a.

(** [o[k] = v] on an object that was made by [{}]: under the name
    [__proto__] the assignment reaches the accessor of [Object.prototype]
    and adds no property.  The prototype that it may set instead is not
    part of a [JsObject]. *)
Definition assign (o : JsObject) (k : string) (v : Json) : JsObject :=
  if String.eqb k "__proto__" then o else set o k v.

(** The entries that a loop of such assignments leaves of the entries of
    an object. *)
Definition assigned (entries : JsObject) : JsObject :=
  List.filter (fun kv => negb (String.eqb (fst kv) "__proto__")) entries.

(** The methods of [Object.prototype]. *)
Definition prototype_methods : list string :=
  ["constructor"; "__defineGetter__"; "__defineSetter__"; "hasOwnProperty";
   "__lookupGetter__"; "__lookupSetter__"; "isPrototypeOf"; "propertyIsEnumerable";
   "toString"; "valueOf"; "toLocaleString"].

(** The names that every object inherits from [Object.prototype]: its
    methods and the accessor [__proto__]. *)
Definition prototype_keys : list string := "__proto__" :: prototype_methods.

End Obj.

(** Truthiness of a JSON value. *)
Definition truthy (v : Json) : bool :=
  match v with
  | JNull => false
  | JBool b => b
  | JNum x => negb (PrimFloat.eqb x 0%float) && PrimFloat.eqb x x
  | JStr s => Str.nonempty s
  | JArr _ | JObj _ => true
  end.

(** ** registry.ts: path normalization *)

(** The inner [normalize] of [ToolRegistry.normalizePaths]. *)
Fixpoint normalize (hostRoot containerRoot : string) (v : Json) : Json :=
  match v with
  | JStr s =>
      if Str.startsWith s (hostRoot +:+ "/")
      then JStr (containerRoot +:+ Str.slice s (String.length hostRoot))
      else v
  | JArr l => JArr (map (normalize hostRoot containerRoot) l)
  | JObj o =>
      JObj (Obj.assigned (map (fun kv => (fst kv, normalize hostRoot containerRoot (snd kv))) o))
  | _ => v
  end.

(** [normalizePaths(value, hostRoot, containerRoot)]: [value] is the argument
    object, so [normalize] takes its object branch. *)
Definition normalizePaths (value : JsObject) (hostRoot containerRoot : string) : JsObject :=
  Obj.assigned (map (fun kv => (fst kv, normalize hostRoot containerRoot (snd kv))) value).

(** The two roots are different and one of them, with its slash, begins
    with the other. *)
Definition roots_overlap (hostRoot containerRoot : string) : bool :=
  negb (String.eqb hostRoot containerRoot) &&
  (Str.startsWith (containerRoot +:+ "/") (hostRoot +:+ "/") ||
   Str.startsWith (hostRoot +:+ "/") (containerRoot +:+ "/")).

(** A string on which a second pass rewrites again, when the roots overlap. *)
Definition twice_rewritten (hostRoot containerRoot : string) : string :=
  if Str.startsWith (containerRoot +:+ "/") (hostRoot +:+ "/")
  then hostRoot +:+ "/"
  else hostRoot +:+ "/" +:+
       Str.slice (hostRoot +:+ "/") (String.length (containerRoot +:+ "/")).

(** ** The world outside the process, and computations over it *)

(** A thrown [Error]: its [name] and [message]. *)
Record JsError : Type := mkError { err_name : string; err_message : string }.

(** [new Error(msg)] *)
Definition Error (msg : string) : JsError := mkError "Error" msg.

(** The template rendering of a caught error, [Error.prototype.toString]. *)
Definition Error_toString (e : JsError) : string :=
  if Str.nonempty (err_name e) then
    if Str.nonempty (err_message e) then err_name e +:+ ": " +:+ err_message e
    else err_name e
  else err_message e.

Inductive Result (A : Type) : Type :=
| Ret (a : A)
| Throw (e : JsError).
Arguments Ret {A} a.
Arguments Throw {A} e.

(** One [execFile(file, args, ...)] call. *)
Record ProcCall : Type := mkProcCall { proc_file : string; proc_args : list string }.

(** What its callback receives: [error] ([None] when null, else its
    message), [stdout] and [stderr].  The output cap and the time limit of
    [execFile] end in an [error] as well. *)
Record ProcResult : Type :=
  mkProcResult { proc_error : option string; proc_stdout : string; proc_stderr : string }.

(** One [fetch(url, {method: POST, headers, body})] call; [http_body] is the
    object that is serialized into the body. *)
Record HttpCall : Type :=
  mkHttpCall { http_url : string; http_headers : list (string * string); http_body : Json }.

Inductive HttpOutcome : Type :=
| RespJson (j : Json)                              (* response.ok, and the body parsed *)
| RespStatus (status : N) (statusText : string)    (* not response.ok *)
| RespFail (e : JsError).                          (* fetch or response.json() rejected *)

(** [fetch] settles [reply_after] milliseconds after the request; when the
    response is ok, [response.json()] settles [body_after] milliseconds
    later. *)
Record HttpReply : Type :=
  mkReply { reply_after : N; reply_outcome : HttpOutcome; body_after : N }.

(** A reply whose body is at hand when [fetch] settles. *)
Definition mkHttpReply (after : N) (outcome : HttpOutcome) : HttpReply :=
  mkReply after outcome 0.

(** How long the body takes: a response that is not ok is not read. *)
Definition reading (reply : HttpReply) : N :=
  match reply_outcome reply with
  | RespStatus _ _ => 0%N
  | _ => body_after reply
  end.

Inductive LogLevel : Type := Debug | Info | Warn | Err.

Class Runtime : Type := {
  (** [new RegExp(pattern).test(value)]; it throws when [pattern] is not a
      regular expression *)
  RegExp_test : string -> string -> Result bool;
  (** [JSON.stringify(v)] *)
  JSON_stringify : Json -> string;
  (** the text of [String(v)], for a value on which it returns *)
  String_ : Json -> string;
  (** [String(Object.prototype[name])] for the name of a method: how a
      built-in function reads as a string *)
  native_code : string -> string;
  (** [Buffer.from(s).toString(base64)] *)
  base64 : string -> string;
  (** the outcome of an [execFile] call, given the calls made before it *)
  execFile : list ProcCall -> ProcCall -> ProcResult;
  (** the outcome of a [fetch] call, given the calls made before it *)
  fetch : list HttpCall -> HttpCall -> HttpReply;
}.

(** ** types.ts and the option records of the executors *)

Record ValidationRule : Type := mkRule { pattern : string; message : option string }.

Record ToolExecutionResult : Type := mkResult { content : Json; isError : option bool }.

Record CommandExecutorOptions : Type := mkCommandOptions {
  opt_commandTemplate : string;
  opt_container : string;
  opt_ddevProject : string;
  opt_user : option string;
  opt_shell : option string;
  opt_defaultArgs : option (list (string * string));
  opt_disallowedCommands : option (list string);
  opt_validationRules : option (list ValidationRule);
}.

Record CommandToolExecutor : Type := mkCommandToolExecutor {
  commandTemplate : string;
  container : string;
  ddevProject : string;
  user : string;
  shell : string;
  defaultArgs : list (string * string);
  disallowedCommands : list string;
  validationRules : list ValidationRule;
}.

Record DockerExecOptions : Type := mkDockerExecOptions {
  dx_container : string;
  dx_command : list string;
  dx_user : option string;
  dx_shell : option string;
}.

Record McpProxyOptions : Type := mkMcpProxyOptions {
  opt_serverUrl : string;
  opt_forwardArgs : option bool;
  opt_timeout : option N;
  opt_authUsername : option string;
  opt_authPassword : option string;
  opt_authToken : option string;
  opt_authTokenBasic : option bool;
  opt_verifySsl : option bool;
}.

Record McpProxyExecutor : Type := mkMcpProxyExecutor {
  serverUrl : string;
  forwardArgs : bool;
  timeout : N;   (* milliseconds *)
  headers : list (string * string);
}.

(** A tool definition as the registry reads it from a parsed YAML file.
    Fields the code reads through [??], [?.] or a truthiness test are
    optional; a missing string that is only tested for truthiness is the
    empty string. *)
Module ToolConfig.
Record t : Type := mk {
  name : string;
  enabled : option bool;
  description : option Json;
  type : option string;
  input_schema : option Json;
  (* command *)
  command_template : string;
  container : string;
  user : option string;
  shell : option string;
  default_args : option (list (string * string));
  disallowed_commands : option (list string);
  validation_rules : option (list ValidationRule);
  (* mcp_server *)
  server_url : string;
  forward_args : option bool;
  timeout : option N;
  auth_username : option string;
  auth_password : option string;
  auth_token : option string;
  auth_token_basic : option bool;
  verify_ssl : option bool;
  expose_remote_tools : option bool;
  tool_prefix : option string;
  init_timeout : option N;
}.
End ToolConfig.

Module BridgeConfig.
Record t : Type := mk {
  toolsConfigPath : string;
  ddevProject : string;
  hostProjectRoot : string;
  containerProjectRoot : string;
}.
End BridgeConfig.

(** The mutable state: the two module-level caches of docker.ts, what the
    process has done so far (oldest first), and the time in milliseconds. *)
Record World : Type := mkWorld {
  validatedContainers : gmap string bool;
  uidCache : gmap string string;
  spawned : list ProcCall;
  sent : list HttpCall;
  logged : list (LogLevel * string);
  clock : N;
}.

Definition M (A : Type) : Type := World -> Result A * World.

Definition ret {A} (a : A) : M A := fun w => (Ret a, w).

Definition throw {A} (e : JsError) : M A := fun w => (Throw e, w).

Definition bind {A B} (m : M A) (k : A -> M B) : M B :=
  fun w => match m w with
           | (Ret a, w') => k a w'
           | (Throw e, w') => (Throw e, w')
           end.

(** [try { m } catch (e) { h e }] *)
Definition try_catch {A} (m : M A) (h : JsError -> M A) : M A :=
  fun w => match m w with
           | (Ret a, w') => (Ret a, w')
           | (Throw e, w') => h e w'
           end.

(** a synchronous computation that may throw *)
Definition lift {A} (r : Result A) : M A := fun w => (r, w).

Declare Scope js_scope.
Delimit Scope js_scope with js.
Notation "x <- m ;; k" := (bind m (fun x => k))
  (at level 100, m at next level, right associativity) : js_scope.
Notation "m ;; k" := (bind m (fun _ => k))
  (at level 100, right associativity) : js_scope.
Open Scope js_scope.

(** [getLogger().level(msg)] *)
Definition log (lvl : LogLevel) (msg : string) : M unit :=
  fun w => (Ret tt, mkWorld (validatedContainers w) (uidCache w) (spawned w) (sent w)
                            (logged w ++ [(lvl, msg)]) (clock w)).

Definition validatedContainers_has (key : string) : M bool :=
  fun w => (Ret (bool_decide (is_Some (validatedContainers w !! key))), w).

Definition validatedContainers_set (key : string) (v : bool) : M unit :=
  fun w => (Ret tt, mkWorld (<[key := v]> (validatedContainers w)) (uidCache w)
                            (spawned w) (sent w) (logged w) (clock w)).

Definition uidCache_get (key : string) : M (option string) :=
  fun w => (Ret (uidCache w !! key), w).

Definition uidCache_set (key : string) (v : string) : M unit :=
  fun w => (Ret tt, mkWorld (validatedContainers w) (<[key := v]> (uidCache w))
                            (spawned w) (sent w) (logged w) (clock w)).

(** [m] with a thrown error handed back as a value. *)
Definition attempt {A} (m : M A) : M (Result A) :=
  fun w => match m w with
           | (r, w') => (Ret r, w')
           end.

(** [Promise.race([m, timer])] where the timer rejects with [e] after [ms]
    milliseconds: [m] wins when it settles earlier.  A computation that
    loses is not awaited further; what it does is kept in the world, its
    log lines in the order in which the model runs them, which is not the
    order in time once the caller has gone on. *)
Definition race_timer {A} (m : M A) (ms : N) (e : JsError) : M A :=
  fun w => match m w with
           | (r, w') =>
               if (clock w' - clock w <? ms)%N then (r, w')
               else (Throw e, mkWorld (validatedContainers w') (uidCache w') (spawned w')
                                      (sent w') (logged w') (clock w + ms))
           end.

Section Program.
Context `{RT : Runtime}.

(** ** docker.ts *)

(** Characters considered dangerous in command arguments. *)
Definition DANGEROUS_CHARS : list string :=
  [";"; "|"; "&"; ">"; "<"; "$"; Str.backtick; Str.newline; Str.cr].

(** [execFile(file, args, opts, callback)], resolved through its callback. *)
Definition spawn (call : ProcCall) : M ProcResult :=
  fun w => (Ret (execFile (spawned w) call),
            mkWorld (validatedContainers w) (uidCache w) (spawned w ++ [call])
                    (sent w) (logged w) (clock w)).

(** The quoting [execCommand] applies to each word of a docker command. *)
Definition sg_quote (arg : string) : string :=
  if Str.includes arg " " || Str.includes arg Str.dquote || Str.includes arg Str.squote
  then Str.squote +:+
       Str.replaceChar arg "039"%char
         (Str.squote +:+ Str.backslash +:+ Str.squote +:+ Str.squote) +:+
       Str.squote
  else arg.

Definition execCommand (cmd : string) (args : list string) : M string :=
  let call :=
    if String.eqb cmd "docker"
    then mkProcCall "sg" ["docker"; "-c"; Str.join (map sg_quote (cmd :: args)) " "]
    else mkProcCall cmd args in
  r <- spawn call ;;
  match proc_error r with
  | Some error_message =>
      throw (Error ("Command failed: " +:+ cmd +:+ " " +:+ Str.join args " " +:+ Str.newline +:+
                    (if Str.nonempty (Str.trim (proc_stderr r)) then Str.trim (proc_stderr r)
                     else error_message)))
  | None => ret (proc_stdout r)
  end.

Definition dockerExec (options : DockerExecOptions) : M string :=
  let shell := default "/bin/bash" (dx_shell options) in
  let dockerArgs :=
    (["exec"] ++
     match dx_user options with
     | Some u => if Str.nonempty u then ["-u"; u] else []
     | None => []
     end ++
     [dx_container options; shell; "-c"; Str.join (dx_command options) " "])%list in
  execCommand "docker" dockerArgs.

Definition label_format : string :=
  "{{index .Config.Labels " +:+ Str.dquote +:+ "com.ddev.site-name" +:+ Str.dquote +:+ "}}".

Definition mismatch_message (container labelValue ddevProject : string) : string :=
  "Container " +:+ Str.dquote +:+ container +:+ Str.dquote +:+ " belongs to " +:+
  Str.dquote +:+ labelValue +:+ Str.dquote +:+ ", not " +:+
  Str.dquote +:+ ddevProject +:+ Str.dquote.

Definition validateContainer (container ddevProject : string) : M unit :=
  let cacheKey := container +:+ ":" +:+ ddevProject in
  hit <- validatedContainers_has cacheKey ;;
  if hit : bool then ret tt
  else
    log Debug ("Validating container " +:+ Str.dquote +:+ container +:+ Str.dquote +:+
               " for project " +:+ Str.dquote +:+ ddevProject +:+ Str.dquote) ;;
    try_catch
      (out <- execCommand "docker" ["inspect"; "--format"; label_format; container] ;;
       let labelValue := Str.trim out in
       if negb (String.eqb ddevProject "default-project") &&
          negb (String.eqb labelValue ddevProject)
       then throw (Error (mismatch_message container labelValue ddevProject))
       else ret tt)
      (fun e =>
         if Str.includes (err_message e) "belongs to" then throw e
         else log Warn ("Container validation warning: " +:+ err_message e)) ;;
    validatedContainers_set cacheKey true ;;
    log Debug ("Container " +:+ Str.dquote +:+ container +:+ Str.dquote +:+ " validated (cached)").

(** The process [execCommand] starts for [docker args]. *)
Definition docker_call (args : list string) : ProcCall :=
  mkProcCall "sg" ["docker"; "-c"; Str.join (map sg_quote ("docker" :: args)) " "].

(** The message of the error [execCommand] rejects with. *)
Definition failure_message (cmd : string) (args : list string) (r : ProcResult) : string :=
  "Command failed: " +:+ cmd +:+ " " +:+ Str.join args " " +:+ Str.newline +:+
  (if Str.nonempty (Str.trim (proc_stderr r)) then Str.trim (proc_stderr r)
   else default EmptyString (proc_error r)).

(** The label query of [validateContainer]. *)
Definition inspect_call (container : string) : ProcCall :=
  docker_call ["inspect"; "--format"; label_format; container].

(** The owner lookup of [resolveContainerUser]. *)
Definition stat_call (container targetPath : string) : ProcCall :=
  docker_call ["exec"; "-u"; "root"; container; "/bin/sh"; "-c"; "stat -c %u " +:+ targetPath].

Definition dangerous_message (char val : string) : string :=
  "Dangerous character " +:+ Str.dquote +:+ char +:+ Str.dquote +:+
  " in static value: " +:+ Str.dquote +:+ val +:+ Str.dquote.

(** The inner loop of [validateStaticSafety], over [DANGEROUS_CHARS]. *)
Fixpoint scan_chars (val : string) (chars : list string) : Result unit :=
  match chars with
  | [] => Ret tt
  | char :: rest =>
      if Str.includes val char then Throw (Error (dangerous_message char val))
      else scan_chars val rest
  end.

Fixpoint validateStaticSafety (values : list string) : Result unit :=
  match values with
  | [] => Ret tt
  | val :: rest =>
      match scan_chars val DANGEROUS_CHARS with
      | Ret _ => validateStaticSafety rest
      | Throw e => Throw e
      end
  end.

(** A character of [DANGEROUS_CHARS], and a value that contains one. *)
Definition dangerous (a : ascii) : Prop := In (String a EmptyString) DANGEROUS_CHARS.

Definition unsafe (val : string) : Prop :=
  exists a, In a (list_ascii_of_string val) /\ dangerous a.

(** The part of [resolveContainerUser] after a cache miss.  The [try] block
    yields [Some uid] where the source returns from inside it. *)
Definition resolve_uid (container targetPath cacheKey : string) : M string :=
  found <-
    try_catch
      (result <- dockerExec (mkDockerExecOptions container ["stat -c %u " +:+ targetPath]
                               (Some "root") (Some "/bin/sh")) ;;
       let uid := Str.trim result in
       if Str.nonempty uid then
         log Info ("Resolved auto:uid-from-path:" +:+ targetPath +:+ " → UID " +:+ uid +:+
                   " (cached)") ;;
         uidCache_set cacheKey uid ;;
         ret (Some uid)
       else ret None)
      (fun e =>
         log Warn ("Error resolving UID: " +:+ Error_toString e +:+
                   ". Falling back to www-data") ;;
         ret None) ;;
  match found with
  | Some uid => ret uid
  | None => uidCache_set cacheKey "www-data" ;; ret "www-data"
  end.

(** [parts.length > 2 ? parts[2] : "/var/www/html"] for the parts of [user]
    between colons. *)
Definition uid_target_path (user : string) : string :=
  let parts := Str.split user ":"%char in
  if (2 <? length parts)%nat then nth 2 parts EmptyString else "/var/www/html".

Definition resolveContainerUser (user container : string) : M string :=
  if negb (Str.startsWith user "auto:uid-from-path") then ret user
  else
    let targetPath := uid_target_path user in
    let cacheKey := container +:+ ":" +:+ targetPath in
    cached <- uidCache_get cacheKey ;;
    match cached with
    | Some c => if Str.nonempty c then ret c else resolve_uid container targetPath cacheKey
    | None => resolve_uid container targetPath cacheKey
    end.

(** The key holds no usable entry: none, or the empty string. *)
Definition uid_uncached (w : World) (cacheKey : string) : Prop :=
  default EmptyString (uidCache w !! cacheKey) = EmptyString.

(** ** executors/command.ts *)

(** The match of the pattern [\w]. *)
Definition is_word (a : ascii) : bool :=
  let n := nat_of_ascii a in
  ((48 <=? n)%nat && (n <=? 57)%nat) || ((65 <=? n)%nat && (n <=? 90)%nat) ||
  ((97 <=? n)%nat && (n <=? 122)%nat) || (n =? 95)%nat.

(** The longest run of word characters at the start of [s]. *)
Fixpoint take_word (s : string) : string :=
  match s with
  | EmptyString => EmptyString
  | String a s' => if is_word a then String a (take_word s') else EmptyString
  end.

(** A match of [/\{(\w+)\}/] at the start of [s]: its captured group. *)
Definition match_placeholder (s : string) : option string :=
  match s with
  | String a s' =>
      if Ascii.eqb a "{"%char then
        let w := take_word s' in
        if Str.nonempty w && Str.startsWith (Str.slice s' (String.length w)) "}"
        then Some w else None
      else None
  | EmptyString => None
  end.

(** [[...template.matchAll(/\{(\w+)\}/g)].map((m) => m[1])]; [skip] counts
    the characters of the last match still to be stepped over. *)
Fixpoint matchAll_placeholders (skip : nat) (template : string) : list string :=
  match template with
  | EmptyString => []
  | String _ rest =>
      match skip with
      | S k => matchAll_placeholders k rest
      | O =>
          match match_placeholder template with
          | Some key => key :: matchAll_placeholders (S (String.length key)) rest
          | None => matchAll_placeholders O rest
          end
      end
  end.

(** The text of [String(v)]; a string is its own rendering. *)
Definition String_of (v : Json) : string :=
  match v with
  | JStr s => s
  | _ => String_ v
  end.

Definition TypeError (msg : string) : JsError := mkError "TypeError" msg.

(** The values on which [String(v)] and a template literal throw: an
    object with an own property toString, since no JSON value can be
    called and the inherited valueOf answers with the object itself; and
    an array that holds such a value, since an array is joined from the
    strings of its elements. *)
Fixpoint String_throws (v : Json) : bool :=
  match v with
  | JObj o => Obj.has o "toString"
  | JArr l => existsb String_throws l
  | _ => false
  end.

(** [String(v)], and [v] inside a template literal. *)
Definition ToString (v : Json) : Result string :=
  if String_throws v then Throw (TypeError "Cannot convert object to primitive value")
  else Ret (String_of v).

(** [String(o[key])] for a name that [o] inherits and does not have
    itself: a method reads as its native code, and [__proto__] gives
    [Object.prototype]. *)
Definition inherited (key : string) : option string :=
  if String.eqb key "__proto__" then Some "[object Object]"
  else if existsb (String.eqb key) Obj.prototype_methods then Some (native_code key)
  else None.

(** The callback of [execute] at one placeholder:
    [key in mergedArgs ? String(mergedArgs[key]) : undefined]. *)
Definition rendered (mergedArgs : JsObject) (key : string) : option (Result string) :=
  match Obj.get mergedArgs key with
  | Some v => Some (ToString v)
  | None => option_map Ret (inherited key)
  end.

(** [template.replace(/\{(\w+)\}/g, callback)] with the callback of
    [execute]: the string of the value under the key, or a throw at the
    first key whose value has no string or that is not in [mergedArgs]. *)
Fixpoint substitute (skip : nat) (template : string) (mergedArgs : JsObject) : Result string :=
  match template with
  | EmptyString => Ret EmptyString
  | String a rest =>
      match skip with
      | S k => substitute k rest mergedArgs
      | O =>
          match match_placeholder template with
          | Some key =>
              match rendered mergedArgs key with
              | Some (Ret text) =>
                  match substitute (S (String.length key)) rest mergedArgs with
                  | Ret out => Ret (text +:+ out)
                  | Throw e => Throw e
                  end
              | Some (Throw e) => Throw e
              | None => Throw (Error ("Missing required argument: " +:+ key))
              end
          | None =>
              match substitute O rest mergedArgs with
              | Ret out => Ret (String a out)
              | Throw e => Throw e
              end
          end
      end
  end.

(** [new Set(iterable)] as the list of its members in insertion order. *)
Definition Set_has (s : list string) (x : string) : bool := existsb (String.eqb x) s.

Definition Set_add (s : list string) (x : string) : list string :=
  if Set_has s x then s else s ++ [x].

Definition Set_of (l : list string) : list string := fold_left Set_add l [].

(** The constructor: the defaults, then the static safety check. *)
Definition new_CommandToolExecutor (options : CommandExecutorOptions)
  : Result CommandToolExecutor :=
  let this :=
    mkCommandToolExecutor
      (opt_commandTemplate options) (opt_container options) (opt_ddevProject options)
      (default "www-data" (opt_user options))
      (default "/bin/bash" (opt_shell options))
      (default [] (opt_defaultArgs options))
      (Set_of (default [] (opt_disallowedCommands options)))
      (default [] (opt_validationRules options)) in
  match validateStaticSafety [shell this; "-c"] with
  | Ret _ => Ret this
  | Throw e => Throw e
  end.

(** The loop of [checkRules] over [this.validationRules]. *)
Fixpoint checkRules_from (rules : list ValidationRule) (value : string) : Result (option string) :=
  match rules with
  | [] => Ret None
  | rule :: rest =>
      if Str.nonempty (pattern rule) then
        match RegExp_test (pattern rule) value with
        | Throw e => Throw e
        | Ret true =>
            Ret (Some (default ("Validation failed for pattern: " +:+ pattern rule)
                               (message rule)))
        | Ret false => checkRules_from rest value
        end
      else checkRules_from rest value
  end.

Definition checkRules (this : CommandToolExecutor) (value : string) : Result (option string) :=
  checkRules_from (validationRules this) value.

(** A rule that the loop passes over: it has no pattern, or its pattern
    does not match. *)
Definition passes (value : string) (rule : ValidationRule) : Prop :=
  pattern rule = EmptyString \/ RegExp_test (pattern rule) value = Ret false.

(** [defaultArgs] as an object, for [{...this.defaultArgs, ...args}]. *)
Definition defaultArgs_object (this : CommandToolExecutor) : JsObject :=
  map (fun kv => (fst kv, JStr (snd kv))) (defaultArgs this).

(** truthiness of a [string | null] *)
Definition truthy_message (m : option string) : bool :=
  match m with
  | Some msg => Str.nonempty msg
  | None => false
  end.

(** The placeholders of the template that neither the defaults nor [args]
    provide, as computed by [validateArguments]. *)
Definition missing_placeholders (this : CommandToolExecutor) (args : JsObject) : list string :=
  let placeholders := Set_of (matchAll_placeholders O (commandTemplate this)) in
  let provided := Set_of (map fst (defaultArgs this) ++ Obj.keys args) in
  List.filter (fun p => negb (Set_has provided p)) placeholders.

Definition CommandToolExecutor_validateArguments
  (this : CommandToolExecutor) (args : JsObject) : Result unit :=
  match checkRules this (JSON_stringify (JObj args)) with
  | Throw e => Throw e
  | Ret ruleError =>
      if truthy_message ruleError then Throw (Error (default EmptyString ruleError))
      else
        let missing := missing_placeholders this args in
        if (0 <? length missing)%nat
        then Throw (Error ("Missing required arguments: " +:+ Str.join missing ", "))
        else Ret tt
  end.

(** The [command] of the merged arguments when it is a string of the
    disallowed set. *)
Definition disallowed_command (this : CommandToolExecutor) (mergedArgs : JsObject)
  : option string :=
  match Obj.get mergedArgs "command" with
  | Some (JStr c) => if Set_has (disallowedCommands this) c then Some c else None
  | _ => None
  end.

Definition CommandToolExecutor_execute
  (this : CommandToolExecutor) (args : JsObject) : M ToolExecutionResult :=
  (* Resolve user (cached after first call). *)
  user <- resolveContainerUser (user this) (container this) ;;
  (* Merge with defaults. *)
  let mergedArgs := Obj.spread (defaultArgs_object this) args in
  (* Check disallowed commands. *)
  match disallowed_command this mergedArgs with
  | Some c =>
      log Warn ("Blocked disallowed command: " +:+ c) ;;
      ret (mkResult (JStr ("Error: Command '" +:+ c +:+ "' is not allowed")) (Some true))
  | None =>
      (* Substitute arguments into template. *)
      match substitute O (commandTemplate this) mergedArgs with
      | Throw e => ret (mkResult (JStr ("Error: " +:+ err_message e)) (Some true))
      | Ret cmdStr =>
          (* Validate rendered command against rules. *)
          ruleError <- lift (checkRules this cmdStr) ;;
          if truthy_message ruleError
          then ret (mkResult (JStr ("Validation error: " +:+ default EmptyString ruleError))
                             (Some true))
          else
            (* Validate container ownership (cached after first call). *)
            try_catch (validateContainer (container this) (ddevProject this))
              (fun e => log Warn ("Container validation: " +:+ err_message e)) ;;
            (* Execute in Docker container. *)
            try_catch
              (log Info ("EXEC: " +:+ container this +:+ " as " +:+ user +:+ ": " +:+
                         shell this +:+ " -c ...") ;;
               output <- dockerExec (mkDockerExecOptions (container this) [cmdStr]
                                       (Some user) (Some (shell this))) ;;
               ret (mkResult (JStr (Str.trim output)) None))
              (fun e => ret (mkResult (JStr ("Execution failed: " +:+ err_message e))
                                      (Some true)))
      end
  end.

(** ** executors/mcp-proxy.ts *)

(** truthiness of an optional string option *)
Definition given (o : option string) : bool :=
  match o with
  | Some s => Str.nonempty s
  | None => false
  end.

Definition new_McpProxyExecutor (options : McpProxyOptions) : McpProxyExecutor :=
  let auth :=
    if given (opt_authToken options) then
      if default false (opt_authTokenBasic options)
      then [("Authorization", "Basic " +:+ base64 (default EmptyString (opt_authToken options)))]
      else [("Authorization", "Bearer " +:+ default EmptyString (opt_authToken options))]
    else if given (opt_authUsername options) && given (opt_authPassword options) then
      [("Authorization",
        "Basic " +:+ base64 (default EmptyString (opt_authUsername options) +:+ ":" +:+
                             default EmptyString (opt_authPassword options)))]
    else [] in
  mkMcpProxyExecutor
    (opt_serverUrl options)
    (default true (opt_forwardArgs options))
    (default 10%N (opt_timeout options) * 1000)%N
    (("Content-Type", "application/json") :: auth).

(** The [AbortError] a cancelled [fetch] rejects with. *)
Definition AbortError : JsError := mkError "AbortError" "This operation was aborted".

(** [fetch(url, init)] under the abort timer of [rpc], and the reading of
    the body that follows it: the abort when [fetch] has not settled after
    [ms] milliseconds; otherwise the timer is cleared, and the body of a
    response that is ok is read with no limit of time. *)
Definition send (call : HttpCall) (ms : N) : M HttpOutcome :=
  fun w =>
    let reply := fetch (sent w) call in
    let arrived := (reply_after reply <? ms)%N in
    (Ret (if arrived then reply_outcome reply else RespFail AbortError),
     mkWorld (validatedContainers w) (uidCache w) (spawned w) (sent w ++ [call]) (logged w)
             (clock w + (if arrived then reply_after reply + reading reply else ms))).

(** The entries of an object literal whose value is not [undefined]. *)
Definition field (k : string) (v : option Json) : JsObject :=
  match v with
  | Some j => [(k, j)]
  | None => []
  end.

(** The request [rpc] posts: the URL, the headers, and the object
    [{jsonrpc, method, params, id}] that becomes the body. *)
Definition rpc_request (this : McpProxyExecutor) (method params : option Json) : HttpCall :=
  mkHttpCall (serverUrl this) (headers this)
    (JObj ([("jsonrpc", JStr "2.0")] ++ field "method" method ++ field "params" params ++
           [("id", JNum 1%float)])).

(** Send a JSON-RPC request to the remote server. *)
Definition rpc (this : McpProxyExecutor) (method params : option Json) : M Json :=
  outcome <- send (rpc_request this method params) (timeout this) ;;
  match outcome with
  | RespJson j => ret j
  | RespStatus status statusText =>
      throw (Error ("HTTP " +:+ pretty status +:+ ": " +:+ statusText))
  | RespFail e => throw e
  end.

(** [a ?? b] reads [a] unless it is null or undefined. *)
Definition nullish (v : option Json) : bool :=
  match v with
  | None | Some JNull => true
  | Some _ => false
  end.

(** [v.k] for a value that is not null or undefined: primitives and arrays
    have no such property. *)
Definition prop (v : Json) (k : string) : option Json :=
  match v with
  | JObj o => Obj.get o k
  | _ => None
  end.

(** Fetch available tools from the remote MCP server via tools/list. *)
Definition fetchRemoteTools (this : McpProxyExecutor) : M (list Json) :=
  log Info ("Fetching remote tools from " +:+ serverUrl this) ;;
  try_catch
    (result <- rpc this (Some (JStr "tools/list")) (Some (JObj [])) ;;
     match result with
     | JArr tools =>
         log Info ("Fetched " +:+ pretty (length tools) +:+ " tools from " +:+ serverUrl this) ;;
         ret tools
     | JObj r =>
         let raw :=
           if negb (nullish (Obj.get r "tools")) then Obj.get r "tools"
           else
             let inner :=
               if nullish (Obj.get r "result") then None
               else prop (default JNull (Obj.get r "result")) "tools" in
             if negb (nullish inner) then inner else Some (JArr []) in
         let tools := match raw with Some (JArr l) => l | _ => [] end in
         log Info ("Fetched " +:+ pretty (length tools) +:+ " tools from " +:+ serverUrl this) ;;
         ret tools
     | _ =>
         log Warn ("Unexpected response format from " +:+ serverUrl this) ;;
         ret []
     end)
    (fun e =>
       log Err ("Failed to fetch tools from " +:+ serverUrl this +:+ ": " +:+ Error_toString e) ;;
       ret []).

(** Parse a JSON-RPC response into a ToolExecutionResult. *)
Definition parseResponse (result : Json) : Result ToolExecutionResult :=
  match result with
  | JObj r =>
      if Obj.has r "result"
      then
        match ToString (default JNull (Obj.get r "result")) with
        | Ret text => Ret (mkResult (JStr text) None)
        | Throw e => Throw e
        end
      else
        match Obj.get r "content" with
        | Some (JArr (first :: _)) =>
            match first with
            | JNull => Throw (TypeError "Cannot read properties of null (reading 'text')")
            | _ =>
                if negb (nullish (prop first "text"))
                then Ret (mkResult (default JNull (prop first "text")) None)
                else Ret (mkResult (JStr (JSON_stringify result)) None)
            end
        | _ =>
            if Obj.has r "error" then
              match default JNull (Obj.get r "error") with
              | JNull => Throw (TypeError "Cannot read properties of null (reading 'message')")
              | err =>
                  match ToString (if negb (nullish (prop err "message"))
                                  then default JNull (prop err "message")
                                  else err) with
                  | Ret text => Ret (mkResult (JStr ("RPC Error: " +:+ text)) (Some true))
                  | Throw e => Throw e
                  end
              end
            else Ret (mkResult (JStr (JSON_stringify result)) None)
        end
  | JStr s => Ret (mkResult (JStr s) None)
  | _ => Ret (mkResult (JStr (JSON_stringify result)) None)
  end.

(** Call a specific tool on the remote MCP server by name. *)
Definition callTool (this : McpProxyExecutor) (args : JsObject) (toolName : option Json)
  : M ToolExecutionResult :=
  try_catch
    (let payload : JsObject :=
       if truthy (default JNull toolName)
       then [("method", JStr "tools/call");
             ("params", JObj [("name", default JNull toolName); ("arguments", JObj args)])]
       else
         match Obj.get args "method" with
         | Some (JStr m) =>
             [("method", JStr m);
              ("params", if nullish (Obj.get args "params") then JObj []
                         else default JNull (Obj.get args "params"))]
         | _ => if forwardArgs this then args else []
         end in
     result <- rpc this (Obj.get payload "method") (Obj.get payload "params") ;;
     lift (parseResponse result))
    (fun e =>
       if String.eqb (err_name e) "AbortError"
       then ret (mkResult (JStr ("Request timeout after " +:+ pretty (timeout this / 1000)%N +:+ "s"))
                          (Some true))
       else
         log Err ("MCP proxy error: " +:+ Error_toString e) ;;
         ret (mkResult (JStr ("Error: " +:+ err_message e)) (Some true))).

(** The classes that implement the interface [ToolExecutor]. *)
Inductive ToolExecutor : Type :=
| Command (this : CommandToolExecutor)
| McpProxy (this : McpProxyExecutor)
| BoundRemoteTool (proxy : McpProxyExecutor) (remoteToolName : Json).

(** [executor.execute(args)] *)
Definition execute (executor : ToolExecutor) (args : JsObject) : M ToolExecutionResult :=
  match executor with
  | Command this => CommandToolExecutor_execute this args
  | McpProxy this => callTool this args None
  | BoundRemoteTool proxy remoteToolName => callTool proxy args (Some remoteToolName)
  end.

(** [executor.validateArguments(args)]: remote servers handle their own
    validation. *)
Definition validateArguments (executor : ToolExecutor) (args : JsObject) : M unit :=
  match executor with
  | Command this => lift (CommandToolExecutor_validateArguments this args)
  | McpProxy _ => ret tt
  | BoundRemoteTool _ _ => ret tt
  end.

(** ** registry.ts *)

Record RegisteredTool : Type := mkRegisteredTool {
  config : ToolConfig.t;
  executor : ToolExecutor;
}.

Record ToolRegistry : Type := mkToolRegistry {
  toolsConfigDir : string;
  registry_config : BridgeConfig.t;
  tools : gmap string RegisteredTool;
}.

(** [this.tools.set(name, tool)] *)
Definition tools_set (this : ToolRegistry) (name : string) (tool : RegisteredTool)
  : ToolRegistry :=
  mkToolRegistry (toolsConfigDir this) (registry_config this) (<[name := tool]> (tools this)).

(** The preprocessor the constructor installs: path normalization. *)
Definition argPreprocessor (this : ToolRegistry) (args : JsObject) : JsObject :=
  normalizePaths args
    (BridgeConfig.hostProjectRoot (registry_config this))
    (BridgeConfig.containerProjectRoot (registry_config this)).

(** The project name is the replacement text of [replace], in which a
    dollar sign may stand for more than itself ([Str.expand]). *)
Definition interpolateContainerName (this : ToolRegistry) (container : string) : string :=
  if Str.includes container "{DDEV_PROJECT}"
  then Str.replaceLit O EmptyString container "{DDEV_PROJECT}"
         (BridgeConfig.ddevProject (registry_config this))
  else container.

(** The options [createExecutor] passes to [new CommandToolExecutor]. *)
Definition command_options (this : ToolRegistry) (toolConfig : ToolConfig.t)
  : CommandExecutorOptions :=
  mkCommandOptions
    (ToolConfig.command_template toolConfig)
    (interpolateContainerName this (ToolConfig.container toolConfig))
    (BridgeConfig.ddevProject (registry_config this))
    (ToolConfig.user toolConfig)
    (ToolConfig.shell toolConfig)
    (ToolConfig.default_args toolConfig)
    (ToolConfig.disallowed_commands toolConfig)
    (ToolConfig.validation_rules toolConfig).

(** The options [createExecutor] passes to [new McpProxyExecutor]. *)
Definition proxy_options (toolConfig : ToolConfig.t) : McpProxyOptions :=
  mkMcpProxyOptions
    (ToolConfig.server_url toolConfig)
    (ToolConfig.forward_args toolConfig)
    (ToolConfig.timeout toolConfig)
    (ToolConfig.auth_username toolConfig)
    (ToolConfig.auth_password toolConfig)
    (ToolConfig.auth_token toolConfig)
    (ToolConfig.auth_token_basic toolConfig)
    (ToolConfig.verify_ssl toolConfig).

(** The request [fetchRemoteTools] sends for a proxy definition. *)
Definition list_request (toolConfig : ToolConfig.t) : HttpCall :=
  rpc_request (new_McpProxyExecutor (proxy_options toolConfig))
    (Some (JStr "tools/list")) (Some (JObj [])).

(** [createExecutor] inside its [try]: the constructor call may throw. *)
Definition construct_executor (this : ToolRegistry) (toolConfig : ToolConfig.t)
  : M (option ToolExecutor) :=
  let type := default "command" (ToolConfig.type toolConfig) in
  let name := ToolConfig.name toolConfig in
  if String.eqb type "command" then
    if negb (Str.nonempty (ToolConfig.command_template toolConfig))
    then log Err ("Tool " +:+ name +:+ ": missing command_template") ;; ret None
    else
      c <- lift (new_CommandToolExecutor (command_options this toolConfig)) ;;
      ret (Some (Command c))
  else if String.eqb type "mcp_server" then
    if negb (Str.nonempty (ToolConfig.server_url toolConfig))
    then log Err ("Tool " +:+ name +:+ ": missing server_url") ;; ret None
    else
      ret (Some (McpProxy (new_McpProxyExecutor (proxy_options toolConfig))))
  else
    log Err ("Unknown tool type: " +:+ type) ;; ret None.

Definition createExecutor (this : ToolRegistry) (toolConfig : ToolConfig.t)
  : M (option ToolExecutor) :=
  try_catch (construct_executor this toolConfig)
    (fun e =>
       log Err ("Error creating executor for " +:+ ToolConfig.name toolConfig +:+ ": " +:+
                Error_toString e) ;;
       ret None).


(** The [wrappedConfig] of a remote tool: its name, description and
    schema, and the server of the proxy. *)
Definition wrapped_config (proxyConfig : ToolConfig.t) (localName : string) (remote : Json)
  : ToolConfig.t :=
  ToolConfig.mk
    localName
    None
    (Some (if nullish (prop remote "description") then JStr EmptyString
           else default JNull (prop remote "description")))
    (Some "mcp_server")
    (prop remote "inputSchema")
    EmptyString EmptyString None None None None None
    (ToolConfig.server_url proxyConfig)
    None None None None None None None None None None.

(** The [for] loop of [loadRemoteMcpTools]: the registry and the count so
    far come back together with how the loop ended, since what was
    registered before a throw stays registered.  A local name that is not
    a string is a key no call by name reaches; the entry is counted.  A
    name that has no string ends the loop: in the local name when there is
    a prefix, in the log line otherwise. *)
Fixpoint bind_remote_tools
  (proxyConfig : ToolConfig.t) (proxy : McpProxyExecutor) (prefix : string)
  (remoteTools : list Json) (this : ToolRegistry) (count : nat)
  : M (ToolRegistry * Result nat) :=
  match remoteTools with
  | [] => ret (this, Ret count)
  | remote :: rest =>
      match remote with
      | JNull =>
          ret (this, Throw (TypeError "Cannot read properties of null (reading 'name')"))
      | _ =>
          let remote_name := default JNull (prop remote "name") in
          if negb (truthy remote_name)
          then bind_remote_tools proxyConfig proxy prefix rest this count
          else if String_throws remote_name
          then ret (this, Throw (TypeError "Cannot convert object to primitive value"))
          else
            let localName :=
              if Str.nonempty prefix then JStr (prefix +:+ String_of remote_name)
              else remote_name in
            let boundExecutor := BoundRemoteTool proxy remote_name in
            let wrappedConfig := wrapped_config proxyConfig (String_of localName) remote in
            let this' :=
              match localName with
              | JStr key => tools_set this key (mkRegisteredTool wrappedConfig boundExecutor)
              | _ => this
              end in
            log Info ("Loaded remote tool: " +:+ String_of localName +:+ " (from " +:+
                      String_of remote_name +:+ ")") ;;
            bind_remote_tools proxyConfig proxy prefix rest this' (S count)
      end
  end.

(** Fetch remote tools and register each with a BoundRemoteToolExecutor. *)
Definition loadRemoteMcpTools
  (this : ToolRegistry) (proxyConfig : ToolConfig.t) (proxy : McpProxyExecutor)
  : M (nat * ToolRegistry) :=
  let proxyName := ToolConfig.name proxyConfig in
  log Info ("Fetching remote tools from: " +:+ proxyName) ;;
  let initTimeout := default 30%N (ToolConfig.init_timeout proxyConfig) in
  fetched <- attempt (race_timer (fetchRemoteTools proxy) (initTimeout * 1000)%N
                        (Error ("Timeout after " +:+ pretty initTimeout +:+ "s"))) ;;
  match fetched with
  | Throw e =>
      log Err ("Failed to load remote tools from " +:+ proxyName +:+ ": " +:+ Error_toString e) ;;
      ret (O, this)
  | Ret [] => log Warn ("No tools from " +:+ proxyName) ;; ret (O, this)
  | Ret remoteTools =>
      let prefix := default EmptyString (ToolConfig.tool_prefix proxyConfig) in
      looped <- bind_remote_tools proxyConfig proxy prefix remoteTools this O ;;
      match looped with
      | (this', Ret count) =>
          log Info ("Loaded " +:+ pretty count +:+ " tools from " +:+ proxyName) ;;
          ret (count, this')
      | (this', Throw e) =>
          log Err ("Failed to load remote tools from " +:+ proxyName +:+ ": " +:+
                   Error_toString e) ;;
          ret (O, this')
      end
  end.

Definition loadSingleTool (this : ToolRegistry) (toolConfig : ToolConfig.t)
  : M (nat * ToolRegistry) :=
  let name := ToolConfig.name toolConfig in
  if negb (Str.nonempty name) then log Warn "Tool config missing 'name'" ;; ret (O, this)
  else if bool_decide (ToolConfig.enabled toolConfig = Some false)
  then log Info ("Tool disabled: " +:+ name) ;; ret (O, this)
  else
    created <- createExecutor this toolConfig ;;
    match created with
    | None => log Warn ("Failed to create executor: " +:+ name) ;; ret (O, this)
    | Some executor =>
        (* MCP server with expose_remote_tools: register each remote tool individually. *)
        if bool_decide (ToolConfig.type toolConfig = Some "mcp_server") &&
           default false (ToolConfig.expose_remote_tools toolConfig)
        then
          match executor with
          | McpProxy proxy => loadRemoteMcpTools this toolConfig proxy
          | _ => ret (O, this)   (* the cast: this type is built as a McpProxyExecutor *)
          end
        else
          log Info ("Loaded tool: " +:+ name) ;;
          ret (1%nat, tools_set this name (mkRegisteredTool toolConfig executor))
    end.

(** Execute a tool. Applies arg preprocessing (path normalization) then
    delegates to the executor. *)
Definition executeTool (this : ToolRegistry) (name : string) (args : JsObject)
  : M ToolExecutionResult :=
  match tools this !! name with
  | None => ret (mkResult (JStr ("Error: Unknown tool '" +:+ name +:+ "'")) (Some true))
  | Some registered =>
      let executor := executor registered in
      validated <- attempt (validateArguments executor args) ;;
      match validated with
      | Throw e => ret (mkResult (JStr ("Validation error: " +:+ err_message e)) (Some true))
      | Ret _ =>
          (* Apply preprocessor (path normalization). *)
          let processedArgs := argPreprocessor this args in
          try_catch (execute executor processedArgs)
            (fun e =>
               log Err ("Error executing " +:+ name +:+ ": " +:+ Error_toString e) ;;
               ret (mkResult (JStr ("Error: " +:+ err_message e)) (Some true)))
      end
  end.

End Program.

(** ** A scripted runtime for running the model on examples *)

(** JSON text of plain data: strings without characters to escape, and no
    numbers other than those [number] renders. *)
Fixpoint plain_stringify (number : float -> string) (v : Json) : string :=
  match v with
  | JNull => "null"
  | JBool true => "true"
  | JBool false => "false"
  | JNum x => number x
  | JStr s => Str.dquote +:+ s +:+ Str.dquote
  | JArr l => "[" +:+ Str.join (map (plain_stringify number) l) "," +:+ "]"
  | JObj o =>
      "{" +:+
      Str.join (map (fun kv => Str.dquote +:+ fst kv +:+ Str.dquote +:+ ":" +:+
                               plain_stringify number (snd kv)) o) "," +:+
      "}"
  end.

(** The text of [String(v)] for plain data. *)
Fixpoint plain_String (number : float -> string) (v : Json) : string :=
  match v with
  | JNull => "null"
  | JBool true => "true"
  | JBool false => "false"
  | JNum x => number x
  | JStr s => s
  | JArr l => Str.join (map (fun x => match x with
                                      | JNull => EmptyString
                                      | _ => plain_String number x
                                      end) l) ","
  | JObj _ => "[object Object]"
  end.

(** A runtime whose processes and server follow a script.  Its regular
    expressions are the literal ones: a pattern without metacharacters
    matches a value exactly when the value includes it. *)
Definition scripted
  (proc : list ProcCall -> ProcCall -> ProcResult)
  (http : list HttpCall -> HttpCall -> HttpReply) : Runtime :=
  {| RegExp_test := fun pattern value => Ret (Str.includes value pattern);
     JSON_stringify := plain_stringify (fun _ => "0");
     String_ := plain_String (fun _ => "0");
     native_code := fun name =>
       "function " +:+ (if String.eqb name "constructor" then "Object" else name) +:+
       "() { [native code] }";
     base64 := fun s => s;
     execFile := proc;
     fetch := http |}.

(** No process succeeds and no server answers in time. *)
Definition offline : Runtime :=
  scripted (fun _ _ => mkProcResult (Some "spawn ENOENT") EmptyString EmptyString)
           (fun _ _ => mkHttpReply 3600000 (RespFail (mkError "TypeError" "fetch failed"))).

(** The container web does not exist at the first process call; from then
    on it exists and declares the project siteA. *)
Definition created_later : Runtime :=
  scripted
    (fun history _ =>
       match history with
       | [] => mkProcResult (Some "Command failed: sg docker -c") EmptyString
                            "Error: No such object: web"
       | _ => mkProcResult None ("siteA" +:+ Str.newline) EmptyString
       end)
    (fun _ _ => mkHttpReply 3600000 (RespFail (mkError "TypeError" "fetch failed"))).

(** The container web declares the project siteA. *)
Definition siteA_running : Runtime :=
  scripted (fun _ _ => mkProcResult None ("siteA" +:+ Str.newline) EmptyString)
           (fun _ _ => mkHttpReply 3600000 (RespFail (mkError "TypeError" "fetch failed"))).

(** The web root of every container belongs to the user 33, and every
    container declares the project site. *)
Definition owner_33 : Runtime :=
  scripted
    (fun _ call =>
       if Str.includes (Str.join (proc_args call) " ") "stat -c %u"
       then mkProcResult None ("33" +:+ Str.newline) EmptyString
       else mkProcResult None ("site" +:+ Str.newline) EmptyString)
    (fun _ _ => mkHttpReply 3600000 (RespFail (mkError "TypeError" "fetch failed"))).

Definition empty_world : World := mkWorld ∅ ∅ [] [] [] 0.

(** The world after the first validation of web for siteB under
    [created_later]. *)
Definition after_first_validation : World :=
  snd (@validateContainer created_later "web" "siteB" empty_world).

(** ** Example tools *)

(** A command tool with two rules. *)
Definition echo_tool : CommandToolExecutor :=
  mkCommandToolExecutor "echo {x}" "web" "site" "www-data" "/bin/bash" [] []
    [mkRule "rm" (Some "msg1"); mkRule "r" (Some "msg2")].

(** A command tool whose template reads two placeholders twice; the
    defaults give one of them. *)
Definition ls_tool : CommandToolExecutor :=
  mkCommandToolExecutor "ls {mode} {path} {path} {mode}" "web" "site" "www-data"
    "/bin/bash" [("mode", "-l")] [] [mkRule "rm" (Some "no rm")].

(** A command tool that runs as the owner of the web root and refuses rm. *)
Definition guarded_options : CommandExecutorOptions :=
  mkCommandOptions "{command} {target}" "web" "site" (Some "auto:uid-from-path") None None
    (Some ["rm"]) None.

Definition guarded_tool : CommandToolExecutor :=
  mkCommandToolExecutor "{command} {target}" "web" "site" "auto:uid-from-path" "/bin/bash"
    [] ["rm"] [].

(** The same tool with the default user. *)
Definition guarded_tool_www : CommandToolExecutor :=
  mkCommandToolExecutor "{command} {target}" "web" "site" "www-data" "/bin/bash"
    [] ["rm"] [].

(** A command definition whose shell chains a second command. *)
Definition chained_shell_config : ToolConfig.t :=
  ToolConfig.mk "drush" None (Some (JStr "Run drush")) (Some "command") None
    "drush {command}" "web" None (Some "/bin/bash; curl evil") None None None
    EmptyString None None None None None None None None None None.

Definition empty_registry : ToolRegistry :=
  mkToolRegistry "/tools"
    (BridgeConfig.mk "/tools" "default-project" "/workspace" "/var/www/html") ∅.

(** A server that lists one tool, ping, five milliseconds after any
    request. *)
Definition ping_server : Runtime :=
  scripted (fun _ _ => mkProcResult (Some "spawn ENOENT") EmptyString EmptyString)
           (fun _ _ => mkHttpReply 5
                         (RespJson (JObj [("tools", JArr [JObj [("name", JStr "ping")]])]))).

(** A proxy definition with discovery enabled and the prefix remote_. *)
Definition remote_config : ToolConfig.t :=
  ToolConfig.mk "remote" None (Some (JStr "Remote tools")) (Some "mcp_server") None
    EmptyString EmptyString None None None None None
    "http://mcp.test/rpc" None None None None None None None (Some true) (Some "remote_") None.

(** The request that a call of the tool ping carries for the arguments
    [arguments]. *)
Definition ping_call (url : string) (headers : list (string * string)) (arguments : JsObject)
  : HttpCall :=
  mkHttpCall url headers
    (JObj [("jsonrpc", JStr "2.0");
           ("method", JStr "tools/call");
           ("params", JObj [("name", JStr "ping"); ("arguments", JObj arguments)]);
           ("id", JNum 1%float)]).



(** * The sources around the dispatch core *)

(** ** executors/ssh.ts *)

(** The options of [ContainerExecutor.execute]. *)
Record SshExecOptions : Type := mkSshExecOptions {
  sx_host : string;
  sx_command : list string;
  sx_user : option string;
  sx_shell : option string;
  sx_workingDir : option string;
}.

(** The interface [ContainerExecutor] of types.ts: an object with an
    [execute] method; [class_name] is what [constructor.name] reads. *)
Record ContainerExecutor : Type := mkContainerExecutor {
  class_name : string;
  run : SshExecOptions -> M string;
}.

Record SshExecutor : Type := mkSshExecutor { defaultUser : option string }.

(** The constructor; [env_USER] is [process.env.USER]. *)
Definition new_SshExecutor (defaultUser env_USER : option string) : SshExecutor :=
  mkSshExecutor (match defaultUser with
                 | Some u => Some u
                 | None => env_USER
                 end).

Definition resolveSshUser (this : SshExecutor) (user : option string) : option string :=
  if given user then user else defaultUser this.

(** Wraps the entire command in single quotes and escapes any embedded
    single quotes. *)
Definition escapeShellCommand (cmd : string) : string :=
  let escaped :=
    Str.replaceChar cmd "039"%char
      (Str.squote +:+ Str.backslash +:+ Str.squote +:+ Str.squote) in
  Str.squote +:+ escaped +:+ Str.squote.

(** The command line that goes to the remote side. *)
Definition ssh_fullCmd (options : SshExecOptions) : string :=
  let shell := default "/bin/bash" (sx_shell options) in
  let escapedCmd := escapeShellCommand (Str.join (sx_command options) " ") in
  let remoteCmd :=
    if given (sx_workingDir options)
    then "cd " +:+ escapeShellCommand (default EmptyString (sx_workingDir options)) +:+
         " && " +:+ escapedCmd
    else escapedCmd in
  shell +:+ " -c " +:+ remoteCmd.

(** "user@hostname" or just "hostname" *)
Definition ssh_destination (this : SshExecutor) (options : SshExecOptions) : string :=
  let sshUser := resolveSshUser this (sx_user options) in
  if given sshUser then default EmptyString sshUser +:+ "@" +:+ sx_host options
  else sx_host options.

Definition ssh_args (this : SshExecutor) (options : SshExecOptions) : list string :=
  ["-o"; "StrictHostKeyChecking=no";
   "-o"; "UserKnownHostsFile=/dev/null";
   "-o"; "LogLevel=ERROR";
   ssh_destination this options;
   ssh_fullCmd options].

Section Ssh.
Context `{RT : Runtime}.

Definition SshExecutor_execute (this : SshExecutor) (options : SshExecOptions) : M string :=
  let sshArgs := ssh_args this options in
  log Debug ("SSH Exec: ssh " +:+ Str.join sshArgs " ") ;;
  r <- spawn (mkProcCall "ssh" sshArgs) ;;
  match proc_error r with
  | Some error_message =>
      throw (Error ("SSH command failed: ssh " +:+ ssh_destination this options +:+ " " +:+
                    ssh_fullCmd options +:+ Str.newline +:+
                    (if Str.nonempty (Str.trim (proc_stderr r)) then Str.trim (proc_stderr r)
                     else error_message)))
  | None => ret (proc_stdout r)
  end.

(** [SshExecutor] as a [ContainerExecutor]. *)
Definition SshExecutor_object (this : SshExecutor) : ContainerExecutor :=
  mkContainerExecutor "SshExecutor" (SshExecutor_execute this).

End Ssh.

(** ** executors/command.ts, the variant that runs commands over SSH *)

Module SshCommand.

Record CommandExecutorOptions : Type := mkOptions {
  opt_commandTemplate : string;
  opt_host : string;
  opt_executor : ContainerExecutor;
  opt_sshUser : option string;
  opt_shell : option string;
  opt_workingDir : option string;
  opt_defaultArgs : option (list (string * string));
  opt_disallowedCommands : option (list string);
  opt_validationRules : option (list ValidationRule);
}.

Record CommandToolExecutor : Type := mk {
  commandTemplate : string;
  host : string;
  executor : ContainerExecutor;
  sshUser : option string;
  shell : string;
  workingDir : option string;
  defaultArgs : list (string * string);
  disallowedCommands : list string;
  validationRules : list ValidationRule;
}.

(** The constructor: the defaults, and no static safety check. *)
Definition new (options : CommandExecutorOptions) : CommandToolExecutor :=
  mk (opt_commandTemplate options) (opt_host options) (opt_executor options)
     (opt_sshUser options)
     (default "/bin/bash" (opt_shell options))
     (opt_workingDir options)
     (default [] (opt_defaultArgs options))
     (Set_of (default [] (opt_disallowedCommands options)))
     (default [] (opt_validationRules options)).

Definition defaultArgs_object (this : CommandToolExecutor) : JsObject :=
  map (fun kv => (fst kv, JStr (snd kv))) (defaultArgs this).

Definition disallowed_command (this : CommandToolExecutor) (mergedArgs : JsObject)
  : option string :=
  match Obj.get mergedArgs "command" with
  | Some (JStr c) => if Set_has (disallowedCommands this) c then Some c else None
  | _ => None
  end.

Section Run.
Context `{RT : Runtime}.

Definition checkRules (this : CommandToolExecutor) (value : string) : Result (option string) :=
  checkRules_from (validationRules this) value.

(** The options [execute] hands to the injected executor. *)
Definition backend_options (this : CommandToolExecutor) (cmdStr : string) : SshExecOptions :=
  mkSshExecOptions (host this) [cmdStr] (sshUser this) (Some (shell this)) (workingDir this).

Definition execute (this : CommandToolExecutor) (args : JsObject) : M ToolExecutionResult :=
  (* Merge with defaults. *)
  let mergedArgs := Obj.spread (defaultArgs_object this) args in
  (* Check disallowed commands. *)
  match disallowed_command this mergedArgs with
  | Some c =>
      log Warn ("Blocked disallowed command: " +:+ c) ;;
      ret (mkResult (JStr ("Error: Command '" +:+ c +:+ "' is not allowed")) (Some true))
  | None =>
      (* Substitute arguments into template. *)
      match substitute O (commandTemplate this) mergedArgs with
      | Throw e => ret (mkResult (JStr ("Error: " +:+ err_message e)) (Some true))
      | Ret cmdStr =>
          (* Validate rendered command against rules. *)
          ruleError <- lift (checkRules this cmdStr) ;;
          if truthy_message ruleError
          then ret (mkResult (JStr ("Validation error: " +:+ default EmptyString ruleError))
                             (Some true))
          else
            (* Execute via injected executor (SSH or other). *)
            try_catch
              (log Info ("EXEC: " +:+ host this +:+ " via " +:+ class_name (executor this)) ;;
               output <- run (executor this) (backend_options this cmdStr) ;;
               ret (mkResult (JStr (Str.trim output)) None))
              (fun e => ret (mkResult (JStr ("Execution failed: " +:+ err_message e))
                                      (Some true)))
      end
  end.

Definition validateArguments (this : CommandToolExecutor) (args : JsObject) : Result unit :=
  match checkRules this (JSON_stringify (JObj args)) with
  | Throw e => Throw e
  | Ret ruleError =>
      if truthy_message ruleError then Throw (Error (default EmptyString ruleError))
      else
        let placeholders := Set_of (matchAll_placeholders O (commandTemplate this)) in
        let provided := Set_of (map fst (defaultArgs this) ++ Obj.keys args) in
        let missing := List.filter (fun p => negb (Set_has provided p)) placeholders in
        if (0 <? length missing)%nat
        then Throw (Error ("Missing required arguments: " +:+ Str.join missing ", "))
        else Ret tt
  end.

End Run.

End SshCommand.

(** ** env-resolve.ts *)

(** A match of [/\$\{(\w+)\}/] at the start of [s]: its captured group. *)
Definition match_env_placeholder (s : string) : option string :=
  match s with
  | String a s' => if Ascii.eqb a "$"%char then match_placeholder s' else None
  | EmptyString => None
  end.

(** [s.replace(pattern, callback)] for the two patterns of this file, whose
    matches read [opening], the captured group and a closing brace:
    [matcher] finds a match at the start of a string, and [callback] is
    handed the matched text and the group.  [skip] counts the characters
    of the last match still to be stepped over. *)
Fixpoint replace_placeholders
  (opening : string) (matcher : string -> option string)
  (callback : string -> string -> M string) (skip : nat) (s : string) : M string :=
  match s with
  | EmptyString => ret EmptyString
  | String a rest =>
      match skip with
      | S k => replace_placeholders opening matcher callback k rest
      | O =>
          match matcher s with
          | Some varName =>
              let matched := opening +:+ varName +:+ "}" in
              value <- callback matched varName ;;
              out <- replace_placeholders opening matcher callback
                       (String.length matched - 1) rest ;;
              ret (value +:+ out)
          | None =>
              out <- replace_placeholders opening matcher callback O rest ;;
              ret (String a out)
          end
      end
  end.

Section EnvResolve.
Context `{RT : Runtime}.

(** [vars[varName]] as [replace] makes a string of it: the own value of
    the variable, or else what the object inherits under that name.  A
    variable whose value is undefined stands in [vars] with the empty
    string: both are falsy. *)
Definition read_var (vars : gmap string string) (varName : string) : option string :=
  match vars !! varName with
  | Some value => Some value
  | None => inherited varName
  end.

(** The callback of both passes: the value of the variable, or the
    placeholder itself with a warning when the value is missing or empty. *)
Definition lookup_or_keep (kind : string) (vars : gmap string string)
  (matched varName : string) : M string :=
  if given (read_var vars varName) then ret (default EmptyString (read_var vars varName))
  else
    log Warn (kind +:+ " variable not found: " +:+ varName +:+ ", keeping placeholder") ;;
    ret matched.

Definition resolveEnvVars (template : string) (envVars bridgeVars : gmap string string)
  : M string :=
  (* Resolve ${VAR} syntax first (environment variables) *)
  result <- replace_placeholders "${" match_env_placeholder
              (lookup_or_keep "Environment" envVars) O template ;;
  (* Resolve {VAR} syntax (bridge-specific variables) *)
  replace_placeholders "{" match_placeholder (lookup_or_keep "Bridge" bridgeVars) O result.

(** The loop of [resolveEnvVarsInObject] over the entries of [obj]. *)
Fixpoint resolveEnvVars_entries (entries result : JsObject)
  (envVars bridgeVars : gmap string string) : M JsObject :=
  match entries with
  | [] => ret result
  | (key, value) :: rest =>
      match value with
      | JStr s =>
          resolved <- resolveEnvVars s envVars bridgeVars ;;
          resolveEnvVars_entries rest (Obj.assign result key (JStr resolved)) envVars bridgeVars
      | _ => resolveEnvVars_entries rest (Obj.assign result key value) envVars bridgeVars
      end
  end.

Definition resolveEnvVarsInObject (obj : JsObject) (envVars bridgeVars : gmap string string)
  : M JsObject :=
  resolveEnvVars_entries obj [] envVars bridgeVars.

End EnvResolve.

(** ** config.ts *)

(** The text [printUsage] writes to standard error. *)
Definition usage : string :=
  Str.join
    [EmptyString;
     "Usage: wdrmcp --tools-config <path> [options]";
     EmptyString;
     "Options:";
     "  --tools-config <path>   Path to directory containing YAML tool configuration files (required)";
     "  --log-level <level>     Log level: debug, info, warn, error (default: info)";
     "  --log-file <path>       Path to log file (default: /tmp/wdrmcp.log)";
     "  --help                  Show this help message";
     EmptyString;
     "Environment variables:";
     "  DDEV_PROJECT            DDEV project name (default: " +:+ Str.dquote +:+
       "default-project" +:+ Str.dquote +:+ ")";
     "  HOST_PROJECT_ROOT       Host filesystem project root (default: /workspace)";
     "  CONTAINER_PROJECT_ROOT  Container filesystem project root (default: /var/www/html)";
     EmptyString]
    Str.newline.

(** What a run of [parseArgs] ends in: the configuration it returns, or
    [process.exit(code)] after the lines written to standard error. *)
Inductive Parsed (A : Type) : Type :=
| Returned (a : A)
| Exited (code : Z) (printed : list string).
Arguments Returned {A} a.
Arguments Exited {A} code printed.

(** The three variables of the loop. *)
Record CliOptions : Type := mkCliOptions {
  cli_toolsConfigPath : option string;
  cli_logLevel : option string;
  cli_logFile : option string;
}.

(** The fields of [BridgeConfig] that [parseArgs] fills: those the registry
    reads, and the two of the logger. *)
Record CliConfig : Type := mkCliConfig {
  bridge : BridgeConfig.t;
  logLevel : option string;
  logFile : option string;
}.

(** The [for] loop over the arguments: [args[++i]] is the next argument,
    or undefined past the end. *)
Fixpoint parse_options (args : list string) (acc : CliOptions) : Parsed CliOptions :=
  match args with
  | [] => Returned acc
  | arg :: rest =>
      if String.eqb arg "--tools-config" then
        match rest with
        | value :: rest' =>
            parse_options rest' (mkCliOptions (Some value) (cli_logLevel acc) (cli_logFile acc))
        | [] => Returned (mkCliOptions None (cli_logLevel acc) (cli_logFile acc))
        end
      else if String.eqb arg "--log-level" then
        match rest with
        | value :: rest' =>
            parse_options rest'
              (mkCliOptions (cli_toolsConfigPath acc) (Some value) (cli_logFile acc))
        | [] => Returned (mkCliOptions (cli_toolsConfigPath acc) None (cli_logFile acc))
        end
      else if String.eqb arg "--log-file" then
        match rest with
        | value :: rest' =>
            parse_options rest'
              (mkCliOptions (cli_toolsConfigPath acc) (cli_logLevel acc) (Some value))
        | [] => Returned (mkCliOptions (cli_toolsConfigPath acc) (cli_logLevel acc) None)
        end
      else if String.eqb arg "--help" then Exited 0 [usage]
      else Exited 1 ["Unknown argument: " +:+ arg; usage]
  end.

(** [env] is [process.env]. *)
Definition parseArgs (argv : list string) (env : gmap string string) : Parsed CliConfig :=
  let args := skipn 2 argv in   (* Skip node and script path. *)
  match parse_options args (mkCliOptions None (Some "info") (Some "/tmp/wdrmcp.log")) with
  | Exited code printed => Exited code printed
  | Returned options =>
      if negb (given (cli_toolsConfigPath options))
      then Exited 1 ["Error: --tools-config is required"; usage]
      else
        Returned
          (mkCliConfig
             (BridgeConfig.mk
                (default EmptyString (cli_toolsConfigPath options))
                (default "default-project" (env !! "DDEV_PROJECT"))
                (default "/workspace" (env !! "HOST_PROJECT_ROOT"))
                (default "/var/www/html" (env !! "CONTAINER_PROJECT_ROOT")))
             (cli_logLevel options)
             (cli_logFile options))
  end.

(** ** logger.ts *)

Definition LOG_LEVELS (level : string) : option N :=
  if String.eqb level "debug" then Some 0%N
  else if String.eqb level "info" then Some 1%N
  else if String.eqb level "warn" then Some 2%N
  else if String.eqb level "error" then Some 3%N
  else None.

(** [level] is [None] when the table holds no number for the name the
    logger was made with: every comparison with it is false. *)
Record Logger : Type := mkLogger {
  logger_level : option N;
  logger_logFile : option string;
}.

(** What the logger does to the outside: a line on standard error, or a
    write to a file, which may fail without consequence. *)
Inductive LogEffect : Type :=
| Stderr (line : string)
| WriteFile (path text : string)
| AppendFile (path text : string).

(** The constructor, with the effects it has: the log file is truncated. *)
Definition new_Logger (level : option string) (logFile : option string)
  : Logger * list LogEffect :=
  (mkLogger (LOG_LEVELS (default "info" level)) logFile,
   if given logFile then [WriteFile (default EmptyString logFile) EmptyString] else []).

Definition level_name (level : LogLevel) : string :=
  match level with
  | Debug => "debug"
  | Info => "info"
  | Warn => "warn"
  | Err => "error"
  end.

Definition level_label (level : LogLevel) : string :=
  match level with
  | Debug => "DEBUG"
  | Info => "INFO"
  | Warn => "WARN"
  | Err => "ERROR"
  end.

Section LoggerMethods.
Context `{RT : Runtime}.

Definition formatArgs (args : list Json) : string :=
  match args with
  | [] => EmptyString
  | _ =>
      " " +:+ Str.join (map (fun arg => match arg with
                                        | JStr s => s
                                        | _ => JSON_stringify arg
                                        end) args) " "
  end.

(** [a < b] for a number and a value that may be undefined. *)
Definition less_than (a : option N) (b : option N) : bool :=
  match a, b with
  | Some x, Some y => (x <? y)%N
  | _, _ => false
  end.

(** [Logger.log]; [timestamp] is [new Date().toISOString()]. *)
Definition Logger_log (this : Logger) (timestamp : string)
  (level : LogLevel) (message : string) (args : list Json) : list LogEffect :=
  if less_than (LOG_LEVELS (level_name level)) (logger_level this) then []
  else
    let argsText := formatArgs args in
    let fileFormatted :=
      timestamp +:+ " - wdrmcp - " +:+ level_label level +:+ " - " +:+ message +:+ argsText in
    let stderrFormatted :=
      "[wdrmcp] " +:+ level_name level +:+ ": " +:+ message +:+ argsText in
    (match level with
     | Warn | Err => [Stderr stderrFormatted]
     | _ => []
     end) ++
    (if given (logger_logFile this)
     then [AppendFile (default EmptyString (logger_logFile this))
                      (fileFormatted +:+ Str.newline)]
     else []).

End LoggerMethods.

(** ** registry.ts: the configuration files *)

(** What reading and parsing one file of the directory gives. *)
Inductive ConfigFile : Type :=
| Broken (yaml_exception : bool) (e : JsError)
    (* readFileSync or yaml.load threw, or [tools] cannot be iterated *)
| EmptyFile                             (* yaml.load returned a falsy value *)
| NoTools                               (* no [tools], or a falsy one *)
| Tools (entries : list (option ToolConfig.t)).   (* [None] is a null entry *)

Section LoadTools.
Context `{RT : Runtime}.

(** The loop over the tools of one file, inside the [try] of the file:
    the registry and the count so far come back with how the loop ended. *)
Fixpoint load_entries (entries : list (option ToolConfig.t)) (this : ToolRegistry)
  (loadedCount : nat) : M (ToolRegistry * nat * Result unit) :=
  match entries with
  | [] => ret (this, loadedCount, Ret tt)
  | None :: _ =>
      ret (this, loadedCount,
           Throw (TypeError "Cannot read properties of null (reading 'name')"))
  | Some toolConfig :: rest =>
      loaded <- loadSingleTool this toolConfig ;;
      load_entries rest (snd loaded) (loadedCount + fst loaded)
  end.

(** The loop over the files, in the order of their sorted names. *)
Fixpoint load_files (files : list (string * ConfigFile)) (this : ToolRegistry)
  (loadedCount : nat) : M (nat * ToolRegistry) :=
  match files with
  | [] => ret (loadedCount, this)
  | (file, parsed) :: rest =>
      match parsed with
      | Broken yaml_exception e =>
          log Err ("Error loading " +:+ file +:+ ": " +:+
                   (if yaml_exception : bool then err_message e else Error_toString e)) ;;
          load_files rest this loadedCount
      | EmptyFile =>
          log Warn ("Empty config file: " +:+ file) ;;
          load_files rest this loadedCount
      | NoTools =>
          log Err ("Missing 'tools' array: " +:+ file) ;;
          load_files rest this loadedCount
      | Tools entries =>
          looped <- load_entries entries this loadedCount ;;
          match snd looped with
          | Ret _ => load_files rest (fst (fst looped)) (snd (fst looped))
          | Throw e =>
              log Err ("Error loading " +:+ file +:+ ": " +:+ Error_toString e) ;;
              load_files rest (fst (fst looped)) (snd (fst looped))
          end
      end
  end.

(** Load all tools from YAML config files. Returns tool count.
    [directory_exists] is [existsSync(this.toolsConfigDir)], and [files]
    are the files [*.yml] of the directory by sorted name, each with what
    reading and parsing it gives. *)
Definition loadTools (this : ToolRegistry) (directory_exists : bool)
  (files : list (string * ConfigFile)) : M (nat * ToolRegistry) :=
  if negb directory_exists then
    log Err ("Tools config directory not found: " +:+ toolsConfigDir this) ;;
    ret (O, this)
  else
    loaded <- load_files files this O ;;
    log Info ("Loaded " +:+ pretty (fst loaded) +:+ " tools") ;;
    ret loaded.

End LoadTools.

(** ** The shell that reads the quoted commands *)

(** How a POSIX shell reads one word that is made of single-quoted parts
    and backslash-escaped characters: the text of the word, or nothing for
    a word that holds anything else or leaves a quote open.  Between
    single quotes every character stands for itself; outside, a backslash
    makes the next character stand for itself, and is dropped together
    with a newline that follows it.  [inside] tells whether a quote is
    open. *)
Fixpoint sh_read (inside : bool) (s : string) : option string :=
  match s with
  | EmptyString => if inside then None else Some EmptyString
  | String a rest =>
      if inside then
        if Ascii.eqb a "039"%char then sh_read false rest
        else option_map (String a) (sh_read true rest)
      else
        if Ascii.eqb a "039"%char then sh_read true rest
        else if Ascii.eqb a "092"%char then
          match rest with
          | String b rest' =>
              if Ascii.eqb b "010"%char then sh_read false rest'
              else option_map (String b) (sh_read false rest')
          | EmptyString => None
          end
        else None
  end.

(** ** Names for what the further properties speak of *)

(** The [payload] of [callTool]. *)
Definition call_payload (this : McpProxyExecutor) (args : JsObject) (toolName : option Json)
  : JsObject :=
  if truthy (default JNull toolName)
  then [("method", JStr "tools/call");
        ("params", JObj [("name", default JNull toolName); ("arguments", JObj args)])]
  else
    match Obj.get args "method" with
    | Some (JStr m) =>
        [("method", JStr m);
         ("params", if nullish (Obj.get args "params") then JObj []
                    else default JNull (Obj.get args "params"))]
    | _ => if forwardArgs this then args else []
    end.

(** The request [callTool] sends. *)
Definition call_request (this : McpProxyExecutor) (args : JsObject) (toolName : option Json)
  : HttpCall :=
  rpc_request this (Obj.get (call_payload this args toolName) "method")
                   (Obj.get (call_payload this args toolName) "params").

(** The reply to [call] in the world [w] comes before the abort timer of
    [this] fires. *)
Definition answered `{RT : Runtime} (this : McpProxyExecutor) (w : World) (call : HttpCall)
  : bool :=
  (reply_after (fetch (sent w) call) <? timeout this)%N.

(** The envelope [callTool] makes of a caught error. *)
Definition caught (this : McpProxyExecutor) (e : JsError) : ToolExecutionResult :=
  if String.eqb (err_name e) "AbortError"
  then mkResult (JStr ("Request timeout after " +:+ pretty (timeout this / 1000)%N +:+ "s"))
                (Some true)
  else mkResult (JStr ("Error: " +:+ err_message e)) (Some true).

(** The request [fetchRemoteTools] sends. *)
Definition tools_list_request (this : McpProxyExecutor) : HttpCall :=
  rpc_request this (Some (JStr "tools/list")) (Some (JObj [])).

(** How long [rpc] takes for [call] in the world [w]: until the reply and
    its body are there, or until the abort timer of [this] fires. *)
Definition elapsed `{RT : Runtime} (this : McpProxyExecutor) (w : World) (call : HttpCall) : N :=
  if answered this w call
  then reply_after (fetch (sent w) call) + reading (fetch (sent w) call)
  else timeout this.

(** The list [fetchRemoteTools] makes of a reply. *)
Definition listed (result : Json) : list Json :=
  match result with
  | JArr tools => tools
  | JObj r =>
      match (if negb (nullish (Obj.get r "tools")) then Obj.get r "tools"
             else
               if negb (nullish (if nullish (Obj.get r "result") then None
                                 else prop (default JNull (Obj.get r "result")) "tools"))
               then (if nullish (Obj.get r "result") then None
                     else prop (default JNull (Obj.get r "result")) "tools")
               else Some (JArr [])) with
      | Some (JArr l) => l
      | _ => []
      end
  | _ => []
  end.

(** Nothing of the registry [this] is lost in [this']: the directory and
    the configuration are the same, and every name registered in [this] is
    registered in [this']. *)
Definition extends (this this' : ToolRegistry) : Prop :=
  toolsConfigDir this' = toolsConfigDir this
  /\ registry_config this' = registry_config this
  /\ forall k, is_Some (tools this !! k) -> is_Some (tools this' !! k).

(** Between [w] and [w'] no process was started and no cache was written. *)
Definition quiet (w w' : World) : Prop :=
  spawned w' = spawned w
  /\ validatedContainers w' = validatedContainers w
  /\ uidCache w' = uidCache w.

(** [w'] differs from [w] in the log at most. *)
Definition only_logged (w w' : World) : Prop :=
  validatedContainers w' = validatedContainers w
  /\ uidCache w' = uidCache w
  /\ spawned w' = spawned w
  /\ sent w' = sent w
  /\ clock w' = clock w.

(** The computation [m] does not read the log: in two worlds that differ
    in the log at most it produces the same result, and again two worlds
    that differ in the log at most. *)
Definition log_blind {A} (m : M A) : Prop :=
  forall w1 w2,
    only_logged w1 w2 ->
    fst (m w1) = fst (m w2) /\ only_logged (snd (m w1)) (snd (m w2)).

(** The entry [t] under the key [k] is what [loadRemoteMcpTools] registers
    for a remote tool that the server of [proxy] listed among
    [remoteTools]. *)
Definition discovered `{RT : Runtime}
  (proxyConfig : ToolConfig.t) (proxy : McpProxyExecutor) (prefix : string)
  (remoteTools : list Json) (k : string) (t : RegisteredTool) : Prop :=
  exists remote remoteName,
    In remote remoteTools
    /\ prop remote "name" = Some remoteName
    /\ truthy remoteName = true
    /\ String_throws remoteName = false
    /\ k = prefix +:+ String_of remoteName
    /\ executor t = BoundRemoteTool proxy remoteName
    /\ config t = wrapped_config proxyConfig k remote.

(** What [fetchRemoteTools] returns for [proxy] in the world [w]. *)
Definition fetched `{RT : Runtime} (proxy : McpProxyExecutor) (w : World) : list Json :=
  match fst (fetchRemoteTools proxy w) with
  | Ret remoteTools => remoteTools
  | Throw _ => []
  end.

(** A value of which path normalization leaves a value that has a string:
    no object with a property toString or __proto__ of its own, and no
    array that holds one. *)
Fixpoint printable (v : Json) : bool :=
  match v with
  | JObj o => negb (Obj.has o "toString") && negb (Obj.has o "__proto__")
  | JArr l => forallb printable l
  | _ => true
  end.

(** A remote tool definition with a name that is a string and not empty. *)
Definition named (remote : Json) (s : string) : Prop :=
  prop remote "name" = Some (JStr s) /\ s <> EmptyString.

(** The key [prefix ++ s] holds a tool bound to the remote name [s] on
    [proxy]. *)
Definition bound_under (proxy : McpProxyExecutor) (prefix : string) (this : ToolRegistry)
  (s : string) : Prop :=
  exists t, tools this !! (prefix +:+ s) = Some t
            /\ executor t = BoundRemoteTool proxy (JStr s)
            /\ ToolConfig.name (config t) = prefix +:+ s.

(** The executor [this] without its validation rules. *)
Definition without_rules (this : CommandToolExecutor) : CommandToolExecutor :=
  mkCommandToolExecutor (commandTemplate this) (container this) (ddevProject this) (user this)
    (shell this) (defaultArgs this) (disallowedCommands this) [].

(** Every pattern of [this] is a regular expression. *)
Definition patterns_compile `{RT : Runtime} (this : CommandToolExecutor) : Prop :=
  forall rule value, In rule (validationRules this) ->
                     exists b, RegExp_test (pattern rule) value = Ret b.

(** The process [execute] starts for the rendered command [cmdStr]. *)
Definition exec_call (this : CommandToolExecutor) (cmdStr : string) : ProcCall :=
  docker_call ["exec"; "-u"; user this; container this; shell this; "-c"; cmdStr].

(** The envelope [execute] makes of the outcome [r] of that process. *)
Definition exec_envelope (this : CommandToolExecutor) (cmdStr : string) (r : ProcResult)
  : ToolExecutionResult :=
  match proc_error r with
  | None => mkResult (JStr (Str.trim (proc_stdout r))) None
  | Some _ =>
      mkResult
        (JStr ("Execution failed: " +:+
               failure_message "docker"
                 ["exec"; "-u"; user this; container this; shell this; "-c"; cmdStr] r))
        (Some true)
  end.

(** A string of word characters, and not empty. *)
Definition is_name (s : string) : Prop :=
  s <> EmptyString /\ Forall (fun a => is_word a = true) (list_ascii_of_string s).

(** The entry [kv'] is what [resolveEnvVarsInObject] makes of the entry
    [kv]: the same key; the same value unless it is a string, and a string
    for a string. *)
Definition resolved_entry (kv kv' : string * Json) : Prop :=
  fst kv' = fst kv
  /\ (forall s, snd kv = JStr s -> exists s', snd kv' = JStr s')
  /\ ((forall s, snd kv <> JStr s) -> snd kv' = snd kv).

(** The arguments that a list of options with their values spells out. *)
Definition spelled (pairs : list (string * string)) : list string :=
  concat (map (fun fv => [fst fv; snd fv]) pairs).

(** The value that comes last for [flag] among [pairs], if any. *)
Fixpoint last_value (pairs : list (string * string)) (flag : string) : option string :=
  match pairs with
  | [] => None
  | (f, v) :: rest =>
      match last_value rest flag with
      | Some v' => Some v'
      | None => if String.eqb f flag then Some v else None
      end
  end.

(** One of the three options that take a value. *)
Definition known_flag (f : string) : Prop :=
  f = "--tools-config" \/ f = "--log-level" \/ f = "--log-file".

(** A file that gives no tool: it could not be read or parsed, is empty,
    or has no tools. *)
Definition gives_no_tool (parsed : ConfigFile) : Prop :=
  match parsed with
  | Tools _ => False
  | _ => True
  end.

(** ** Further examples *)

(** A server that lists one tool, status, and then a null entry. *)
Definition null_entry_server : Runtime :=
  scripted (fun _ _ => mkProcResult (Some "spawn ENOENT") EmptyString EmptyString)
           (fun _ _ => mkHttpReply 5 (RespJson (JArr [JObj [("name", JStr "status")]; JNull]))).

(** A tool whose first rule matches rm and has an empty message. *)
Definition silent_rule_tool : CommandToolExecutor :=
  mkCommandToolExecutor "sh {script}" "web" "site" "www-data" "/bin/bash" [] []
    [mkRule "rm" (Some EmptyString); mkRule "rm -rf" (Some "never remove recursively")].

(** The container web declares the project other. *)
Definition other_site : Runtime :=
  scripted (fun _ _ => mkProcResult None ("other" +:+ Str.newline) EmptyString)
           (fun _ _ => mkHttpReply 3600000 (RespFail (mkError "TypeError" "fetch failed"))).

(** A backend that records nothing and fails. *)
Definition failing_backend : ContainerExecutor :=
  mkContainerExecutor "Failing" (fun _ => throw (Error "no route to host")).

(** The SSH variant of the guarded tool. *)
Definition ssh_guarded_tool : SshCommand.CommandToolExecutor :=
  SshCommand.mk "{command} {target}" "web" failing_backend None "/bin/bash" None
    [] ["rm"] [].

(** The SSH variant of a listing tool, over [SshExecutor] as the user
    deploy. *)
Definition ssh_ls_tool `{RT : Runtime} : SshCommand.CommandToolExecutor :=
  SshCommand.mk "ls {path}" "web" (SshExecutor_object (mkSshExecutor (Some "deploy")))
    None "/bin/bash" None [] [] [].

(** * Properties *)

(** ** Strings *)

Module StrFacts.
Import Str.

Lemma append_cons a s t : String a s +:+ t = String a (s +:+ t).
Proof. reflexivity. Qed.

Lemma append_nil_l t : EmptyString +:+ t = t.
Proof. reflexivity. Qed.

Lemma append_nil_r s : s +:+ EmptyString = s.
Proof.
  induction s as [|a s IH]; [reflexivity | now rewrite append_cons, IH].
Qed.

Lemma append_assoc a b c : (a +:+ b) +:+ c = a +:+ (b +:+ c).
Proof.
  induction a as [|x a IH]; [reflexivity | now rewrite !append_cons, IH].
Qed.

Lemma append_length a b : String.length (a +:+ b) = (String.length a + String.length b)%nat.
Proof.
  induction a as [|x a IH]; [reflexivity | rewrite append_cons; simpl; now rewrite IH].
Qed.

Lemma append_inj_l p x y : p +:+ x = p +:+ y -> x = y.
Proof.
  induction p as [|a p IH]; intros H; [assumption |].
  rewrite !append_cons in H. injection H; auto.
Qed.

Lemma append_eq_self_r s t : s +:+ t = s -> t = EmptyString.
Proof.
  intros H. apply (append_inj_l s). now rewrite append_nil_r.
Qed.

Lemma append_slash_inj a b : a +:+ "/" = b +:+ "/" -> a = b.
Proof.
  revert b. induction a as [|x a IH]; intros [|y b]; intros H.
  - reflexivity.
  - rewrite append_cons, append_nil_l in H. injection H as _ H. destruct b; discriminate.
  - rewrite append_cons, append_nil_l in H. injection H as _ H. destruct a; discriminate.
  - rewrite !append_cons in H. injection H as -> H. f_equal. now apply IH.
Qed.

Lemma startsWith_spec s p : startsWith s p = true <-> exists r, s = p +:+ r.
Proof.
  revert s. induction p as [|a p IH]; intros s; simpl.
  - split; [intros _; now exists s | reflexivity].
  - destruct s as [|b s].
    + split; [discriminate | intros [r Hr]; discriminate].
    + destruct (Ascii.eqb_spec a b) as [->|Hne].
      * rewrite IH. split; intros [r Hr]; exists r.
        -- now rewrite append_cons, Hr.
        -- rewrite append_cons in Hr. now injection Hr.
      * split; [discriminate |].
        intros [r Hr]. rewrite append_cons in Hr. injection Hr; intros; congruence.
Qed.

Lemma startsWith_append p r : startsWith (p +:+ r) p = true.
Proof. apply startsWith_spec. now exists r. Qed.

Lemma startsWith_refl s : startsWith s s = true.
Proof. apply startsWith_spec. exists EmptyString. now rewrite append_nil_r. Qed.

Lemma slice_append p r : slice (p +:+ r) (String.length p) = r.
Proof.
  induction p as [|a p IH]; [reflexivity | rewrite append_cons; simpl; assumption].
Qed.

(** Two prefixes of one string: one is a prefix of the other. *)
Lemma startsWith_comparable s p q :
  startsWith s p = true -> startsWith s q = true ->
  startsWith p q = true \/ startsWith q p = true.
Proof.
  revert s q. induction p as [|a p IH]; intros s q Hp Hq.
  - right. reflexivity.
  - destruct q as [|b q]; [left; reflexivity |].
    destruct s as [|c s]; [discriminate |]. simpl in *.
    destruct (Ascii.eqb_spec a c) as [->|]; [| discriminate].
    destruct (Ascii.eqb_spec b c) as [->|]; [| discriminate].
    rewrite Ascii.eqb_refl. eapply IH; eassumption.
Qed.

Lemma nonempty_true s : nonempty s = true <-> s <> EmptyString.
Proof.
  unfold nonempty. destruct (String.eqb_spec s EmptyString); simpl; split; congruence.
Qed.

Lemma nonempty_false s : nonempty s = false <-> s = EmptyString.
Proof.
  unfold nonempty. destruct (String.eqb_spec s EmptyString); simpl; split; congruence.
Qed.

End StrFacts.

(** ** Path normalization *)

Section Normalize.
Import Str StrFacts.
Variables hostRoot containerRoot : string.

Lemma normalizePaths_is_normalize value :
  normalize hostRoot containerRoot (JObj value) =
  JObj (normalizePaths value hostRoot containerRoot).
Proof. reflexivity. Qed.

(** Assigning the entries of an object commutes with a change of their
    values. *)
Lemma assigned_map (g : Json -> Json) (o : JsObject) :
  Obj.assigned (map (fun kv => (fst kv, g (snd kv))) o) =
  map (fun kv => (fst kv, g (snd kv))) (Obj.assigned o).
Proof.
  unfold Obj.assigned. induction o as [|[k v] o IH]; [reflexivity |].
  cbn [map List.filter fst snd]. rewrite IH.
  destruct (negb (String.eqb k "__proto__")); reflexivity.
Qed.

Lemma assigned_twice (o : JsObject) : Obj.assigned (Obj.assigned o) = Obj.assigned o.
Proof.
  unfold Obj.assigned. induction o as [|[k v] o IH]; [reflexivity |].
  cbn [List.filter fst]. destruct (negb (String.eqb k "__proto__")) eqn:Hk; [| exact IH].
  cbn [List.filter fst]. now rewrite Hk, IH.
Qed.

Lemma normalizePaths_single k v :
  k <> "__proto__" ->
  normalizePaths [(k, v)] hostRoot containerRoot = [(k, normalize hostRoot containerRoot v)].
Proof.
  intros Hk. unfold normalizePaths, Obj.assigned. cbn [map List.filter fst snd].
  apply String.eqb_neq in Hk. now rewrite Hk.
Qed.

Lemma normalize_string_hit r :
  normalize hostRoot containerRoot (JStr (hostRoot +:+ "/" +:+ r)) =
  JStr (containerRoot +:+ "/" +:+ r).
Proof.
  simpl. rewrite <- append_assoc, startsWith_append.
  now rewrite append_assoc, slice_append.
Qed.

Lemma normalize_string_miss s :
  startsWith s (hostRoot +:+ "/") = false ->
  normalize hostRoot containerRoot (JStr s) = JStr s.
Proof. simpl. now intros ->. Qed.

Lemma normalize_string_twice s :
  roots_overlap hostRoot containerRoot = false ->
  normalize hostRoot containerRoot (normalize hostRoot containerRoot (JStr s)) =
  normalize hostRoot containerRoot (JStr s).
Proof.
  intros Hno.
  destruct (startsWith s (hostRoot +:+ "/")) eqn:Hs.
  - apply startsWith_spec in Hs as [r ->]. rewrite append_assoc.
    rewrite normalize_string_hit.
    unfold roots_overlap in Hno.
    destruct (String.eqb_spec hostRoot containerRoot) as [Heq|Hne].
    + rewrite <- Heq at 2. apply normalize_string_hit.
    + simpl in Hno. apply orb_false_iff in Hno as [H1 H2].
      apply normalize_string_miss.
      destruct (startsWith (containerRoot +:+ "/" +:+ r) (hostRoot +:+ "/")) eqn:Hc;
        [| reflexivity].
      exfalso.
      assert (Hp : startsWith (containerRoot +:+ "/" +:+ r) (containerRoot +:+ "/") = true).
      { rewrite <- append_assoc. apply startsWith_append. }
      destruct (startsWith_comparable _ _ _ Hp Hc); congruence.
  - rewrite (normalize_string_miss _ Hs). now apply normalize_string_miss.
Qed.

Lemma normalize_twice v :
  roots_overlap hostRoot containerRoot = false ->
  normalize hostRoot containerRoot (normalize hostRoot containerRoot v) =
  normalize hostRoot containerRoot v.
Proof.
  intros Hno. induction v as [| | |s|l IH|o IH] using Json_nested_ind;
    try reflexivity.
  - now apply normalize_string_twice.
  - simpl. f_equal. rewrite map_map. apply map_ext_Forall. exact IH.
  - cbn [normalize]. f_equal.
    rewrite (assigned_map (normalize hostRoot containerRoot)), assigned_twice.
    rewrite <- (assigned_map (normalize hostRoot containerRoot)). f_equal.
    rewrite map_map. apply map_ext_Forall.
    eapply Forall_impl; [exact IH |]. intros [k x] Hx. simpl in *. now rewrite Hx.
Qed.

Lemma normalize_host_slash :
  normalize hostRoot containerRoot (JStr (hostRoot +:+ "/")) = JStr (containerRoot +:+ "/").
Proof.
  pose proof (normalize_string_hit EmptyString) as H.
  now rewrite !append_nil_r in H.
Qed.

Lemma overlap_not_idempotent :
  roots_overlap hostRoot containerRoot = true ->
  normalize hostRoot containerRoot (normalize hostRoot containerRoot (JStr (twice_rewritten hostRoot containerRoot)))
  <> normalize hostRoot containerRoot (JStr (twice_rewritten hostRoot containerRoot)).
Proof.
  unfold roots_overlap, twice_rewritten. intros H.
  apply andb_true_iff in H as [Hne H].
  destruct (String.eqb_spec hostRoot containerRoot) as [|Hne']; [discriminate |].
  destruct (startsWith (containerRoot +:+ "/") (hostRoot +:+ "/")) eqn:Hc.
  - apply startsWith_spec in Hc as [t Ht]. rewrite append_assoc in Ht.
    rewrite normalize_host_slash.
    assert (E : normalize hostRoot containerRoot (JStr (containerRoot +:+ "/")) =
                JStr (containerRoot +:+ "/" +:+ t)).
    { rewrite Ht at 1. apply normalize_string_hit. }
    rewrite E. intros Heq. injection Heq as Heq.
    apply append_inj_l in Heq.
    assert (t = EmptyString) as -> by (destruct t; [reflexivity | discriminate]).
    rewrite append_nil_r in Ht. apply append_slash_inj in Ht. congruence.
  - simpl in H. apply startsWith_spec in H as [t Ht].
    assert (Hs : slice (hostRoot +:+ "/") (String.length (containerRoot +:+ "/")) = t).
    { rewrite Ht at 1. apply slice_append. }
    rewrite Hs, normalize_string_hit.
    assert (E : containerRoot +:+ "/" +:+ t = hostRoot +:+ "/").
    { now rewrite Ht, append_assoc. }
    rewrite E, normalize_host_slash.
    intros Heq. injection Heq as Heq.
    rewrite <- E in Heq. apply append_inj_l in Heq.
    assert (t = EmptyString) as -> by (destruct t; [reflexivity | discriminate]).
    rewrite append_nil_r in Ht. apply append_slash_inj in Ht. congruence.
Qed.

End Normalize.

(** C5, as stated, fails when one root lies under the other: with hostRoot
    /workspace and containerRoot /workspace/html a second pass rewrites the
    already rewritten path once more. *)
Lemma normalizePaths_not_idempotent_nested_roots :
  normalizePaths [("path", JStr "/workspace/a")] "/workspace" "/workspace/html"
    = [("path", JStr "/workspace/html/a")]
  /\ normalizePaths
       (normalizePaths [("path", JStr "/workspace/a")] "/workspace" "/workspace/html")
       "/workspace" "/workspace/html"
    = [("path", JStr "/workspace/html/html/a")].
Proof. split; reflexivity. Qed.

(** C5, amended: normalizePaths is idempotent on every argument structure
    exactly when the roots do not overlap (they are equal, or neither of
    hostRoot/ and containerRoot/ begins with the other), which holds for
    the default roots; a string that does not start with hostRoot followed
    by a slash is left unchanged, in particular one that starts with
    hostRoot alone as /workspace-other/x does; and the path
    /workspace/app/file.php maps to /var/www/html/app/file.php. *)
Theorem normalizePaths_idempotent_iff_roots_disjoint (hostRoot containerRoot : string) :
  ((forall value : JsObject,
       normalizePaths (normalizePaths value hostRoot containerRoot) hostRoot containerRoot
       = normalizePaths value hostRoot containerRoot)
   <-> roots_overlap hostRoot containerRoot = false)
  /\ roots_overlap "/workspace" "/var/www/html" = false
  /\ (forall s : string,
         Str.startsWith s (hostRoot +:+ "/") = false ->
         normalize hostRoot containerRoot (JStr s) = JStr s)
  /\ normalizePaths [("path", JStr "/workspace-other/x")] "/workspace" "/var/www/html"
     = [("path", JStr "/workspace-other/x")]
  /\ normalizePaths [("path", JStr "/workspace/app/file.php")] "/workspace" "/var/www/html"
     = [("path", JStr "/var/www/html/app/file.php")].
Proof.
  split; [split | repeat split].
  - intros Hidem. destruct (roots_overlap hostRoot containerRoot) eqn:Hov; [| reflexivity].
    exfalso. apply (overlap_not_idempotent hostRoot containerRoot Hov).
    specialize (Hidem [("path", JStr (twice_rewritten hostRoot containerRoot))]).
    rewrite !normalizePaths_single in Hidem by discriminate.
    now injection Hidem.
  - intros Hno value.
    assert (H := normalize_twice hostRoot containerRoot (JObj value) Hno).
    rewrite !normalizePaths_is_normalize in H. now injection H.
  - apply normalize_string_miss.
Qed.

(** ** Sets of strings *)

Lemma Set_has_In s x : Set_has s x = true <-> In x s.
Proof.
  unfold Set_has. rewrite existsb_exists. split.
  - intros [y [Hy Heq]]. apply String.eqb_eq in Heq. now subst.
  - intros H. exists x. split; [assumption | apply String.eqb_refl].
Qed.

Lemma Set_has_not_In s x : Set_has s x = false <-> ~ In x s.
Proof.
  rewrite <- Set_has_In. destruct (Set_has s x); split; congruence.
Qed.

Lemma Set_add_In s x y : In y (Set_add s x) <-> In y s \/ y = x.
Proof.
  unfold Set_add. destruct (Set_has s x) eqn:H.
  - apply Set_has_In in H. split; [auto | intros [?| ->]; assumption].
  - rewrite in_app_iff. simpl. intuition congruence.
Qed.



Lemma Set_fold_In l acc y : In y (fold_left Set_add l acc) <-> In y acc \/ In y l.
Proof.
  revert acc. induction l as [|x l IH]; intros acc; simpl.
  - tauto.
  - rewrite IH, Set_add_In. intuition congruence.
Qed.


Lemma Set_of_In l y : In y (Set_of l) <-> In y l.
Proof. unfold Set_of. rewrite Set_fold_In. simpl. tauto. Qed.


(** ** Rule checking *)

Section Rules.
Context `{RT : Runtime}.

Lemma checkRules_from_skip rule rest value :
  passes value rule -> checkRules_from (rule :: rest) value = checkRules_from rest value.
Proof.
  intros [Hp|Hp]; simpl.
  - apply StrFacts.nonempty_false in Hp. now rewrite Hp.
  - rewrite Hp. now destruct (Str.nonempty (pattern rule)).
Qed.

Lemma checkRules_from_hit rule rest value :
  pattern rule <> EmptyString -> RegExp_test (pattern rule) value = Ret true ->
  checkRules_from (rule :: rest) value =
  Ret (Some (default ("Validation failed for pattern: " +:+ pattern rule) (message rule))).
Proof.
  intros Hp Ht. simpl. apply StrFacts.nonempty_true in Hp. now rewrite Hp, Ht.
Qed.

Lemma checkRules_from_none rules value :
  checkRules_from rules value = Ret None <-> Forall (passes value) rules.
Proof.
  induction rules as [|rule rest IH].
  - split; [constructor | reflexivity].
  - split.
    + intros H. simpl in H.
      destruct (Str.nonempty (pattern rule)) eqn:Hp.
      * destruct (RegExp_test (pattern rule) value) as [[|]|] eqn:Ht; try discriminate.
        constructor; [now right | now apply IH].
      * constructor; [left; now apply StrFacts.nonempty_false | now apply IH].
    + intros H. inversion H as [|? ? Hr Hrest]; subst.
      rewrite checkRules_from_skip by assumption. now apply IH.
Qed.

Lemma checkRules_from_first_match before rule after value :
  Forall (passes value) before ->
  pattern rule <> EmptyString -> RegExp_test (pattern rule) value = Ret true ->
  checkRules_from (before ++ rule :: after)%list value =
  Ret (Some (default ("Validation failed for pattern: " +:+ pattern rule) (message rule))).
Proof.
  intros Hb Hp Ht. induction Hb as [|r before Hr Hb IH]; simpl app.
  - now apply checkRules_from_hit.
  - now rewrite checkRules_from_skip.
Qed.

End Rules.

(** C9, as stated, fails for a first rule whose pattern is the empty
    string: as a regular expression it matches every value, but the loop
    skips a rule whose pattern is falsy, so the second message comes back. *)
Lemma checkRules_skips_empty_pattern :
  @RegExp_test offline EmptyString "a" = Ret true
  /\ @RegExp_test offline "a" "a" = Ret true
  /\ @checkRules_from offline [mkRule EmptyString (Some "msg1"); mkRule "a" (Some "msg2")] "a"
     = Ret (Some "msg2").
Proof. repeat split. Qed.

(** C9, amended: for every ordered rule list that starts with (A, msg1),
    (B, msg2) where A is not the empty pattern, and every value that A
    matches, checkRules returns msg1; the rules after the first matching
    one are not evaluated: the result is the same whatever follows, even a
    pattern that is no regular expression.  In general the first rule with
    a non-empty matching pattern decides, after rules that were passed
    over. *)
Theorem checkRules_first_match_wins `{RT : Runtime}
  (this : CommandToolExecutor) (value : string) :
  (forall A B msg1 msg2 later,
      validationRules this = mkRule A (Some msg1) :: mkRule B (Some msg2) :: later ->
      A <> EmptyString -> RegExp_test A value = Ret true ->
      checkRules this value = Ret (Some msg1))
  /\ (forall before rule after,
         validationRules this = (before ++ rule :: after)%list ->
         Forall (passes value) before ->
         pattern rule <> EmptyString -> RegExp_test (pattern rule) value = Ret true ->
         checkRules this value =
         Ret (Some (default ("Validation failed for pattern: " +:+ pattern rule)
                            (message rule)))).
Proof.
  unfold checkRules. split.
  - intros A B msg1 msg2 later -> HA Ht.
    now rewrite (checkRules_from_hit (mkRule A (Some msg1))).
  - intros before rule after -> Hb Hp Ht. now apply checkRules_from_first_match.
Qed.

(** The amended C9 on an example: the rules (rm, msg1), (r, msg2) and a
    value that both match. *)
Lemma checkRules_first_match_wins_example :
  @checkRules offline echo_tool "rm -rf" = Ret (Some "msg1").
Proof.
  refine (proj1 (@checkRules_first_match_wins offline echo_tool "rm -rf")
            "rm" "r" "msg1" "msg2" [] eq_refl _ eq_refl).
  discriminate.
Defined.

(** ** Argument validation *)




(** Running the monad's own operations, and nothing else. *)
Ltac run_js :=
  cbv beta iota zeta
      delta [bind try_catch attempt throw ret lift log
             validatedContainers_has validatedContainers_set uidCache_get uidCache_set
             validatedContainers uidCache spawned sent logged clock
             err_message err_name Error fst snd].

(** ** docker.ts: processes and caches *)

Module StrIncludes.
Import Str StrFacts.

Lemma includes_startsWith s sub : startsWith s sub = true -> includes s sub = true.
Proof. intros H. destruct s; simpl; now rewrite H. Qed.

Lemma includes_append_r s t sub : includes t sub = true -> includes (s +:+ t) sub = true.
Proof.
  intros H. induction s as [|a s IH]; [assumption |].
  rewrite append_cons. simpl. rewrite IH. apply orb_true_r.
Qed.

Lemma includes_infix s sub t : includes (s +:+ sub +:+ t) sub = true.
Proof. apply includes_append_r, includes_startsWith, startsWith_append. Qed.

End StrIncludes.

Lemma mismatch_message_belongs container labelValue ddevProject :
  Str.includes (mismatch_message container labelValue ddevProject) "belongs to" = true.
Proof.
  unfold mismatch_message.
  change (" belongs to " +:+ ?r) with (" " +:+ "belongs to" +:+ " " +:+ r).
  do 5 apply StrIncludes.includes_append_r.
  apply StrIncludes.includes_startsWith, StrFacts.startsWith_append.
Qed.

Section Docker.
Context `{RT : Runtime}.

Lemma execCommand_docker args w :
  execCommand "docker" args w =
  (match proc_error (execFile (spawned w) (docker_call args)) with
   | Some _ => Throw (Error (failure_message "docker" args
                               (execFile (spawned w) (docker_call args))))
   | None => Ret (proc_stdout (execFile (spawned w) (docker_call args)))
   end,
   mkWorld (validatedContainers w) (uidCache w) (spawned w ++ [docker_call args])
           (sent w) (logged w) (clock w)).
Proof.
  unfold execCommand, bind, spawn, throw, ret. rewrite String.eqb_refl.
  fold (docker_call args). cbv beta iota zeta.
  destruct (proc_error (execFile (spawned w) (docker_call args))) eqn:E;
    unfold failure_message; rewrite ?E; reflexivity.
Qed.

Lemma validateContainer_hit container ddevProject w :
  is_Some (validatedContainers w !! (container +:+ ":" +:+ ddevProject)) ->
  validateContainer container ddevProject w = (Ret tt, w).
Proof.
  intros H. unfold validateContainer, bind, validatedContainers_has.
  now rewrite bool_decide_eq_true_2.
Qed.

(** Every run of [validateContainer] on a key that is not cached, by the
    outcome of the label query. *)
Lemma validateContainer_miss container ddevProject w :
  validatedContainers w !! (container +:+ ":" +:+ ddevProject) = None ->
  let r := execFile (spawned w) (inspect_call container) in
  let args := ["inspect"; "--format"; label_format; container] in
  let started :=
    (Debug, "Validating container " +:+ Str.dquote +:+ container +:+ Str.dquote +:+
            " for project " +:+ Str.dquote +:+ ddevProject +:+ Str.dquote) in
  let done_ :=
    (Debug, "Container " +:+ Str.dquote +:+ container +:+ Str.dquote +:+ " validated (cached)") in
  let failed e :=
    (Throw e, mkWorld (validatedContainers w) (uidCache w)
                      (spawned w ++ [inspect_call container]) (sent w)
                      (logged w ++ [started]) (clock w)) in
  let passed lines :=
    (Ret tt, mkWorld (<[container +:+ ":" +:+ ddevProject := true]> (validatedContainers w))
                     (uidCache w) (spawned w ++ [inspect_call container]) (sent w)
                     (((logged w ++ [started]) ++ lines) ++ [done_]) (clock w)) in
  validateContainer container ddevProject w =
  match proc_error r with
  | None =>
      if negb (String.eqb ddevProject "default-project") &&
         negb (String.eqb (Str.trim (proc_stdout r)) ddevProject)
      then failed (Error (mismatch_message container (Str.trim (proc_stdout r)) ddevProject))
      else passed []
  | Some _ =>
      if Str.includes (failure_message "docker" args r) "belongs to"
      then failed (Error (failure_message "docker" args r))
      else passed [(Warn, "Container validation warning: " +:+
                          failure_message "docker" args r)]
  end.
Proof.
  intros Hmiss. cbv zeta. unfold inspect_call.
  unfold validateContainer, bind at 1, validatedContainers_has.
  rewrite bool_decide_eq_false_2 by (rewrite Hmiss; apply is_Some_None).
  unfold bind at 1, log at 1. unfold bind at 1, try_catch, bind at 1.
  rewrite execCommand_docker.
  destruct (proc_error (execFile _ _)) eqn:Herr; run_js.
  - destruct (Str.includes _ "belongs to") eqn:Hinc; run_js; reflexivity.
  - destruct (negb _ && negb _) eqn:Hmis; run_js.
    + rewrite mismatch_message_belongs. reflexivity.
    + rewrite app_nil_r. reflexivity.
Qed.

End Docker.

Section DockerCache.
Context `{RT : Runtime}.

Lemma validateContainer_miss_spawns container ddevProject w :
  validatedContainers w !! (container +:+ ":" +:+ ddevProject) = None ->
  spawned (snd (validateContainer container ddevProject w)) =
  spawned w ++ [inspect_call container].
Proof.
  intros Hmiss. rewrite (validateContainer_miss _ _ _ Hmiss). cbv zeta.
  destruct (proc_error _); [destruct (Str.includes _ _) | destruct (negb _ && negb _)];
    reflexivity.
Qed.

Lemma validateContainer_throw_inv container ddevProject w e w' :
  validateContainer container ddevProject w = (Throw e, w') ->
  validatedContainers w !! (container +:+ ":" +:+ ddevProject) = None
  /\ validatedContainers w' = validatedContainers w
  /\ spawned w' = spawned w ++ [inspect_call container].
Proof.
  intros H.
  destruct (validatedContainers w !! (container +:+ ":" +:+ ddevProject)) eqn:Hc.
  - rewrite validateContainer_hit in H by (rewrite Hc; eauto). discriminate.
  - rewrite (validateContainer_miss _ _ _ Hc) in H. cbv zeta in H.
    destruct (proc_error _); [destruct (Str.includes _ _) | destruct (negb _ && negb _)];
      inversion H; subst; auto.
Qed.

Lemma validateContainer_ret_inv container ddevProject w w' :
  validateContainer container ddevProject w = (Ret tt, w') ->
  is_Some (validatedContainers w' !! (container +:+ ":" +:+ ddevProject)).
Proof.
  intros H.
  destruct (validatedContainers w !! (container +:+ ":" +:+ ddevProject)) eqn:Hc.
  - rewrite validateContainer_hit in H by (rewrite Hc; eauto).
    inversion H; subst. rewrite Hc. eauto.
  - rewrite (validateContainer_miss _ _ _ Hc) in H. cbv zeta in H.
    destruct (proc_error _); [destruct (Str.includes _ _) | destruct (negb _ && negb _)];
      inversion H; subst; cbn [validatedContainers]; rewrite lookup_insert_eq; eauto.
Qed.

End DockerCache.

(** C6, as stated, fails on a cached key: the first validation of web for
    siteB ran before the container existed, was skipped with a warning and
    cached; the container now declares siteA, and the second validation
    returns without failing. *)
Lemma validateContainer_cached_mismatch_passes :
  fst (@validateContainer created_later "web" "siteB" empty_world) = Ret tt
  /\ Str.trim (proc_stdout (@execFile created_later (spawned after_first_validation)
                              (inspect_call "web"))) = "siteA"
  /\ @validateContainer created_later "web" "siteB" after_first_validation
     = (Ret tt, after_first_validation).
Proof.
  split; [reflexivity | split; [reflexivity |]].
  apply validateContainer_hit. vm_compute. eauto.
Qed.

(** C6, amended: on a key that is cached validateContainer returns at once.
    On a key that is not cached it queries the label, and then: when the
    query answers, the expected project default-project never fails,
    whatever label the container declares, and any other expected project
    fails with the ownership mismatch error exactly when the trimmed label
    differs from it; when the query fails with a message that does not
    contain the words belongs to, it logs a warning and returns without
    failing. *)
Theorem validateContainer_ownership `{RT : Runtime} (container ddevProject : string) (w : World) :
  (is_Some (validatedContainers w !! (container +:+ ":" +:+ ddevProject)) ->
   validateContainer container ddevProject w = (Ret tt, w))
  /\ (validatedContainers w !! (container +:+ ":" +:+ ddevProject) = None ->
      (proc_error (execFile (spawned w) (inspect_call container)) = None ->
       ddevProject = "default-project" ->
       fst (validateContainer container ddevProject w) = Ret tt)
      /\ (proc_error (execFile (spawned w) (inspect_call container)) = None ->
          ddevProject <> "default-project" ->
          Str.trim (proc_stdout (execFile (spawned w) (inspect_call container))) <> ddevProject ->
          fst (validateContainer container ddevProject w) =
          Throw (Error (mismatch_message container
                          (Str.trim (proc_stdout (execFile (spawned w) (inspect_call container))))
                          ddevProject)))
      /\ (proc_error (execFile (spawned w) (inspect_call container)) = None ->
          Str.trim (proc_stdout (execFile (spawned w) (inspect_call container))) = ddevProject ->
          fst (validateContainer container ddevProject w) = Ret tt)
      /\ (is_Some (proc_error (execFile (spawned w) (inspect_call container))) ->
          Str.includes
            (failure_message "docker" ["inspect"; "--format"; label_format; container]
               (execFile (spawned w) (inspect_call container)))
            "belongs to" = false ->
          fst (validateContainer container ddevProject w) = Ret tt
          /\ In (Warn, "Container validation warning: " +:+
                       failure_message "docker" ["inspect"; "--format"; label_format; container]
                         (execFile (spawned w) (inspect_call container)))
                (logged (snd (validateContainer container ddevProject w))))).
Proof.
  split; [apply validateContainer_hit |].
  intros Hmiss. rewrite (validateContainer_miss _ _ _ Hmiss). cbv zeta.
  split; [| split; [| split]].
  - intros -> ->. reflexivity.
  - intros -> Hp Hl.
    apply String.eqb_neq in Hp, Hl. rewrite Hp, Hl. reflexivity.
  - intros -> Hl. apply String.eqb_eq in Hl. rewrite Hl, andb_false_r. reflexivity.
  - intros [m ->] ->. split; [reflexivity |].
    cbn [snd logged]. rewrite !in_app_iff. simpl. auto.
Qed.

(** The amended C6 on an example: web declares siteA, siteB is expected,
    nothing is cached. *)
Lemma validateContainer_ownership_example :
  fst (@validateContainer siteA_running "web" "siteB" empty_world)
  = Throw (Error (mismatch_message "web" "siteA" "siteB")).
Proof.
  refine (proj1 (proj2 (proj2 (@validateContainer_ownership siteA_running "web" "siteB"
                                 empty_world) eq_refl)) eq_refl _ _);
    discriminate.
Defined.

(** C10: a call that fails leaves the validation cache as it was, without
    the key, so the next call for the same container and project queries
    the label again.  On a key that is not cached, a check that passes
    (the label query answers, and the project is default-project or equals
    the trimmed label) and a query failure that is skipped (its message
    does not hold the words belongs to) both return after the one query
    and write the key, and nothing else, into the cache.  Every call that
    returns leaves the key cached, and every call on a world where the key
    is cached returns at once: no query, no change. *)
Theorem validateContainer_caches_only_on_return `{RT : Runtime}
  (container ddevProject : string) (w : World) :
  (forall e w',
      validateContainer container ddevProject w = (Throw e, w') ->
      validatedContainers w' = validatedContainers w
      /\ validatedContainers w' !! (container +:+ ":" +:+ ddevProject) = None
      /\ spawned (snd (validateContainer container ddevProject w')) =
         spawned w' ++ [inspect_call container])
  /\ (validatedContainers w !! (container +:+ ":" +:+ ddevProject) = None ->
      (proc_error (execFile (spawned w) (inspect_call container)) = None
       /\ (ddevProject = "default-project"
           \/ Str.trim (proc_stdout (execFile (spawned w) (inspect_call container)))
              = ddevProject))
      \/ (is_Some (proc_error (execFile (spawned w) (inspect_call container)))
          /\ Str.includes
               (failure_message "docker" ["inspect"; "--format"; label_format; container]
                  (execFile (spawned w) (inspect_call container)))
               "belongs to" = false) ->
      exists w',
        validateContainer container ddevProject w = (Ret tt, w')
        /\ validatedContainers w'
           = <[container +:+ ":" +:+ ddevProject := true]> (validatedContainers w)
        /\ spawned w' = spawned w ++ [inspect_call container]
        /\ validateContainer container ddevProject w' = (Ret tt, w'))
  /\ (forall w',
         validateContainer container ddevProject w = (Ret tt, w') ->
         is_Some (validatedContainers w' !! (container +:+ ":" +:+ ddevProject))
         /\ validateContainer container ddevProject w' = (Ret tt, w'))
  /\ (is_Some (validatedContainers w !! (container +:+ ":" +:+ ddevProject)) ->
      validateContainer container ddevProject w = (Ret tt, w)).
Proof.
  split; [| split; [| split]].
  - intros e w' H. apply validateContainer_throw_inv in H as (Hnone & Hsame & _).
    assert (Hnone' : validatedContainers w' !! (container +:+ ":" +:+ ddevProject) = None)
      by now rewrite Hsame.
    repeat split; [assumption | assumption |].
    now apply validateContainer_miss_spawns.
  - intros Hmiss Hpass.
    assert (Hrun : exists w',
               validateContainer container ddevProject w = (Ret tt, w')
               /\ validatedContainers w'
                  = <[container +:+ ":" +:+ ddevProject := true]> (validatedContainers w)
               /\ spawned w' = spawned w ++ [inspect_call container]).
    { rewrite (validateContainer_miss _ _ _ Hmiss). cbv zeta.
      destruct Hpass as [[Hok Hlabel] | [[m Hm] Hinc]].
      - rewrite Hok.
        assert (Hno : negb (String.eqb ddevProject "default-project") &&
                      negb (String.eqb
                              (Str.trim (proc_stdout (execFile (spawned w)
                                                        (inspect_call container))))
                              ddevProject) = false).
        { destruct Hlabel as [-> | Hl]; [reflexivity |].
          apply String.eqb_eq in Hl. rewrite Hl. apply andb_false_r. }
        rewrite Hno. eexists. repeat split.
      - rewrite Hm. rewrite Hinc. eexists. repeat split. }
    destruct Hrun as (w' & Hrun & Hcache & Hspawn).
    exists w'. repeat (split; [assumption |]).
    apply validateContainer_hit. rewrite Hcache, lookup_insert_eq. eauto.
  - intros w' H. apply validateContainer_ret_inv in H as Hsome.
    split; [assumption | now apply validateContainer_hit].
  - apply validateContainer_hit.
Qed.

(** C10 on two examples.  The container web declares siteA and siteB is
    expected: the call fails, the cache stays empty and the next call
    queries again.  No process can be started: the failed query is
    skipped, the call returns, the key is the one entry of the cache, and
    the next call returns at once. *)
Lemma validateContainer_caches_only_on_return_example :
  (validatedContainers (snd (@validateContainer siteA_running "web" "siteB" empty_world)) = ∅
   /\ spawned (snd (@validateContainer siteA_running "web" "siteB"
                      (snd (@validateContainer siteA_running "web" "siteB" empty_world))))
      = [inspect_call "web"; inspect_call "web"])
  /\ exists w',
      @validateContainer offline "web" "siteB" empty_world = (Ret tt, w')
      /\ validatedContainers w' = <["web:siteB" := true]> ∅
      /\ spawned w' = [inspect_call "web"]
      /\ @validateContainer offline "web" "siteB" w' = (Ret tt, w').
Proof.
  split.
  - destruct (proj1 (@validateContainer_caches_only_on_return siteA_running "web" "siteB"
                       empty_world)
                (Error (mismatch_message "web" "siteA" "siteB"))
                (snd (@validateContainer siteA_running "web" "siteB" empty_world))
                eq_refl) as (Hsame & _ & Hspawn).
    split; [exact Hsame | exact Hspawn].
  - apply (proj1 (proj2 (@validateContainer_caches_only_on_return offline "web" "siteB"
                           empty_world)) eq_refl).
    right. split; [vm_compute; eauto | reflexivity].
Defined.

(** ** Objects *)

Module ObjFacts.
Import Obj.

Lemma has_In o k : has o k = true <-> In k (keys o).
Proof.
  unfold has. rewrite existsb_exists. split.
  - intros [x [Hx Heq]]. apply String.eqb_eq in Heq. now subst.
  - intros H. exists k. split; [assumption | apply String.eqb_refl].
Qed.

Lemma get_None o k : get o k = None <-> has o k = false.
Proof.
  induction o as [|[k' v] o IH]; [split; reflexivity |].
  unfold has in *. change (keys ((k', v) :: o)) with (k' :: keys o).
  cbn [get existsb]. rewrite (String.eqb_sym k k').
  destruct (get o k) eqn:Hg.
  - assert (Hex : existsb (String.eqb k) (keys o) = true).
    { destruct (existsb (String.eqb k) (keys o)); [reflexivity |].
      destruct IH as [_ IH]. specialize (IH eq_refl). discriminate. }
    rewrite Hex, orb_true_r. split; discriminate.
  - destruct IH as [IH _]. rewrite (IH eq_refl), orb_false_r.
    destruct (String.eqb k' k); split; congruence.
Qed.

Lemma get_set_eq o k v : get (set o k v) k = Some v.
Proof.
  induction o as [|[k' v'] o IH]; cbn [set get].
  - now rewrite String.eqb_refl.
  - destruct (String.eqb k' k) eqn:Hk; cbn [get].
    + destruct (has o k) eqn:Hh.
      * now rewrite IH.
      * apply get_None in Hh. now rewrite Hh, Hk.
    + now rewrite IH.
Qed.

Lemma get_set_ne o k v k2 : k <> k2 -> get (set o k v) k2 = get o k2.
Proof.
  intros Hne. induction o as [|[k' v'] o IH]; cbn [set get].
  - apply String.eqb_neq in Hne. now rewrite Hne.
  - destruct (String.eqb k' k) eqn:Hk; cbn [get].
    + apply String.eqb_eq in Hk. subst k'.
      apply String.eqb_neq in Hne.
      destruct (has o k); [rewrite IH |]; now rewrite Hne.
    + now rewrite IH.
Qed.

(** The supplied arguments win over the defaults. *)
Lemma get_spread a b k :
  get (spread a b) k = match get b k with Some v => Some v | None => get a k end.
Proof.
  unfold spread. revert a. induction b as [|[k1 v1] b IH]; intros a; cbn [fold_left get].
  - reflexivity.
  - rewrite IH. cbn [fst snd]. destruct (get b k); [reflexivity |].
    destruct (String.eqb_spec k1 k) as [->|Hne].
    + apply get_set_eq.
    + now apply get_set_ne.
Qed.

End ObjFacts.

(** ** docker.ts: the user of a container *)

Section ContainerUser.
Context `{RT : Runtime}.

Lemma dockerExec_stat container targetPath :
  dockerExec (mkDockerExecOptions container ["stat -c %u " +:+ targetPath]
                (Some "root") (Some "/bin/sh")) =
  execCommand "docker"
    ["exec"; "-u"; "root"; container; "/bin/sh"; "-c"; "stat -c %u " +:+ targetPath].
Proof. reflexivity. Qed.

(** Every run of the owner lookup, by the outcome of the process. *)
Lemma resolve_uid_run container targetPath cacheKey w :
  resolve_uid container targetPath cacheKey w =
  match proc_error (execFile (spawned w) (stat_call container targetPath)) with
  | None =>
      if Str.nonempty (Str.trim (proc_stdout
                                   (execFile (spawned w) (stat_call container targetPath))))
      then
        (Ret (Str.trim (proc_stdout (execFile (spawned w) (stat_call container targetPath)))),
         mkWorld (validatedContainers w)
           (<[cacheKey :=
                Str.trim (proc_stdout (execFile (spawned w) (stat_call container targetPath)))]>
              (uidCache w))
           (spawned w ++ [stat_call container targetPath]) (sent w)
           (logged w ++
            [(Info, "Resolved auto:uid-from-path:" +:+ targetPath +:+ " → UID " +:+
                    Str.trim (proc_stdout
                                (execFile (spawned w) (stat_call container targetPath))) +:+
                    " (cached)")])
           (clock w))
      else
        (Ret "www-data",
         mkWorld (validatedContainers w) (<[cacheKey := "www-data"]> (uidCache w))
           (spawned w ++ [stat_call container targetPath]) (sent w) (logged w) (clock w))
  | Some _ =>
      (Ret "www-data",
       mkWorld (validatedContainers w) (<[cacheKey := "www-data"]> (uidCache w))
         (spawned w ++ [stat_call container targetPath]) (sent w)
         (logged w ++
          [(Warn, "Error resolving UID: " +:+
                  Error_toString
                    (Error (failure_message "docker"
                              ["exec"; "-u"; "root"; container; "/bin/sh"; "-c";
                               "stat -c %u " +:+ targetPath]
                              (execFile (spawned w) (stat_call container targetPath)))) +:+
                  ". Falling back to www-data")])
         (clock w))
  end.
Proof.
  unfold resolve_uid, stat_call. unfold bind at 1, try_catch, bind at 1.
  rewrite dockerExec_stat, execCommand_docker.
  destruct (proc_error (execFile _ _)) eqn:Herr; run_js; [reflexivity |].
  destruct (Str.nonempty _); run_js; reflexivity.
Qed.

Lemma resolveContainerUser_plain user container w :
  Str.startsWith user "auto:uid-from-path" = false ->
  resolveContainerUser user container w = (Ret user, w).
Proof. intros H. unfold resolveContainerUser. now rewrite H. Qed.

Lemma resolveContainerUser_cached user container w uid :
  Str.startsWith user "auto:uid-from-path" = true ->
  uidCache w !! (container +:+ ":" +:+ uid_target_path user) = Some uid ->
  uid <> EmptyString ->
  resolveContainerUser user container w = (Ret uid, w).
Proof.
  intros H Hc Hne. unfold resolveContainerUser. rewrite H. cbn [negb].
  fold (uid_target_path user). unfold bind, uidCache_get. rewrite Hc.
  apply StrFacts.nonempty_true in Hne. now rewrite Hne.
Qed.

Lemma resolveContainerUser_lookup user container w :
  Str.startsWith user "auto:uid-from-path" = true ->
  uid_uncached w (container +:+ ":" +:+ uid_target_path user) ->
  resolveContainerUser user container w =
  resolve_uid container (uid_target_path user)
    (container +:+ ":" +:+ uid_target_path user) w.
Proof.
  intros H Hc. unfold resolveContainerUser. rewrite H. cbn [negb].
  fold (uid_target_path user). unfold bind, uidCache_get. unfold uid_uncached in Hc.
  destruct (uidCache w !! _) as [c|]; [| reflexivity].
  simpl in Hc. subst c. reflexivity.
Qed.

(** Whatever happens, the call returns, and the only process it can start
    is the owner lookup. *)
Lemma resolveContainerUser_returns user container w :
  exists u w',
    resolveContainerUser user container w = (Ret u, w')
    /\ (spawned w' = spawned w
        \/ Str.startsWith user "auto:uid-from-path" = true
           /\ uid_uncached w (container +:+ ":" +:+ uid_target_path user)
           /\ spawned w' = spawned w ++ [stat_call container (uid_target_path user)])
    /\ sent w' = sent w.
Proof.
  destruct (Str.startsWith user "auto:uid-from-path") eqn:H.
  - destruct (uidCache w !! (container +:+ ":" +:+ uid_target_path user)) as [c|] eqn:Hc.
    + destruct (String.eqb_spec c EmptyString) as [->|Hne].
      * assert (Hu : uid_uncached w (container +:+ ":" +:+ uid_target_path user))
          by (unfold uid_uncached; now rewrite Hc).
        rewrite (resolveContainerUser_lookup _ _ _ H Hu), resolve_uid_run.
        destruct (proc_error _); [| destruct (Str.nonempty _)];
          do 2 eexists; (split; [reflexivity | split; [right; auto | reflexivity]]).
      * rewrite (resolveContainerUser_cached _ _ _ _ H Hc Hne). eauto 6.
    + assert (Hu : uid_uncached w (container +:+ ":" +:+ uid_target_path user))
        by (unfold uid_uncached; now rewrite Hc).
      rewrite (resolveContainerUser_lookup _ _ _ H Hu), resolve_uid_run.
      destruct (proc_error _); [| destruct (Str.nonempty _)];
        do 2 eexists; (split; [reflexivity | split; [right; auto | reflexivity]]).
  - rewrite (resolveContainerUser_plain _ _ _ H). eauto 6.
Qed.

End ContainerUser.

(** C7: resolveContainerUser never throws.  A user that does not begin
    with auto:uid-from-path is returned unchanged.  For one that does, and
    whose key holds no usable entry, a lookup that fails or prints nothing
    caches and returns www-data, and a lookup that succeeds caches and
    returns the trimmed output; a usable cached entry is returned as it
    is. *)
Theorem resolveContainerUser_never_throws `{RT : Runtime}
  (user container : string) (w : World) :
  (exists u w', resolveContainerUser user container w = (Ret u, w'))
  /\ (Str.startsWith user "auto:uid-from-path" = false ->
      resolveContainerUser user container w = (Ret user, w))
  /\ (Str.startsWith user "auto:uid-from-path" = true ->
      uid_uncached w (container +:+ ":" +:+ uid_target_path user) ->
      (is_Some (proc_error (execFile (spawned w) (stat_call container (uid_target_path user))))
       \/ Str.trim (proc_stdout (execFile (spawned w)
                                   (stat_call container (uid_target_path user))))
          = EmptyString ->
       fst (resolveContainerUser user container w) = Ret "www-data"
       /\ uidCache (snd (resolveContainerUser user container w))
            !! (container +:+ ":" +:+ uid_target_path user) = Some "www-data")
      /\ (proc_error (execFile (spawned w) (stat_call container (uid_target_path user))) = None ->
          Str.trim (proc_stdout (execFile (spawned w)
                                   (stat_call container (uid_target_path user))))
          <> EmptyString ->
          fst (resolveContainerUser user container w) =
          Ret (Str.trim (proc_stdout (execFile (spawned w)
                                        (stat_call container (uid_target_path user)))))
          /\ uidCache (snd (resolveContainerUser user container w))
               !! (container +:+ ":" +:+ uid_target_path user) =
             Some (Str.trim (proc_stdout (execFile (spawned w)
                                            (stat_call container (uid_target_path user)))))))
  /\ (forall uid,
         Str.startsWith user "auto:uid-from-path" = true ->
         uidCache w !! (container +:+ ":" +:+ uid_target_path user) = Some uid ->
         uid <> EmptyString ->
         resolveContainerUser user container w = (Ret uid, w)).
Proof.
  split; [| split; [| split]].
  - destruct (resolveContainerUser_returns user container w) as (u & w' & H & _). eauto.
  - apply resolveContainerUser_plain.
  - intros Hs Hu. rewrite (resolveContainerUser_lookup _ _ _ Hs Hu), resolve_uid_run.
    split.
    + intros [[m Hm]|Hempty].
      * rewrite Hm. cbn [fst snd uidCache]. now rewrite lookup_insert_eq.
      * destruct (proc_error _); cbn [fst snd uidCache];
          [now rewrite lookup_insert_eq |].
        apply StrFacts.nonempty_false in Hempty. rewrite Hempty.
        cbn [fst snd uidCache]. now rewrite lookup_insert_eq.
    + intros -> Hne. apply StrFacts.nonempty_true in Hne. rewrite Hne.
      cbn [fst snd uidCache]. now rewrite lookup_insert_eq.
  - intros uid. apply resolveContainerUser_cached.
Qed.

(** C7 on an example: the lookup fails under [offline], and www-data is
    cached for the default path. *)
Lemma resolveContainerUser_never_throws_example :
  fst (@resolveContainerUser offline "auto:uid-from-path" "web" empty_world) = Ret "www-data"
  /\ uidCache (snd (@resolveContainerUser offline "auto:uid-from-path" "web" empty_world))
       !! "web:/var/www/html" = Some "www-data".
Proof.
  refine (proj1 (proj1 (proj2 (proj2 (@resolveContainerUser_never_throws offline
                                        "auto:uid-from-path" "web" empty_world)))
                   eq_refl eq_refl) _).
  left. vm_compute. eauto.
Defined.

(** ** executors/command.ts: disallowed commands *)

Lemma disallowed_command_hit (this : CommandToolExecutor) (args : JsObject) (c : string) :
  Obj.get args "command" = Some (JStr c) ->
  In c (disallowedCommands this) ->
  disallowed_command this (Obj.spread (defaultArgs_object this) args) = Some c.
Proof.
  intros Hc Hin. unfold disallowed_command.
  rewrite ObjFacts.get_spread, Hc.
  apply Set_has_In in Hin. now rewrite Hin.
Qed.

Lemma execute_disallowed_run `{RT : Runtime}
  (this : CommandToolExecutor) (args : JsObject) (c u : string) (w w' : World) :
  Obj.get args "command" = Some (JStr c) ->
  In c (disallowedCommands this) ->
  resolveContainerUser (user this) (container this) w = (Ret u, w') ->
  CommandToolExecutor_execute this args w =
  (Ret (mkResult (JStr ("Error: Command '" +:+ c +:+ "' is not allowed")) (Some true)),
   mkWorld (validatedContainers w') (uidCache w') (spawned w') (sent w')
           (logged w' ++ [(Warn, "Blocked disallowed command: " +:+ c)]) (clock w')).
Proof.
  intros Hc Hin Hrun. unfold CommandToolExecutor_execute, bind at 1.
  rewrite Hrun, (disallowed_command_hit _ _ _ Hc Hin). reflexivity.
Qed.

(** C3 asks that a call with a disallowed command returns the error
    envelope and never reaches the backend.  The code returns the envelope,
    but for a tool whose user is auto:uid-from-path it resolves the user
    before it checks the command: on a cold cache the owner lookup runs in
    the container, and its answer is cached, although the command is
    refused. *)
Lemma execute_disallowed_reaches_backend :
  new_CommandToolExecutor guarded_options = Ret guarded_tool
  /\ fst (@CommandToolExecutor_execute owner_33 guarded_tool
            [("command", JStr "rm")] empty_world)
     = Ret (mkResult (JStr "Error: Command 'rm' is not allowed") (Some true))
  /\ spawned (snd (@CommandToolExecutor_execute owner_33 guarded_tool
                     [("command", JStr "rm")] empty_world))
     = [stat_call "web" "/var/www/html"]
  /\ uidCache (snd (@CommandToolExecutor_execute owner_33 guarded_tool
                      [("command", JStr "rm")] empty_world))
       !! "web:/var/www/html" = Some "33".
Proof. repeat split. Qed.

(** Every call with a disallowed command: execute returns the error
    envelope naming it, sends no request, and does not run the command;
    the one process it can start is the owner lookup, for a user that
    begins with auto:uid-from-path and whose owner is not cached. *)
Lemma execute_refuses_disallowed_command `{RT : Runtime}
  (this : CommandToolExecutor) (args : JsObject) (c : string) (w : World) :
  Obj.get args "command" = Some (JStr c) ->
  In c (disallowedCommands this) ->
  fst (CommandToolExecutor_execute this args w)
  = Ret (mkResult (JStr ("Error: Command '" +:+ c +:+ "' is not allowed")) (Some true))
  /\ sent (snd (CommandToolExecutor_execute this args w)) = sent w
  /\ (spawned (snd (CommandToolExecutor_execute this args w)) = spawned w
      \/ Str.startsWith (user this) "auto:uid-from-path" = true
         /\ uid_uncached w (container this +:+ ":" +:+ uid_target_path (user this))
         /\ spawned (snd (CommandToolExecutor_execute this args w))
            = spawned w ++ [stat_call (container this) (uid_target_path (user this))]).
Proof.
  intros Hc Hin.
  destruct (resolveContainerUser_returns (user this) (container this) w)
    as (u & w' & Hrun & Hspawn & Hsent).
  rewrite (execute_disallowed_run _ _ _ _ _ _ Hc Hin Hrun). cbn [fst snd sent spawned].
  split; [reflexivity |]. split; [exact Hsent | exact Hspawn].
Qed.

(** With the default user, rm is refused and no process is started. *)
Example execute_refuses_disallowed_command_example :
  fst (@CommandToolExecutor_execute owner_33 guarded_tool_www
         [("command", JStr "rm")] empty_world)
  = Ret (mkResult (JStr "Error: Command 'rm' is not allowed") (Some true))
  /\ spawned (snd (@CommandToolExecutor_execute owner_33 guarded_tool_www
                     [("command", JStr "rm")] empty_world)) = [].
Proof.
  destruct (@execute_refuses_disallowed_command owner_33 guarded_tool_www
              [("command", JStr "rm")] "rm" empty_world eq_refl (or_introl eq_refl))
    as (Hres & _ & Hspawn).
  split; [exact Hres |]. reflexivity.
Qed.

(** ** Static safety *)

Lemma includes_char s a :
  Str.includes s (String a EmptyString) = true <-> In a (list_ascii_of_string s).
Proof.
  induction s as [|b s IH]; simpl.
  - split; [discriminate | tauto].
  - rewrite orb_true_iff, IH. destruct (Ascii.eqb_spec a b) as [->|Hne].
    + split; auto.
    + split; [intros [H|H]; [discriminate | auto] | intros [H|H]; [congruence | auto]].
Qed.

Lemma DANGEROUS_CHARS_single c :
  In c DANGEROUS_CHARS -> exists a, c = String a EmptyString.
Proof.
  unfold DANGEROUS_CHARS. simpl. intros H.
  repeat (destruct H as [<-|H]; [eexists; reflexivity |]). contradiction.
Qed.

Lemma unsafe_includes val : unsafe val <-> exists c, In c DANGEROUS_CHARS /\ Str.includes val c = true.
Proof.
  unfold unsafe, dangerous. split.
  - intros (a & Ha & Hd). exists (String a EmptyString). split; [assumption |].
    now apply includes_char.
  - intros (c & Hc & Hi). destruct (DANGEROUS_CHARS_single c Hc) as [a ->].
    exists a. split; [now apply includes_char | assumption].
Qed.

Lemma scan_chars_throw val chars :
  (exists e, scan_chars val chars = Throw e)
  <-> exists c, In c chars /\ Str.includes val c = true.
Proof.
  induction chars as [|c chars IH]; simpl.
  - split; [intros [e H]; discriminate | intros (c & [] & _)].
  - destruct (Str.includes val c) eqn:Hc.
    + split; eauto.
    + rewrite IH. split.
      * intros (c' & Hin & Hi). eauto.
      * intros (c' & [<-|Hin] & Hi); [congruence | eauto].
Qed.

Lemma validateStaticSafety_throw values :
  (exists e, validateStaticSafety values = Throw e) <-> exists val, In val values /\ unsafe val.
Proof.
  induction values as [|val values IH]; cbn [validateStaticSafety In].
  - split; [intros [e H]; discriminate | intros (v & [] & _)].
  - destruct (scan_chars val DANGEROUS_CHARS) as [[]|e] eqn:Hs.
    + rewrite IH. split.
      * intros (v & Hin & Hu). eauto.
      * intros (v & [<-|Hin] & Hu); [| eauto].
        apply unsafe_includes, scan_chars_throw in Hu as [e He]. congruence.
    + split; [| eauto]. intros _. exists val. split; [now left |].
      apply unsafe_includes, scan_chars_throw. eauto.
Qed.

Lemma validateStaticSafety_ret values :
  validateStaticSafety values = Ret tt <-> forall val, In val values -> ~ unsafe val.
Proof.
  split.
  - intros H val Hin Hu.
    assert (He : exists e, validateStaticSafety values = Throw e)
      by (apply validateStaticSafety_throw; eauto).
    destruct He as [e He]. congruence.
  - intros H. destruct (validateStaticSafety values) as [[]|e] eqn:Hv; [reflexivity |].
    assert (Hu : exists val, In val values /\ unsafe val)
      by (apply validateStaticSafety_throw; eauto).
    destruct Hu as (val & Hin & Hu). now apply H in Hu.
Qed.

Lemma flag_is_safe : ~ unsafe "-c".
Proof.
  intros (a & Ha & Hd). unfold dangerous, DANGEROUS_CHARS in Hd. simpl in Ha, Hd.
  destruct Ha as [<-|[<-|[]]];
    repeat (destruct Hd as [Hd|Hd]; [discriminate |]); contradiction.
Qed.

Lemma new_CommandToolExecutor_throw options :
  (exists e, new_CommandToolExecutor options = Throw e)
  <-> unsafe (default "/bin/bash" (opt_shell options)).
Proof.
  unfold new_CommandToolExecutor. cbv zeta. cbn [shell].
  destruct (validateStaticSafety _) as [[]|e] eqn:Hv.
  - split; [intros [e He]; discriminate |].
    intros Hu. apply validateStaticSafety_ret with (val := default "/bin/bash" (opt_shell options)) in Hv;
      [contradiction | now left].
  - split; [| eauto]. intros _.
    assert (Hu : exists val, In val [default "/bin/bash" (opt_shell options); "-c"] /\ unsafe val)
      by (apply validateStaticSafety_throw; eauto).
    destruct Hu as (val & [<-|[<-|[]]] & Hu); [assumption |].
    now apply flag_is_safe in Hu.
Qed.

Section Loading.
Context `{RT : Runtime}.

Lemma loadSingleTool_unsafe_shell this toolConfig w :
  default "command" (ToolConfig.type toolConfig) = "command" ->
  unsafe (default "/bin/bash" (ToolConfig.shell toolConfig)) ->
  exists w', loadSingleTool this toolConfig w = (Ret (O, this), w').
Proof.
  intros Htype Hu. unfold loadSingleTool.
  destruct (negb (Str.nonempty (ToolConfig.name toolConfig))); [run_js; eauto |].
  destruct (bool_decide (ToolConfig.enabled toolConfig = Some false)); [run_js; eauto |].
  unfold bind at 1, createExecutor, try_catch, construct_executor. rewrite Htype.
  cbn [String.eqb Ascii.eqb Bool.eqb]. cbv zeta.
  destruct (negb (Str.nonempty (ToolConfig.command_template toolConfig))); [run_js; eauto |].
  destruct (proj2 (new_CommandToolExecutor_throw (command_options this toolConfig)) Hu)
    as [e He].
  unfold bind at 1, lift. rewrite He. run_js. eauto.
Qed.

End Loading.

(** C2: validateStaticSafety throws exactly when one of its values holds a
    character of the dangerous set, and returns otherwise; the flag -c holds
    none, so the constructor of a command executor throws exactly when the
    shell holds one; and for every command definition with such a shell
    the registry registers nothing: loadSingleTool returns 0 and the
    registry it was given. *)
Theorem unsafe_shell_is_never_registered `{RT : Runtime} :
  (forall values,
      (exists e, validateStaticSafety values = Throw e)
      <-> exists val, In val values /\ unsafe val)
  /\ (forall values,
         validateStaticSafety values = Ret tt <-> forall val, In val values -> ~ unsafe val)
  /\ ~ unsafe "-c"
  /\ (forall options,
         (exists e, new_CommandToolExecutor options = Throw e)
         <-> unsafe (default "/bin/bash" (opt_shell options)))
  /\ (forall this toolConfig w,
         default "command" (ToolConfig.type toolConfig) = "command" ->
         unsafe (default "/bin/bash" (ToolConfig.shell toolConfig)) ->
         exists w', loadSingleTool this toolConfig w = (Ret (O, this), w')).
Proof.
  split; [exact validateStaticSafety_throw |].
  split; [exact validateStaticSafety_ret |].
  split; [exact flag_is_safe |].
  split; [exact new_CommandToolExecutor_throw |].
  exact loadSingleTool_unsafe_shell.
Qed.

(** C2 on an example: a shell that chains a second command with a
    semicolon. *)
Lemma unsafe_shell_is_never_registered_example :
  exists w',
    @loadSingleTool offline empty_registry chained_shell_config empty_world
    = (Ret (O, empty_registry), w').
Proof.
  refine (proj2 (proj2 (proj2 (proj2 (@unsafe_shell_is_never_registered offline))))
            empty_registry chained_shell_config empty_world eq_refl _).
  exists ";"%char. split; [simpl; tauto | left; reflexivity].
Defined.

(** ** registry.ts: dispatch *)

(** C1: for every registry, tool name and argument mapping, executeTool
    returns an envelope and does not throw, whatever the executor, the
    processes and the servers do; and on a registry with no tool named
    nope, executeTool of nope returns the unknown-tool envelope and
    changes nothing. *)
Theorem executeTool_never_throws `{RT : Runtime} (this : ToolRegistry) :
  (forall name args w, exists result w', executeTool this name args w = (Ret result, w'))
  /\ (tools this !! "nope" = None ->
      forall w, executeTool this "nope" [] w
                = (Ret (mkResult (JStr "Error: Unknown tool 'nope'") (Some true)), w)).
Proof.
  split.
  - intros name args w. unfold executeTool.
    destruct (tools this !! name) as [registered|]; [| run_js; eauto].
    unfold bind, attempt, try_catch.
    destruct (validateArguments (executor registered) args w) as [[[]|e] w1]; [| run_js; eauto].
    destruct (execute (executor registered) (argPreprocessor this args) w1) as [[result|e] w2];
      run_js; eauto.
  - intros Hnone w. unfold executeTool. rewrite Hnone. reflexivity.
Qed.

(** C1 on an example: the empty registry. *)
Lemma executeTool_never_throws_example :
  @executeTool offline empty_registry "nope" [] empty_world
  = (Ret (mkResult (JStr "Error: Unknown tool 'nope'") (Some true)), empty_world).
Proof.
  exact (proj2 (@executeTool_never_throws offline empty_registry) eq_refl empty_world).
Defined.

(** ** Remote tools: discovery and binding *)

Section Discovery.
Context `{RT : Runtime}.

Lemma createExecutor_proxy this toolConfig w :
  ToolConfig.type toolConfig = Some "mcp_server" ->
  ToolConfig.server_url toolConfig <> EmptyString ->
  createExecutor this toolConfig w =
  (Ret (Some (McpProxy (new_McpProxyExecutor (proxy_options toolConfig)))), w).
Proof.
  intros Htype Hurl. unfold createExecutor, try_catch, construct_executor.
  rewrite Htype. apply StrFacts.nonempty_true in Hurl. rewrite Hurl. reflexivity.
Qed.

(** A request that is answered in time with a JSON body. *)
Lemma rpc_answered this method params w j :
  reply_outcome (fetch (sent w) (rpc_request this method params)) = RespJson j ->
  (reply_after (fetch (sent w) (rpc_request this method params)) < timeout this)%N ->
  rpc this method params w =
  (Ret j, mkWorld (validatedContainers w) (uidCache w) (spawned w)
                  (sent w ++ [rpc_request this method params]) (logged w)
                  (clock w + (reply_after (fetch (sent w) (rpc_request this method params)) +
                              body_after (fetch (sent w) (rpc_request this method params))))).
Proof.
  intros Hj Ht. unfold rpc, bind, send, reading. apply N.ltb_lt in Ht.
  rewrite Ht, Hj. reflexivity.
Qed.

(** Whatever the answer, a request goes out exactly once. *)
Lemma rpc_sends this method params w :
  sent (snd (rpc this method params w)) = sent w ++ [rpc_request this method params].
Proof.
  unfold rpc, bind, send.
  destruct (reply_after _ <? timeout this)%N; [destruct (reply_outcome _) |]; reflexivity.
Qed.

Lemma fetchRemoteTools_listed this w r l :
  reply_outcome (fetch (sent w) (rpc_request this (Some (JStr "tools/list")) (Some (JObj []))))
  = RespJson (JObj r) ->
  (reply_after (fetch (sent w) (rpc_request this (Some (JStr "tools/list")) (Some (JObj []))))
   < timeout this)%N ->
  Obj.get r "tools" = Some (JArr l) ->
  fetchRemoteTools this w =
  (Ret l,
   mkWorld (validatedContainers w) (uidCache w) (spawned w)
     (sent w ++ [rpc_request this (Some (JStr "tools/list")) (Some (JObj []))])
     ((logged w ++ [(Info, "Fetching remote tools from " +:+ serverUrl this)]) ++
      [(Info, "Fetched " +:+ pretty (length l) +:+ " tools from " +:+ serverUrl this)])
     (clock w +
      (reply_after (fetch (sent w)
                      (rpc_request this (Some (JStr "tools/list")) (Some (JObj [])))) +
       body_after (fetch (sent w)
                     (rpc_request this (Some (JStr "tools/list")) (Some (JObj []))))))).
Proof.
  intros Hj Ht Hl. unfold fetchRemoteTools, bind at 1, log at 1, try_catch, bind at 1.
  rewrite rpc_answered with (j := JObj r) by assumption.
  rewrite Hl. reflexivity.
Qed.

(** A call of a bound tool sends one tools/call request with the name and
    the arguments, whatever comes back. *)
Lemma callTool_sends this args toolName w :
  truthy toolName = true ->
  sent (snd (callTool this args (Some toolName) w)) =
  sent w ++ [rpc_request this (Some (JStr "tools/call"))
               (Some (JObj [("name", toolName); ("arguments", JObj args)]))].
Proof.
  intros Ht. unfold callTool, try_catch, bind.
  change (default JNull (Some toolName)) with toolName. rewrite Ht.
  change (Obj.get [("method", JStr "tools/call");
                   ("params", JObj [("name", toolName); ("arguments", JObj args)])] "method")
    with (Some (JStr "tools/call")).
  change (Obj.get [("method", JStr "tools/call");
                   ("params", JObj [("name", toolName); ("arguments", JObj args)])] "params")
    with (Some (JObj [("name", toolName); ("arguments", JObj args)])).
  pose proof (rpc_sends this (Some (JStr "tools/call"))
                (Some (JObj [("name", toolName); ("arguments", JObj args)])) w) as Hs.
  destruct (rpc this _ _ w) as [[j|e] w1]; cbn [snd] in Hs.
  - unfold lift. destruct (parseResponse j) as [res|e]; cbn [snd]; [assumption |].
    destruct (String.eqb (err_name e) "AbortError"); run_js; assumption.
  - destruct (String.eqb (err_name e) "AbortError"); run_js; assumption.
Qed.

End Discovery.

Section DiscoveryOfPing.
Context `{RT : Runtime}.

Lemma loadRemoteMcpTools_ping this toolConfig w :
  ToolConfig.tool_prefix toolConfig = Some "remote_" ->
  reply_outcome (fetch (sent w) (list_request toolConfig))
  = RespJson (JObj [("tools", JArr [JObj [("name", JStr "ping")]])]) ->
  (reply_after (fetch (sent w) (list_request toolConfig))
   < timeout (new_McpProxyExecutor (proxy_options toolConfig)))%N ->
  (reply_after (fetch (sent w) (list_request toolConfig)) +
   body_after (fetch (sent w) (list_request toolConfig))
   < default 30 (ToolConfig.init_timeout toolConfig) * 1000)%N ->
  exists w',
    loadRemoteMcpTools this toolConfig (new_McpProxyExecutor (proxy_options toolConfig)) w =
    (Ret (1%nat,
          tools_set this "remote_ping"
            (mkRegisteredTool
               (wrapped_config toolConfig "remote_ping" (JObj [("name", JStr "ping")]))
               (BoundRemoteTool (new_McpProxyExecutor (proxy_options toolConfig))
                                (JStr "ping")))),
     w')
    /\ sent w' = sent w ++ [list_request toolConfig].
Proof.
  intros Hprefix Hj Ht Hinit. unfold loadRemoteMcpTools.
  unfold bind at 1, log at 1. unfold bind at 1, attempt, race_timer.
  erewrite fetchRemoteTools_listed; [| exact Hj | exact Ht | reflexivity].
  cbn [validatedContainers uidCache spawned sent logged clock].
  fold (list_request toolConfig).
  replace (clock w + (reply_after (fetch (sent w) (list_request toolConfig)) +
                      body_after (fetch (sent w) (list_request toolConfig))) - clock w)%N
    with (reply_after (fetch (sent w) (list_request toolConfig)) +
          body_after (fetch (sent w) (list_request toolConfig)))%N by lia.
  apply N.ltb_lt in Hinit. rewrite Hinit.
  rewrite Hprefix. eexists. split; reflexivity.
Qed.

Lemma loadSingleTool_ping this toolConfig w :
  ToolConfig.name toolConfig <> EmptyString ->
  ToolConfig.enabled toolConfig <> Some false ->
  ToolConfig.type toolConfig = Some "mcp_server" ->
  ToolConfig.server_url toolConfig <> EmptyString ->
  ToolConfig.expose_remote_tools toolConfig = Some true ->
  loadSingleTool this toolConfig w =
  loadRemoteMcpTools this toolConfig (new_McpProxyExecutor (proxy_options toolConfig)) w.
Proof.
  intros Hname Hen Htype Hurl Hexp. unfold loadSingleTool.
  apply StrFacts.nonempty_true in Hname. rewrite Hname. cbn [negb].
  rewrite bool_decide_eq_false_2 by assumption.
  unfold bind at 1. rewrite createExecutor_proxy by assumption.
  rewrite bool_decide_eq_true_2 by assumption. rewrite Hexp. reflexivity.
Qed.

End DiscoveryOfPing.

(** Through the registry the arguments are normalized first: the request
    of a bound tool carries the preprocessed arguments. *)
Lemma executeTool_bound_sends `{RT : Runtime} this name toolConfig proxy toolName args w :
  tools this !! name = Some (mkRegisteredTool toolConfig (BoundRemoteTool proxy toolName)) ->
  truthy toolName = true ->
  sent (snd (executeTool this name args w)) =
  sent w ++ [rpc_request proxy (Some (JStr "tools/call"))
               (Some (JObj [("name", toolName);
                            ("arguments", JObj (argPreprocessor this args))]))].
Proof.
  intros Hget Ht. unfold executeTool. rewrite Hget. cbn [executor validateArguments].
  unfold bind, attempt, ret, try_catch. cbn [execute].
  pose proof (callTool_sends proxy (argPreprocessor this args) toolName w Ht) as Hs.
  destruct (callTool proxy (argPreprocessor this args) (Some toolName) w) as [[res|e] w1];
    cbn [snd] in *; [assumption |].
  unfold log. cbn [snd sent]. assumption.
Qed.

(** C4, as stated, fails for arguments that hold a path of the host: the
    tool that discovery registers as remote_ping is dispatched by
    executeTool, which normalizes the arguments before the executor sees
    them, so the request carries /var/www/html/a.php where the caller gave
    /workspace/a.php. *)
Lemma dispatch_by_name_rewrites_arguments :
  fst (@loadSingleTool ping_server empty_registry remote_config empty_world)
  = Ret (1%nat,
         tools_set empty_registry "remote_ping"
           (mkRegisteredTool
              (wrapped_config remote_config "remote_ping" (JObj [("name", JStr "ping")]))
              (BoundRemoteTool (@new_McpProxyExecutor ping_server (proxy_options remote_config))
                               (JStr "ping"))))
  /\ sent (snd (@executeTool ping_server
                  (tools_set empty_registry "remote_ping"
                     (mkRegisteredTool
                        (wrapped_config remote_config "remote_ping"
                           (JObj [("name", JStr "ping")]))
                        (BoundRemoteTool (@new_McpProxyExecutor ping_server
                                            (proxy_options remote_config))
                                         (JStr "ping"))))
                  "remote_ping" [("file", JStr "/workspace/a.php")] empty_world))
     = [ping_call "http://mcp.test/rpc" [("Content-Type", "application/json")]
          [("file", JStr "/var/www/html/a.php")]]
  /\ ping_call "http://mcp.test/rpc" [("Content-Type", "application/json")]
       [("file", JStr "/var/www/html/a.php")]
     <> ping_call "http://mcp.test/rpc" [("Content-Type", "application/json")]
          [("file", JStr "/workspace/a.php")].
Proof.
  split; [| split].
  - destruct (@loadRemoteMcpTools_ping ping_server empty_registry remote_config empty_world
                eq_refl eq_refl eq_refl eq_refl) as (w' & Hload & _).
    rewrite (@loadSingleTool_ping ping_server);
      [now rewrite Hload | discriminate | discriminate | reflexivity | discriminate
      | reflexivity].
  - rewrite (@executeTool_bound_sends ping_server _ "remote_ping"
               (wrapped_config remote_config "remote_ping" (JObj [("name", JStr "ping")]))
               (@new_McpProxyExecutor ping_server (proxy_options remote_config))
               (JStr "ping"));
      [reflexivity | apply lookup_insert_eq | reflexivity].
  - discriminate.
Qed.

(** C4, amended: for a proxy definition with discovery enabled (named,
    not disabled, with a server URL) and the prefix remote_, whose server
    answers tools/list in time with one tool named ping, loading returns 1
    and registers exactly one tool, remote_ping, bound to ping on that
    proxy; dispatching that tool by its name with any arguments sends one
    JSON-RPC request tools/call whose params are the name ping and the
    arguments after path normalization, which are the arguments themselves
    when normalization leaves them as they are; and the bound executor
    sends the arguments it is handed. *)
Theorem discovery_registers_remote_ping `{RT : Runtime}
  (this : ToolRegistry) (toolConfig : ToolConfig.t) (w : World) :
  ToolConfig.name toolConfig <> EmptyString ->
  ToolConfig.enabled toolConfig <> Some false ->
  ToolConfig.type toolConfig = Some "mcp_server" ->
  ToolConfig.server_url toolConfig <> EmptyString ->
  ToolConfig.expose_remote_tools toolConfig = Some true ->
  ToolConfig.tool_prefix toolConfig = Some "remote_" ->
  reply_outcome (fetch (sent w) (list_request toolConfig))
  = RespJson (JObj [("tools", JArr [JObj [("name", JStr "ping")]])]) ->
  (reply_after (fetch (sent w) (list_request toolConfig))
   < timeout (new_McpProxyExecutor (proxy_options toolConfig)))%N ->
  (reply_after (fetch (sent w) (list_request toolConfig)) +
   body_after (fetch (sent w) (list_request toolConfig))
   < default 30 (ToolConfig.init_timeout toolConfig) * 1000)%N ->
  exists this' w',
    loadSingleTool this toolConfig w = (Ret (1%nat, this'), w')
    /\ tools this' !! "remote_ping"
       = Some (mkRegisteredTool
                 (wrapped_config toolConfig "remote_ping" (JObj [("name", JStr "ping")]))
                 (BoundRemoteTool (new_McpProxyExecutor (proxy_options toolConfig))
                                  (JStr "ping")))
    /\ (forall name, name <> "remote_ping" -> tools this' !! name = tools this !! name)
    /\ (forall args w2,
           sent (snd (executeTool this' "remote_ping" args w2))
           = sent w2 ++
             [ping_call (ToolConfig.server_url toolConfig)
                (headers (new_McpProxyExecutor (proxy_options toolConfig)))
                (normalizePaths args
                   (BridgeConfig.hostProjectRoot (registry_config this))
                   (BridgeConfig.containerProjectRoot (registry_config this)))])
    /\ (forall args w2,
           normalizePaths args
             (BridgeConfig.hostProjectRoot (registry_config this))
             (BridgeConfig.containerProjectRoot (registry_config this)) = args ->
           sent (snd (executeTool this' "remote_ping" args w2))
           = sent w2 ++
             [ping_call (ToolConfig.server_url toolConfig)
                (headers (new_McpProxyExecutor (proxy_options toolConfig))) args])
    /\ (forall args w2,
           sent (snd (execute (BoundRemoteTool (new_McpProxyExecutor (proxy_options toolConfig))
                                               (JStr "ping")) args w2))
           = sent w2 ++
             [ping_call (ToolConfig.server_url toolConfig)
                (headers (new_McpProxyExecutor (proxy_options toolConfig))) args]).
Proof.
  intros Hname Hen Htype Hurl Hexp Hprefix Hj Ht Hinit.
  destruct (loadRemoteMcpTools_ping this toolConfig w Hprefix Hj Ht Hinit) as (w' & Hload & _).
  eexists. exists w'.
  assert (Hdispatch : forall args w2,
             sent (snd (executeTool
                          (tools_set this "remote_ping"
                             (mkRegisteredTool
                                (wrapped_config toolConfig "remote_ping"
                                   (JObj [("name", JStr "ping")]))
                                (BoundRemoteTool (new_McpProxyExecutor (proxy_options toolConfig))
                                                 (JStr "ping"))))
                          "remote_ping" args w2))
             = sent w2 ++
               [ping_call (ToolConfig.server_url toolConfig)
                  (headers (new_McpProxyExecutor (proxy_options toolConfig)))
                  (normalizePaths args
                     (BridgeConfig.hostProjectRoot (registry_config this))
                     (BridgeConfig.containerProjectRoot (registry_config this)))]).
  { intros args w2.
    rewrite (executeTool_bound_sends _ "remote_ping"
               (wrapped_config toolConfig "remote_ping" (JObj [("name", JStr "ping")]))
               (new_McpProxyExecutor (proxy_options toolConfig)) (JStr "ping"));
      [reflexivity | apply lookup_insert_eq | reflexivity]. }
  split; [| split; [| split; [| split; [| split]]]].
  - rewrite loadSingleTool_ping by assumption. exact Hload.
  - cbn [tools_set tools]. apply lookup_insert_eq.
  - intros name Hne. cbn [tools_set tools]. apply lookup_insert_ne. congruence.
  - exact Hdispatch.
  - intros args w2 Hsame. rewrite Hdispatch, Hsame. reflexivity.
  - intros args w2. cbn [execute]. now rewrite callTool_sends.
Qed.

(** The amended C4 on an example: the definition [remote_config] against
    a server that lists ping, and a call with a path of the host. *)
Lemma discovery_registers_remote_ping_example :
  exists this' w',
    @loadSingleTool ping_server empty_registry remote_config empty_world
    = (Ret (1%nat, this'), w')
    /\ (forall name, name <> "remote_ping" -> tools this' !! name = None)
    /\ sent (snd (@executeTool ping_server this' "remote_ping"
                    [("file", JStr "/workspace/a.php")] w'))
       = sent w' ++
         [ping_call "http://mcp.test/rpc" [("Content-Type", "application/json")]
            [("file", JStr "/var/www/html/a.php")]].
Proof.
  destruct (@discovery_registers_remote_ping ping_server empty_registry remote_config
              empty_world) as (this' & w' & Hload & _ & Hother & Hsent & _);
    try reflexivity; try discriminate.
  exists this', w'. split; [exact Hload |]. split.
  - intros name Hne. rewrite (Hother name Hne). reflexivity.
  - exact (Hsent [("file", JStr "/workspace/a.php")] w').
Defined.

(** ** A query failure that reads like a mismatch *)

(** The daemon refuses the query with a message that holds the words
    belongs to. *)
Lemma validateContainer_rethrows_lookalike_failure :
  fst (@validateContainer
         (scripted (fun _ _ => mkProcResult (Some "Command failed") EmptyString
                                 "Error: socket belongs to another user")
                   (fun _ _ => mkHttpReply 0 (RespStatus 500 "down")))
         "web" "default-project" empty_world)
  = Throw (Error ("Command failed: docker inspect --format " +:+ label_format +:+ " web" +:+
                  Str.newline +:+ "Error: socket belongs to another user")).
Proof. reflexivity. Qed.

(** ** The model on small inputs *)

Example split_user :
  Str.split "auto:uid-from-path:/srv/app" ":"%char = ["auto"; "uid-from-path"; "/srv/app"].
Proof. reflexivity. Qed.

Example target_path_default : uid_target_path "auto:uid-from-path" = "/var/www/html".
Proof. reflexivity. Qed.

Example target_path_given : uid_target_path "auto:uid-from-path:/srv/app" = "/srv/app".
Proof. reflexivity. Qed.

Example trim_output : Str.trim ("  33 " +:+ Str.newline) = "33".
Proof. reflexivity. Qed.

(** White space beyond ASCII is stripped as well: a byte order mark in
    front, a line separator behind. *)
Example trim_unicode :
  Str.trim (Str.bytes [239; 187; 191] +:+ "siteB" +:+ Str.bytes [226; 128; 168]) = "siteB".
Proof. reflexivity. Qed.

Example trim_no_break_space :
  Str.trim (Str.bytes [194; 160] +:+ "33" +:+ Str.bytes [194; 160]) = "33"
  /\ Str.trim (Str.bytes [194; 160]) = EmptyString.
Proof. split; reflexivity. Qed.

(** White space inside a string stays, and so does a byte that only ends
    like the encoding of a space. *)
Example trim_inner : Str.trim (" a b" +:+ Str.bytes [195; 160] +:+ " ") = "a b" +:+ Str.bytes [195; 160].
Proof. reflexivity. Qed.

(** A dollar sign in the project name: the matched text, the text before
    the match and a dollar sign itself. *)
Example interpolate_dollar :
  interpolateContainerName
    (mkToolRegistry "/tools" (BridgeConfig.mk "/tools" "a$&b$`c$$d$1" "/workspace" "/var/www/html") ∅)
    "ddev-{DDEV_PROJECT}-web"
  = "ddev-a{DDEV_PROJECT}bddev-c$d$1-web".
Proof. reflexivity. Qed.

Example interpolate_plain :
  interpolateContainerName empty_registry "ddev-{DDEV_PROJECT}-web" = "ddev-default-project-web".
Proof. reflexivity. Qed.

Example placeholders_of_template :
  matchAll_placeholders O "ls {a} {{b}} {} {c d} {e_1}{a}" = ["a"; "b"; "e_1"; "a"].
Proof. reflexivity. Qed.

Example substitute_template :
  @substitute offline O "drush {command} --uri={uri}"
    [("uri", JStr "http://x"); ("command", JStr "status")]
  = Ret "drush status --uri=http://x".
Proof. reflexivity. Qed.

Example substitute_missing :
  @substitute offline O "drush {command} --uri={uri}" [("uri", JStr "http://x")]
  = Throw (Error "Missing required argument: command").
Proof. reflexivity. Qed.

(** A placeholder that names a method every object has is never missing:
    it renders as the text of the method. *)
Example substitute_inherited :
  @substitute offline O "echo {toString}" []
  = Ret "echo function toString() { [native code] }".
Proof. reflexivity. Qed.

(** A value that has no string: the substitution throws a TypeError. *)
Example substitute_unprintable :
  @substitute offline O "echo {x}" [("x", JObj [("toString", JNum 1%float)])]
  = Throw (TypeError "Cannot convert object to primitive value").
Proof. reflexivity. Qed.

(** An entry under the name __proto__ is no property of the normalized
    object. *)
Example normalizePaths_proto :
  normalizePaths [("__proto__", JObj [("command", JStr "rm")]); ("path", JStr "/workspace/a")]
    "/workspace" "/var/www/html"
  = [("path", JStr "/var/www/html/a")].
Proof. reflexivity. Qed.

Example spread_supplied_wins :
  Obj.spread [("a", JStr "1"); ("b", JStr "2")] [("b", JStr "3"); ("c", JStr "4")]
  = [("a", JStr "1"); ("b", JStr "3"); ("c", JStr "4")].
Proof. reflexivity. Qed.

Example sg_quote_words : sg_quote "stat -c %u /var/www/html" = "'stat -c %u /var/www/html'".
Proof. reflexivity. Qed.

Example inspect_call_text :
  inspect_call "web" =
  mkProcCall "sg"
    ["docker"; "-c";
     "docker inspect --format '{{index .Config.Labels " +:+ Str.dquote +:+
     "com.ddev.site-name" +:+ Str.dquote +:+ "}}' web"].
Proof. reflexivity. Qed.

Example unsafe_shell_message :
  validateStaticSafety ["/bin/bash; curl evil"; "-c"]
  = Throw (Error ("Dangerous character " +:+ Str.dquote +:+ ";" +:+ Str.dquote +:+
                  " in static value: " +:+ Str.dquote +:+ "/bin/bash; curl evil" +:+
                  Str.dquote)).
Proof. reflexivity. Qed.

(** A full run: the owner of the web root is looked up and cached, the
    container is validated and cached, and the trimmed output comes back
    with no isError. *)
Example execute_runs :
  fst (@CommandToolExecutor_execute owner_33 guarded_tool
         [("command", JStr "ls"); ("target", JStr "/tmp")] empty_world)
  = Ret (mkResult (JStr "site") None)
  /\ spawned (snd (@CommandToolExecutor_execute owner_33 guarded_tool
                     [("command", JStr "ls"); ("target", JStr "/tmp")] empty_world))
     = [stat_call "web" "/var/www/html";
        inspect_call "web";
        docker_call ["exec"; "-u"; "33"; "web"; "/bin/bash"; "-c"; "ls /tmp"]]
  /\ validatedContainers
       (snd (@CommandToolExecutor_execute owner_33 guarded_tool
               [("command", JStr "ls"); ("target", JStr "/tmp")] empty_world))
       !! "web:site" = Some true.
Proof. repeat split. Qed.

(** A mismatch does not stop the run: execute logs it and goes on. *)
Example execute_runs_despite_mismatch :
  fst (@CommandToolExecutor_execute siteA_running guarded_tool_www
         [("command", JStr "ls"); ("target", JStr "/tmp")] empty_world)
  = Ret (mkResult (JStr "siteA") None)
  /\ In (Warn, "Container validation: " +:+ mismatch_message "web" "siteA" "site")
        (logged (snd (@CommandToolExecutor_execute siteA_running guarded_tool_www
                        [("command", JStr "ls"); ("target", JStr "/tmp")] empty_world))).
Proof. split; [reflexivity | vm_compute; tauto]. Qed.

(** A label that docker prints after a byte order mark and before a line
    separator is the project all the same. *)
Example label_is_trimmed :
  fst (@validateContainer
         (scripted (fun _ _ => mkProcResult None
                                 (Str.bytes [239; 187; 191] +:+ "siteB" +:+
                                  Str.bytes [226; 128; 168])
                                 EmptyString)
                   (fun _ _ => mkHttpReply 0 (RespStatus 500 "down")))
         "web" "siteB" empty_world)
  = Ret tt.
Proof. reflexivity. Qed.

(** An owner between no-break spaces is the owner; no-break spaces alone
    are no owner. *)
Example owner_is_trimmed :
  fst (@resolveContainerUser
         (scripted (fun _ _ => mkProcResult None
                                 (Str.bytes [194; 160] +:+ "33" +:+ Str.bytes [194; 160])
                                 EmptyString)
                   (fun _ _ => mkHttpReply 0 (RespStatus 500 "down")))
         "auto:uid-from-path" "web" empty_world)
  = Ret "33"
  /\ fst (@resolveContainerUser
            (scripted (fun _ _ => mkProcResult None (Str.bytes [194; 160]) EmptyString)
                      (fun _ _ => mkHttpReply 0 (RespStatus 500 "down")))
            "auto:uid-from-path" "web" empty_world)
     = Ret "www-data".
Proof. split; reflexivity. Qed.

(** The wildcard project passes whatever the label. *)
Example wildcard_passes :
  fst (@validateContainer siteA_running "web" "default-project" empty_world) = Ret tt.
Proof. reflexivity. Qed.

(** A failed query is passed over with a warning, and cached. *)
Example failed_query_is_skipped :
  fst (@validateContainer offline "web" "siteB" empty_world) = Ret tt
  /\ validatedContainers (snd (@validateContainer offline "web" "siteB" empty_world))
       !! "web:siteB" = Some true.
Proof. split; reflexivity. Qed.

(** A successful owner lookup is cached and returned. *)
Example owner_is_resolved :
  fst (@resolveContainerUser owner_33 "auto:uid-from-path:/srv/app" "web" empty_world)
  = Ret "33"
  /\ uidCache (snd (@resolveContainerUser owner_33 "auto:uid-from-path:/srv/app" "web"
                      empty_world)) !! "web:/srv/app" = Some "33".
Proof. split; reflexivity. Qed.

(** Through the registry: the tool found by discovery is called with
    normalized arguments. *)
Example executeTool_remote_ping :
  sent (snd (@executeTool ping_server
               (tools_set empty_registry "remote_ping"
                  (mkRegisteredTool
                     (wrapped_config remote_config "remote_ping" (JObj [("name", JStr "ping")]))
                     (BoundRemoteTool (@new_McpProxyExecutor ping_server
                                         (proxy_options remote_config))
                                      (JStr "ping"))))
               "remote_ping" [("file", JStr "/workspace/a.php")] empty_world))
  = [mkHttpCall "http://mcp.test/rpc" [("Content-Type", "application/json")]
       (JObj [("jsonrpc", JStr "2.0");
              ("method", JStr "tools/call");
              ("params", JObj [("name", JStr "ping");
                               ("arguments", JObj [("file", JStr "/var/www/html/a.php")])]);
              ("id", JNum 1%float)])].
Proof. reflexivity. Qed.

(** * Further properties of the sources *)

(** ** executors/mcp-proxy.ts: calls *)

Section ProxyCalls.
Context `{RT : Runtime}.

(** What [rpc] leaves behind, whatever the answer. *)
Lemma rpc_world this method params w :
  snd (rpc this method params w) =
  mkWorld (validatedContainers w) (uidCache w) (spawned w)
          (sent w ++ [rpc_request this method params]) (logged w)
          (clock w + elapsed this w (rpc_request this method params)).
Proof.
  unfold rpc, bind, send, elapsed, answered.
  destruct (reply_after _ <? timeout this)%N; [destruct (reply_outcome _) |]; reflexivity.
Qed.

(** A request that is not answered in time is aborted. *)
Lemma rpc_aborted this method params w :
  answered this w (rpc_request this method params) = false ->
  fst (rpc this method params w) = Throw AbortError.
Proof.
  unfold answered. intros H. unfold rpc, bind, send. now rewrite H.
Qed.

Lemma rpc_status this method params w status statusText :
  answered this w (rpc_request this method params) = true ->
  reply_outcome (fetch (sent w) (rpc_request this method params))
  = RespStatus status statusText ->
  fst (rpc this method params w)
  = Throw (Error ("HTTP " +:+ pretty status +:+ ": " +:+ statusText)).
Proof.
  unfold answered. intros Ha Ho. unfold rpc, bind, send. now rewrite Ha, Ho.
Qed.

(** [callTool] as one [rpc] followed by [parseResponse], inside its [try]. *)
Lemma callTool_unfold this args toolName :
  callTool this args toolName =
  try_catch
    (result <- rpc this (Obj.get (call_payload this args toolName) "method")
                        (Obj.get (call_payload this args toolName) "params") ;;
     lift (parseResponse result))
    (fun e =>
       if String.eqb (err_name e) "AbortError"
       then ret (mkResult (JStr ("Request timeout after " +:+
                                 pretty (timeout this / 1000)%N +:+ "s")) (Some true))
       else
         log Err ("MCP proxy error: " +:+ Error_toString e) ;;
         ret (mkResult (JStr ("Error: " +:+ err_message e)) (Some true))).
Proof. reflexivity. Qed.

Lemma callTool_run this args toolName w :
  fst (callTool this args toolName w) =
  Ret (match fst (rpc this (Obj.get (call_payload this args toolName) "method")
                           (Obj.get (call_payload this args toolName) "params") w) with
       | Ret j => match parseResponse j with
                  | Ret result => result
                  | Throw e => caught this e
                  end
       | Throw e => caught this e
       end)
  /\ sent (snd (callTool this args toolName w)) = sent w ++ [call_request this args toolName]
  /\ spawned (snd (callTool this args toolName w)) = spawned w
  /\ validatedContainers (snd (callTool this args toolName w)) = validatedContainers w
  /\ uidCache (snd (callTool this args toolName w)) = uidCache w
  /\ clock (snd (callTool this args toolName w)) =
     (clock w + elapsed this w (call_request this args toolName))%N.
Proof.
  rewrite callTool_unfold. unfold try_catch, bind, lift, caught, call_request.
  pose proof (rpc_world this (Obj.get (call_payload this args toolName) "method")
                (Obj.get (call_payload this args toolName) "params") w) as Hw.
  destruct (rpc this _ _ w) as [[j|e] w1]; cbn [fst snd] in *; subst w1.
  - destruct (parseResponse j) as [result|e]; cbn [fst snd]; [repeat split |].
    destruct (String.eqb (err_name e) "AbortError"); run_js; repeat split.
  - destruct (String.eqb (err_name e) "AbortError"); run_js; repeat split.
Qed.

End ProxyCalls.

(** X1: whatever the server answers, and whether it answers at all,
    callTool returns an envelope and does not throw; it posts exactly one
    request, starts no process and leaves both caches of docker.ts as they
    were.  The abort timer of the proxy bounds the wait for the response,
    not the call: the call ends when the response and its body are there,
    or when the timer fires before the response. *)
Theorem callTool_returns_after_one_request `{RT : Runtime}
  (this : McpProxyExecutor) (args : JsObject) (toolName : option Json) (w : World) :
  exists result w',
    callTool this args toolName w = (Ret result, w')
    /\ sent w' = sent w ++ [call_request this args toolName]
    /\ spawned w' = spawned w
    /\ validatedContainers w' = validatedContainers w
    /\ uidCache w' = uidCache w
    /\ clock w'
       = (clock w +
          (if answered this w (call_request this args toolName)
           then reply_after (fetch (sent w) (call_request this args toolName)) +
                reading (fetch (sent w) (call_request this args toolName))
           else timeout this))%N.
Proof.
  destruct (callTool_run this args toolName w) as (Hr & Hs & Hp & Hv & Hu & Hc).
  destruct (callTool this args toolName w) as [r w'] eqn:Hcall. cbn [fst snd] in *.
  subst r. eexists. exists w'. split; [reflexivity |].
  repeat (split; [assumption |]). exact Hc.
Qed.

(** A server that answers at once and then takes a minute over the body:
    the call returns the result after that minute, well past the ten
    seconds of the abort timer. *)
Example callTool_slow_body :
  @callTool (scripted (fun _ _ => mkProcResult None EmptyString EmptyString)
                      (fun _ _ => mkReply 5 (RespJson (JObj [("result", JStr "pong")])) 60000))
    (mkMcpProxyExecutor "http://mcp.test/rpc" true 10000 [])
    [] (Some (JStr "ping")) empty_world
  = (Ret (mkResult (JStr "pong") None),
     mkWorld ∅ ∅ []
       [rpc_request (mkMcpProxyExecutor "http://mcp.test/rpc" true 10000 [])
          (Some (JStr "tools/call"))
          (Some (JObj [("name", JStr "ping"); ("arguments", JObj [])]))]
       [] 60005).
Proof. reflexivity. Qed.

(** X2: a call that the server does not answer before the abort timer of
    the proxy fires ends in the timeout envelope, which names the timeout
    of the options in seconds (10 when the options give none); the call
    takes exactly that long and logs nothing. *)
Theorem callTool_timeout_envelope `{RT : Runtime}
  (options : McpProxyOptions) (args : JsObject) (toolName : option Json) (w : World) :
  answered (new_McpProxyExecutor options) w
           (call_request (new_McpProxyExecutor options) args toolName) = false ->
  fst (callTool (new_McpProxyExecutor options) args toolName w)
  = Ret (mkResult (JStr ("Request timeout after " +:+
                         pretty (default 10%N (opt_timeout options)) +:+ "s"))
                  (Some true))
  /\ clock (snd (callTool (new_McpProxyExecutor options) args toolName w))
     = (clock w + default 10 (opt_timeout options) * 1000)%N
  /\ logged (snd (callTool (new_McpProxyExecutor options) args toolName w)) = logged w.
Proof.
  intros Hna. set (this := new_McpProxyExecutor options) in *.
  destruct (callTool_run this args toolName w) as (Hr & _ & _ & _ & _ & Hc).
  pose proof (rpc_aborted this _ _ w Hna) as Hab. fold (call_request this args toolName) in Hna.
  split; [| split].
  - rewrite Hr, Hab. unfold caught. cbn [err_name AbortError String.eqb Ascii.eqb Bool.eqb].
    replace (timeout this / 1000)%N with (default 10%N (opt_timeout options)); [reflexivity |].
    unfold this, new_McpProxyExecutor. cbn [timeout]. now rewrite N.div_mul.
  - rewrite Hc. unfold elapsed. rewrite Hna. reflexivity.
  - rewrite callTool_unfold. unfold try_catch, bind.
    pose proof (rpc_world this (Obj.get (call_payload this args toolName) "method")
                  (Obj.get (call_payload this args toolName) "params") w) as Hw.
    destruct (rpc this _ _ w) as [[j|e] w1]; cbn [fst snd] in *; [discriminate |].
    injection Hab as ->. subst w1. reflexivity.
Qed.

(** X2 on an example: no server answers the default proxy within ten
    seconds. *)
Lemma callTool_timeout_envelope_example :
  fst (@callTool offline
         (@new_McpProxyExecutor offline
            (mkMcpProxyOptions "http://mcp.test/rpc" None None None None None None None))
         [("q", JStr "x")] (Some (JStr "search")) empty_world)
  = Ret (mkResult (JStr "Request timeout after 10s") (Some true)).
Proof.
  exact (proj1 (@callTool_timeout_envelope offline
                  (mkMcpProxyOptions "http://mcp.test/rpc" None None None None None None None)
                  [("q", JStr "x")] (Some (JStr "search")) empty_world eq_refl)).
Defined.

(** X3: a reply that arrives in time with a status outside 2xx is not
    parsed: the call ends in an error envelope that gives the status and
    its text, and the error is logged. *)
Theorem callTool_http_status_envelope `{RT : Runtime}
  (this : McpProxyExecutor) (args : JsObject) (toolName : option Json) (w : World)
  (status : N) (statusText : string) :
  answered this w (call_request this args toolName) = true ->
  reply_outcome (fetch (sent w) (call_request this args toolName))
  = RespStatus status statusText ->
  fst (callTool this args toolName w)
  = Ret (mkResult (JStr ("Error: HTTP " +:+ pretty status +:+ ": " +:+ statusText))
                  (Some true))
  /\ logged (snd (callTool this args toolName w))
     = logged w ++ [(Err, "MCP proxy error: Error: HTTP " +:+ pretty status +:+ ": " +:+
                          statusText)].
Proof.
  intros Ha Ho.
  pose proof (rpc_status this _ _ w status statusText Ha Ho) as Hst.
  split.
  - destruct (callTool_run this args toolName w) as (Hr & _). rewrite Hr, Hst. reflexivity.
  - rewrite callTool_unfold. unfold try_catch, bind.
    pose proof (rpc_world this (Obj.get (call_payload this args toolName) "method")
                  (Obj.get (call_payload this args toolName) "params") w) as Hw.
    destruct (rpc this _ _ w) as [[j|e] w1]; cbn [fst snd] in *; [discriminate |].
    injection Hst as ->. subst w1. reflexivity.
Qed.

(** X3 on an example: a server that is down answers 503. *)
Lemma callTool_http_status_envelope_example :
  fst (@callTool (scripted (fun _ _ => mkProcResult None EmptyString EmptyString)
                           (fun _ _ => mkHttpReply 20 (RespStatus 503 "Service Unavailable")))
         (mkMcpProxyExecutor "http://mcp.test/rpc" true 10000 [])
         [] (Some (JStr "ping")) empty_world)
  = Ret (mkResult (JStr "Error: HTTP 503: Service Unavailable") (Some true)).
Proof.
  exact (proj1 (@callTool_http_status_envelope
                  (scripted (fun _ _ => mkProcResult None EmptyString EmptyString)
                            (fun _ _ => mkHttpReply 20 (RespStatus 503 "Service Unavailable")))
                  (mkMcpProxyExecutor "http://mcp.test/rpc" true 10000 [])
                  [] (Some (JStr "ping")) empty_world 503%N "Service Unavailable"
                  eq_refl eq_refl)).
Defined.

(** ** executors/mcp-proxy.ts: replies *)



(** ** executors/mcp-proxy.ts: the list of remote tools *)

Section ProxyList.
Context `{RT : Runtime}.

(** Logging changes neither what [rpc] answers nor what it leaves behind,
    apart from the log. *)
Lemma rpc_after_log this method params w entry :
  rpc this method params
    (mkWorld (validatedContainers w) (uidCache w) (spawned w) (sent w)
             (logged w ++ [entry]) (clock w)) =
  (fst (rpc this method params w),
   mkWorld (validatedContainers w) (uidCache w) (spawned w)
           (sent w ++ [rpc_request this method params]) (logged w ++ [entry])
           (clock w + elapsed this w (rpc_request this method params))).
Proof.
  unfold rpc, bind, send, elapsed, answered.
  cbn [validatedContainers uidCache spawned sent logged clock].
  destruct (reply_after _ <? timeout this)%N; [destruct (reply_outcome _) |]; reflexivity.
Qed.

(** Every run of [fetchRemoteTools]: it returns, and the world it leaves. *)
Lemma fetchRemoteTools_run this w :
  exists tools msgs,
    fetchRemoteTools this w =
    (Ret tools,
     mkWorld (validatedContainers w) (uidCache w) (spawned w)
             (sent w ++ [tools_list_request this]) (logged w ++ msgs)
             (clock w + elapsed this w (tools_list_request this)))
    /\ (forall e, fst (rpc this (Some (JStr "tools/list")) (Some (JObj [])) w) = Throw e ->
                  tools = []).
Proof.
  unfold fetchRemoteTools, tools_list_request. unfold bind at 1, log at 1, try_catch, bind at 1.
  rewrite rpc_after_log.
  destruct (fst (rpc this (Some (JStr "tools/list")) (Some (JObj [])) w)) as [j|e].
  - destruct j as [| b | x | s | l | r]; run_js; rewrite <- ?app_assoc;
      do 2 eexists; (split; [reflexivity | discriminate]).
  - run_js. rewrite <- app_assoc. do 2 eexists. split; [reflexivity | reflexivity].
Qed.

(** The list of [fetchRemoteTools] is read off the outcome of its request. *)
Lemma fetchRemoteTools_fst this w :
  fst (fetchRemoteTools this w) =
  Ret (match fst (rpc this (Some (JStr "tools/list")) (Some (JObj [])) w) with
       | Ret j => listed j
       | Throw _ => []
       end).
Proof.
  unfold fetchRemoteTools. unfold bind at 1, log at 1, try_catch, bind at 1.
  rewrite rpc_after_log.
  destruct (fst (rpc this (Some (JStr "tools/list")) (Some (JObj [])) w)) as [j|e];
    [destruct j |]; reflexivity.
Qed.

(** What was logged before does not change the list. *)
Lemma fetchRemoteTools_relogged this w l :
  fst (fetchRemoteTools this
         (mkWorld (validatedContainers w) (uidCache w) (spawned w) (sent w) l (clock w)))
  = fst (fetchRemoteTools this w).
Proof.
  rewrite !fetchRemoteTools_fst. f_equal.
  assert (H : fst (rpc this (Some (JStr "tools/list")) (Some (JObj []))
                     (mkWorld (validatedContainers w) (uidCache w) (spawned w) (sent w) l
                              (clock w)))
              = fst (rpc this (Some (JStr "tools/list")) (Some (JObj [])) w)).
  { unfold rpc, bind, send. cbn [sent].
    destruct (reply_after _ <? timeout this)%N; [destruct (reply_outcome _) |]; reflexivity. }
  now rewrite H.
Qed.

Lemma fetchRemoteTools_after_log this w entry :
  fst (fetchRemoteTools this
         (mkWorld (validatedContainers w) (uidCache w) (spawned w) (sent w)
                  (logged w ++ [entry]) (clock w)))
  = fst (fetchRemoteTools this w).
Proof. apply fetchRemoteTools_relogged. Qed.

Lemma fetched_relogged this w l :
  fetched this (mkWorld (validatedContainers w) (uidCache w) (spawned w) (sent w) l (clock w))
  = fetched this w.
Proof. unfold fetched. now rewrite fetchRemoteTools_relogged. Qed.

End ProxyList.

(** X5: whatever the server does, fetchRemoteTools returns a list and does
    not throw; it posts exactly one tools/list request, starts no process
    and leaves the caches alone; and when the request fails for any
    reason, a timeout included, the list is empty. *)
Theorem fetchRemoteTools_returns_a_list `{RT : Runtime} (this : McpProxyExecutor) (w : World) :
  exists tools w',
    fetchRemoteTools this w = (Ret tools, w')
    /\ sent w' = sent w ++ [tools_list_request this]
    /\ spawned w' = spawned w
    /\ validatedContainers w' = validatedContainers w
    /\ uidCache w' = uidCache w
    /\ (answered this w (tools_list_request this) = false -> tools = [])
    /\ (forall status statusText,
           reply_outcome (fetch (sent w) (tools_list_request this))
           = RespStatus status statusText -> tools = [])
    /\ (forall e,
           reply_outcome (fetch (sent w) (tools_list_request this)) = RespFail e -> tools = []).
Proof.
  destruct (fetchRemoteTools_run this w) as (tools & msgs & Hrun & Hfail).
  exists tools. eexists. split; [exact Hrun |]. cbn [sent spawned validatedContainers uidCache].
  repeat (split; [reflexivity |]).
  split; [| split].
  - intros Hna. eapply Hfail. now apply rpc_aborted.
  - intros status statusText Ho.
    destruct (answered this w (tools_list_request this)) eqn:Ha.
    + eapply Hfail. now apply rpc_status with (status := status) (statusText := statusText).
    + eapply Hfail. now apply rpc_aborted.
  - intros e Ho. apply (Hfail (if answered this w (tools_list_request this) then e
                               else AbortError)).
    unfold rpc, bind, send. fold (tools_list_request this). unfold answered.
    destruct (reply_after _ <? timeout this)%N; [rewrite Ho |]; reflexivity.
Qed.

(** X6: the shapes of a tools/list reply that fetchRemoteTools reads.  A
    bare array is the list.  In an object, a tools field that is not null
    decides alone: it is the list when it is an array and gives the empty
    list otherwise, whatever the result field holds.  Only without it is
    the tools field of the result read. *)
Theorem fetchRemoteTools_reads_reply `{RT : Runtime}
  (this : McpProxyExecutor) (w : World) (j : Json) :
  answered this w (tools_list_request this) = true ->
  reply_outcome (fetch (sent w) (tools_list_request this)) = RespJson j ->
  (forall l, j = JArr l -> fst (fetchRemoteTools this w) = Ret l)
  /\ (forall r v,
         j = JObj r -> Obj.get r "tools" = Some v -> v <> JNull ->
         fst (fetchRemoteTools this w) = Ret (match v with JArr l => l | _ => [] end))
  /\ (forall r inner l,
         j = JObj r -> nullish (Obj.get r "tools") = true ->
         Obj.get r "result" = Some (JObj inner) -> Obj.get inner "tools" = Some (JArr l) ->
         fst (fetchRemoteTools this w) = Ret l).
Proof.
  intros Ha Ho.
  assert (Hrpc : fst (rpc this (Some (JStr "tools/list")) (Some (JObj [])) w) = Ret j).
  { unfold rpc, bind, send. fold (tools_list_request this). unfold answered in Ha.
    now rewrite Ha, Ho. }
  assert (Hrun : forall k : Json -> M (list Json),
             fst (try_catch (result <- rpc this (Some (JStr "tools/list")) (Some (JObj [])) ;;
                             k result)
                    (fun e => log Err ("Failed to fetch tools from " +:+ serverUrl this +:+
                                       ": " +:+ Error_toString e) ;; ret [])
                    (mkWorld (validatedContainers w) (uidCache w) (spawned w) (sent w)
                       (logged w ++ [(Info, "Fetching remote tools from " +:+ serverUrl this)])
                       (clock w)))
             = match fst (k j (snd (rpc this (Some (JStr "tools/list")) (Some (JObj []))
                                      (mkWorld (validatedContainers w) (uidCache w) (spawned w)
                                         (sent w)
                                         (logged w ++ [(Info, "Fetching remote tools from " +:+
                                                              serverUrl this)])
                                         (clock w))))) with
               | Ret l => Ret l
               | Throw _ => Ret []
               end).
  { intros k. unfold try_catch, bind at 1. rewrite rpc_after_log, Hrpc. cbn [fst snd].
    destruct (k j _) as [[l|e] w1]; reflexivity. }
  split; [| split].
  - intros l ->. unfold fetchRemoteTools, bind at 1, log at 1. rewrite Hrun. reflexivity.
  - intros r v -> Hv Hnn. unfold fetchRemoteTools, bind at 1, log at 1. rewrite Hrun.
    rewrite Hv. destruct v; try reflexivity. congruence.
  - intros r inner l -> Hn Hres Hl. unfold fetchRemoteTools, bind at 1, log at 1.
    rewrite Hrun, Hn, Hres. cbn [negb nullish from_option]. unfold id.
    change (prop (JObj inner) "tools") with (Obj.get inner "tools"). rewrite Hl. reflexivity.
Qed.

(** X6 on an example: a reply whose tools field is a string, beside a
    result that lists a tool. *)
Lemma fetchRemoteTools_reads_reply_example :
  fst (@fetchRemoteTools
         (scripted (fun _ _ => mkProcResult None EmptyString EmptyString)
                   (fun _ _ => mkHttpReply 5
                      (RespJson (JObj [("tools", JStr "none");
                                       ("result",
                                        JObj [("tools", JArr [JObj [("name", JStr "ping")]])])]))))
         (mkMcpProxyExecutor "http://mcp.test/rpc" true 10000 []) empty_world)
  = Ret [].
Proof.
  exact (proj1 (proj2 (@fetchRemoteTools_reads_reply
                  (scripted (fun _ _ => mkProcResult None EmptyString EmptyString)
                            (fun _ _ => mkHttpReply 5
                               (RespJson (JObj [("tools", JStr "none");
                                                ("result",
                                                 JObj [("tools",
                                                        JArr [JObj [("name", JStr "ping")]])])]))))
                  (mkMcpProxyExecutor "http://mcp.test/rpc" true 10000 []) empty_world _
                  eq_refl eq_refl))
           _ (JStr "none") eq_refl eq_refl ltac:(discriminate)).
Defined.

(** ** registry.ts: loading *)

Section Loop.
Context `{RT : Runtime}.

Lemma extends_refl this : extends this this.
Proof. repeat split; auto. Qed.

Lemma extends_trans a b c : extends a b -> extends b c -> extends a c.
Proof.
  intros (Hd1 & Hc1 & Hk1) (Hd2 & Hc2 & Hk2).
  repeat split; [congruence | congruence | auto].
Qed.

Lemma extends_tools_set this name tool : extends this (tools_set this name tool).
Proof.
  repeat split. intros k Hk. cbn [tools_set tools].
  destruct (decide (name = k)) as [->|Hne].
  - rewrite lookup_insert_eq. eauto.
  - now rewrite lookup_insert_ne.
Qed.

(** One turn of the loop over a remote tool that is not null. *)
Lemma bind_remote_tools_step proxyConfig proxy prefix remote rest this count :
  remote <> JNull ->
  bind_remote_tools proxyConfig proxy prefix (remote :: rest) this count =
  if negb (truthy (default JNull (prop remote "name")))
  then bind_remote_tools proxyConfig proxy prefix rest this count
  else if String_throws (default JNull (prop remote "name"))
  then ret (this, Throw (TypeError "Cannot convert object to primitive value"))
  else
    log Info ("Loaded remote tool: " +:+
              String_of (if Str.nonempty prefix
                         then JStr (prefix +:+ String_of (default JNull (prop remote "name")))
                         else default JNull (prop remote "name")) +:+
              " (from " +:+ String_of (default JNull (prop remote "name")) +:+ ")") ;;
    bind_remote_tools proxyConfig proxy prefix rest
      (match (if Str.nonempty prefix
              then JStr (prefix +:+ String_of (default JNull (prop remote "name")))
              else default JNull (prop remote "name")) with
       | JStr key =>
           tools_set this key
             (mkRegisteredTool
                (wrapped_config proxyConfig
                   (String_of (if Str.nonempty prefix
                               then JStr (prefix +:+
                                          String_of (default JNull (prop remote "name")))
                               else default JNull (prop remote "name")))
                   remote)
                (BoundRemoteTool proxy (default JNull (prop remote "name"))))
       | _ => this
       end)
      (S count).
Proof. intros Hn. destruct remote; [congruence | reflexivity ..]. Qed.

(** What the loop does to the registry and the world, for every list. *)
Lemma bind_remote_tools_inv proxyConfig proxy prefix remoteTools :
  forall this count w,
  exists this' res msgs,
    bind_remote_tools proxyConfig proxy prefix remoteTools this count w =
    (Ret (this', res),
     mkWorld (validatedContainers w) (uidCache w) (spawned w) (sent w)
             (logged w ++ msgs) (clock w))
    /\ extends this this'
    /\ (forall k t, tools this' !! k = Some t ->
                    tools this !! k = Some t
                    \/ discovered proxyConfig proxy prefix remoteTools k t)
    /\ (forall n, res = Ret n -> (count <= n <= count + length remoteTools)%nat).
Proof.
  induction remoteTools as [|remote rest IH]; intros this count w.
  - exists this, (Ret count), []. cbn [bind_remote_tools]. unfold ret.
    rewrite app_nil_r. destruct w. repeat split; auto using extends_refl.
    + injection H as ->. cbn [length]. lia.
    + injection H as ->. cbn [length]. lia.
  - assert (Hcase : remote = JNull \/ remote <> JNull)
      by (destruct remote; [left; reflexivity | right; discriminate ..]).
    destruct Hcase as [->|Hnn].
    + exists this, (Throw (TypeError "Cannot read properties of null (reading 'name')")), [].
      cbn [bind_remote_tools]. unfold ret. rewrite app_nil_r. destruct w.
      repeat split; auto using extends_refl; discriminate.
    + rewrite bind_remote_tools_step by assumption.
      destruct (truthy (default JNull (prop remote "name"))) eqn:Htr; cbn [negb].
      * destruct (String_throws (default JNull (prop remote "name"))) eqn:Hthrows.
        { exists this, (Throw (TypeError "Cannot convert object to primitive value")), [].
          unfold ret. rewrite app_nil_r. destruct w.
          repeat split; auto using extends_refl; discriminate. }
        unfold bind, log.
        match goal with
        | |- context [bind_remote_tools _ _ _ rest ?t ?c ?w0] =>
            destruct (IH t c w0) as (this' & res & msgs & Hrun & Hext & Hprov & Hcount)
        end.
        rewrite Hrun. cbn [validatedContainers uidCache spawned sent logged clock].
        exists this', res. eexists. rewrite <- app_assoc. split; [reflexivity |].
        assert (Hname : exists rn, prop remote "name" = Some rn /\ truthy rn = true
                                   /\ default JNull (prop remote "name") = rn).
        { destruct (prop remote "name") as [rn|]; [eauto | discriminate Htr]. }
        destruct Hname as (rn & Hprop & Htrn & Hrn). rewrite Hrn in *.
        split; [| split].
        -- eapply extends_trans; [| exact Hext].
           destruct (if Str.nonempty prefix then JStr (prefix +:+ String_of rn) else rn);
             auto using extends_refl, extends_tools_set.
        -- intros k t Hk. destruct (Hprov k t Hk) as [Hold | Hd].
           ++ assert (Hkey : forall key,
                         (if Str.nonempty prefix then JStr (prefix +:+ String_of rn) else rn)
                         = JStr key -> key = prefix +:+ String_of rn).
              { intros key. destruct (Str.nonempty prefix) eqn:Hp.
                - congruence.
                - intros ->. apply StrFacts.nonempty_false in Hp. now subst prefix. }
              destruct (if Str.nonempty prefix then JStr (prefix +:+ String_of rn) else rn)
                as [| b | x | key | l | o] eqn:Hloc; auto.
              cbn [tools_set tools] in Hold.
              destruct (decide (key = k)) as [->|Hne].
              ** rewrite lookup_insert_eq in Hold. injection Hold as <-.
                 right. exists remote, rn. cbn [executor config String_of].
                 repeat split; auto; left; reflexivity.
              ** rewrite lookup_insert_ne in Hold by assumption. auto.
           ++ right. destruct Hd as (rm & rn' & Hin & Hd). exists rm, rn'.
              split; [right; exact Hin | exact Hd].
        -- intros n Hn. specialize (Hcount n Hn). cbn [length]. lia.
      * destruct (IH this count w) as (this' & res & msgs & Hrun & Hext & Hprov & Hcount).
        exists this', res, msgs. split; [exact Hrun |]. split; [exact Hext |]. split.
        -- intros k t Hk. destruct (Hprov k t Hk) as [Hold | Hd]; [auto |].
           right. destruct Hd as (rm & rn' & Hin & Hd). exists rm, rn'.
           split; [right; exact Hin | exact Hd].
        -- intros n Hn. specialize (Hcount n Hn). cbn [length]. lia.
Qed.

End Loop.

Section Remote.
Context `{RT : Runtime}.

(** Every run of [loadRemoteMcpTools]. *)
Lemma loadRemoteMcpTools_inv this proxyConfig proxy w :
  exists n this' w',
    loadRemoteMcpTools this proxyConfig proxy w = (Ret (n, this'), w')
    /\ extends this this'
    /\ quiet w w'
    /\ sent w' = sent w ++ [tools_list_request proxy]
    /\ ((n <= length (fetched proxy w))%nat
        /\ forall k t, tools this' !! k = Some t ->
                       tools this !! k = Some t
                       \/ discovered proxyConfig proxy
                            (default EmptyString (ToolConfig.tool_prefix proxyConfig))
                            (fetched proxy w) k t)
    /\ ((exists e, fst (rpc proxy (Some (JStr "tools/list")) (Some (JObj [])) w) = Throw e)
        \/ (default 30 (ToolConfig.init_timeout proxyConfig) * 1000
            <= elapsed proxy w (tools_list_request proxy))%N ->
        n = O /\ this' = this).
Proof.
  unfold loadRemoteMcpTools. unfold bind at 1, log at 1. unfold bind at 1, attempt, race_timer.
  match goal with
  | |- context [fetchRemoteTools proxy ?w0] =>
      destruct (fetchRemoteTools_run proxy w0) as (remoteTools & msgs & Hrun & Hfail);
      pose proof (fetchRemoteTools_after_log proxy w
                    (Info, "Fetching remote tools from: " +:+ ToolConfig.name proxyConfig))
        as Hlist;
      rewrite Hrun in Hlist; cbn [fst] in Hlist;
      rewrite Hrun; clear Hrun;
      pose proof (rpc_after_log proxy (Some (JStr "tools/list")) (Some (JObj [])) w
                    (Info, "Fetching remote tools from: " +:+ ToolConfig.name proxyConfig))
        as Hsame;
      apply (f_equal fst) in Hsame; cbn [fst] in Hsame; rewrite Hsame in Hfail; clear Hsame
  end.
  assert (Hfetched : fetched proxy w = remoteTools) by (unfold fetched; now rewrite <- Hlist).
  rewrite Hfetched. clear Hlist Hfetched.
  cbn [validatedContainers uidCache spawned sent logged clock].
  change (elapsed proxy _ (tools_list_request proxy))
    with (elapsed proxy w (tools_list_request proxy)).
  replace (clock w + elapsed proxy w (tools_list_request proxy) - clock w)%N
    with (elapsed proxy w (tools_list_request proxy)) by lia.
  destruct (N.ltb_spec (elapsed proxy w (tools_list_request proxy))
                       (default 30 (ToolConfig.init_timeout proxyConfig) * 1000)%N) as [Hlt|Hge].
  - destruct remoteTools as [|remote rest].
    + run_js. do 3 eexists. split; [reflexivity |].
      split; [apply extends_refl |]. split; [repeat split |]. split; [reflexivity |].
      split; [split; [cbn; lia | auto] | auto].
    + unfold bind at 1.
      match goal with
      | |- context [bind_remote_tools ?pc ?p ?pre ?l ?t ?c ?w0] =>
          destruct (bind_remote_tools_inv pc p pre l t c w0)
            as (this' & res & msgs' & Hloop & Hext & Hprov & Hcount);
          rewrite Hloop; clear Hloop
      end.
      cbn [validatedContainers uidCache spawned sent logged clock].
      assert (Hnofail : ~ ((exists e, fst (rpc proxy (Some (JStr "tools/list"))
                                             (Some (JObj [])) w) = Throw e)
                           \/ (default 30 (ToolConfig.init_timeout proxyConfig) * 1000
                               <= elapsed proxy w (tools_list_request proxy))%N)).
      { intros [[e He] | Hle]; [specialize (Hfail e He); discriminate | lia]. }
      destruct res as [count|e]; run_js.
      * do 3 eexists. split; [reflexivity |].
        split; [exact Hext |]. split; [repeat split |]. split; [reflexivity |].
        split; [| intros Hf; contradiction].
        split; [| exact Hprov].
        specialize (Hcount count eq_refl). lia.
      * do 3 eexists. split; [reflexivity |].
        split; [exact Hext |]. split; [repeat split |]. split; [reflexivity |].
        split; [| intros Hf; contradiction].
        split; [cbn; lia | exact Hprov].
  - run_js. do 3 eexists. split; [reflexivity |].
    split; [apply extends_refl |]. split; [repeat split |]. split; [reflexivity |].
    split; [split; [lia | auto] | auto].
Qed.

(** The executor of a definition is built without touching the world,
    apart from the log. *)
Lemma createExecutor_inv this toolConfig w :
  exists created msgs,
    createExecutor this toolConfig w =
    (Ret created,
     mkWorld (validatedContainers w) (uidCache w) (spawned w) (sent w)
             (logged w ++ msgs) (clock w))
    /\ (forall proxy, created = Some (McpProxy proxy) ->
                      proxy = new_McpProxyExecutor (proxy_options toolConfig))
    /\ (forall proxy rn, created <> Some (BoundRemoteTool proxy rn)).
Proof.
  unfold createExecutor, try_catch, construct_executor.
  destruct (String.eqb (default "command" (ToolConfig.type toolConfig)) "command").
  - destruct (negb (Str.nonempty (ToolConfig.command_template toolConfig))).
    + run_js. do 2 eexists. split; [reflexivity |]. split; intros; discriminate.
    + unfold bind, lift. destruct (new_CommandToolExecutor _) as [c|e]; run_js.
      * exists (Some (Command c)), []. rewrite app_nil_r. destruct w.
        split; [reflexivity |]. split; intros; discriminate.
      * do 2 eexists. split; [reflexivity |]. split; intros; discriminate.
  - destruct (String.eqb (default "command" (ToolConfig.type toolConfig)) "mcp_server").
    + destruct (negb (Str.nonempty (ToolConfig.server_url toolConfig))); run_js.
      * do 2 eexists. split; [reflexivity |]. split; intros; discriminate.
      * eexists. exists []. rewrite app_nil_r. destruct w.
        split; [reflexivity |]. split; [intros proxy [= <-]; reflexivity | intros; discriminate].
    + run_js. do 2 eexists. split; [reflexivity |]. split; intros; discriminate.
Qed.

End Remote.

Section Single.
Context `{RT : Runtime}.

(** Every run of [loadSingleTool]. *)
Lemma loadSingleTool_inv this toolConfig w :
  exists n this' w',
    loadSingleTool this toolConfig w = (Ret (n, this'), w')
    /\ extends this this'
    /\ quiet w w'
    /\ (sent w' = sent w \/ sent w' = sent w ++ [list_request toolConfig])
    /\ (forall k t,
           tools this' !! k = Some t ->
           tools this !! k = Some t
           \/ (k = ToolConfig.name toolConfig /\ config t = toolConfig
               /\ forall proxy rn, executor t <> BoundRemoteTool proxy rn)
           \/ discovered toolConfig (new_McpProxyExecutor (proxy_options toolConfig))
                (default EmptyString (ToolConfig.tool_prefix toolConfig))
                (fetched (new_McpProxyExecutor (proxy_options toolConfig)) w) k t).
Proof.
  unfold loadSingleTool.
  destruct (negb (Str.nonempty (ToolConfig.name toolConfig))).
  { run_js. do 3 eexists. split; [reflexivity |].
    split; [apply extends_refl |]. split; [repeat split |]. split; [left; reflexivity | auto]. }
  destruct (bool_decide (ToolConfig.enabled toolConfig = Some false)).
  { run_js. do 3 eexists. split; [reflexivity |].
    split; [apply extends_refl |]. split; [repeat split |]. split; [left; reflexivity | auto]. }
  unfold bind at 1.
  destruct (createExecutor_inv this toolConfig w) as (created & msgs & Hcreate & Hproxy & Hnb).
  rewrite Hcreate. clear Hcreate.
  destruct created as [ex|].
  2: { run_js. do 3 eexists. split; [reflexivity |].
       split; [apply extends_refl |]. split; [repeat split |]. split; [left; reflexivity | auto]. }
  destruct (bool_decide (ToolConfig.type toolConfig = Some "mcp_server") &&
            default false (ToolConfig.expose_remote_tools toolConfig)).
  - destruct ex as [c | proxy | proxy rn].
    + run_js. do 3 eexists. split; [reflexivity |].
      split; [apply extends_refl |]. split; [repeat split |]. split; [left; reflexivity | auto].
    + rewrite (Hproxy proxy eq_refl).
      match goal with
      | |- context [loadRemoteMcpTools this toolConfig ?p ?w0] =>
          destruct (loadRemoteMcpTools_inv this toolConfig p w0)
            as (n & this' & w' & Hrun & Hext & Hq & Hsent & (_ & Hprov) & _)
      end.
      rewrite fetched_relogged in Hprov.
      exists n, this', w'. split; [exact Hrun |]. split; [exact Hext |].
      split; [exact Hq |]. split; [right; exact Hsent |].
      intros k t Hk. destruct (Hprov k t Hk) as [Hold|Hd]; [auto |].
      right. right. exact Hd.
    + run_js. do 3 eexists. split; [reflexivity |].
      split; [apply extends_refl |]. split; [repeat split |]. split; [left; reflexivity | auto].
  - run_js. do 3 eexists. split; [reflexivity |].
    split; [apply extends_tools_set |]. split; [repeat split |]. split; [left; reflexivity |].
    intros k t Hk. cbn [tools_set tools] in Hk.
    destruct (decide (ToolConfig.name toolConfig = k)) as [<-|Hne].
    + rewrite lookup_insert_eq in Hk. injection Hk as <-. right. left.
      cbn [config executor]. split; [reflexivity |]. split; [reflexivity |].
      intros proxy rn ->. exact (Hnb proxy rn eq_refl).
    + rewrite lookup_insert_ne in Hk by assumption. auto.
Qed.

End Single.

(** X7: loadSingleTool returns for every definition and does not throw.
    It keeps the directory and the configuration of the registry and every
    name that was registered; it starts no process and writes no cache; and
    it sends nothing, or the one tools/list request of the definition. *)
Theorem loadSingleTool_never_throws_keeps_names `{RT : Runtime}
  (this : ToolRegistry) (toolConfig : ToolConfig.t) (w : World) :
  exists n this' w',
    loadSingleTool this toolConfig w = (Ret (n, this'), w')
    /\ toolsConfigDir this' = toolsConfigDir this
    /\ registry_config this' = registry_config this
    /\ (forall k, is_Some (tools this !! k) -> is_Some (tools this' !! k))
    /\ spawned w' = spawned w
    /\ validatedContainers w' = validatedContainers w
    /\ uidCache w' = uidCache w
    /\ (sent w' = sent w \/ sent w' = sent w ++ [list_request toolConfig]).
Proof.
  destruct (loadSingleTool_inv this toolConfig w)
    as (n & this' & w' & Hrun & (Hd & Hc & Hk) & (Hs & Hv & Hu) & Hsent & _).
  exists n, this', w'. repeat (split; [assumption |]). assumption.
Qed.

(** X8: whatever loadSingleTool leaves in the registry under a name was
    there before, or is the definition itself under its own name, or comes
    from a tool in the list that fetchRemoteTools returns for the proxy of
    the definition, in the world of the call: an entry of that list whose
    name is truthy and has a string, registered under the prefix followed
    by that name, bound to the proxy and to the name, with the wrapped
    configuration. *)
Theorem loadSingleTool_registers_own_or_listed `{RT : Runtime}
  (this : ToolRegistry) (toolConfig : ToolConfig.t) (w : World)
  (k : string) (t : RegisteredTool) :
  (exists n this' w',
      loadSingleTool this toolConfig w = (Ret (n, this'), w')
      /\ tools this' !! k = Some t) ->
  tools this !! k = Some t
  \/ (k = ToolConfig.name toolConfig /\ config t = toolConfig
      /\ forall proxy rn, executor t <> BoundRemoteTool proxy rn)
  \/ (exists remoteTools,
         fst (fetchRemoteTools (new_McpProxyExecutor (proxy_options toolConfig)) w)
         = Ret remoteTools
         /\ discovered toolConfig (new_McpProxyExecutor (proxy_options toolConfig))
              (default EmptyString (ToolConfig.tool_prefix toolConfig)) remoteTools k t).
Proof.
  intros (n & this' & w' & Hrun & Hk).
  destruct (loadSingleTool_inv this toolConfig w)
    as (n0 & this0 & w0 & Hrun0 & _ & _ & _ & Hprov).
  rewrite Hrun in Hrun0. injection Hrun0 as <- <- <-.
  destruct (Hprov k t Hk) as [Hold | [Hown | Hd]]; [auto | auto |].
  right. right. exists (fetched (new_McpProxyExecutor (proxy_options toolConfig)) w).
  split; [| exact Hd].
  unfold fetched. rewrite fetchRemoteTools_fst. reflexivity.
Qed.

(** X8 on an example: the tool that [remote_config] registers against a
    server that lists ping. *)
Lemma loadSingleTool_registers_own_or_listed_example :
  tools empty_registry !! "remote_ping"
  = Some (mkRegisteredTool
            (wrapped_config remote_config "remote_ping" (JObj [("name", JStr "ping")]))
            (BoundRemoteTool (@new_McpProxyExecutor ping_server (proxy_options remote_config))
                             (JStr "ping")))
  \/ ("remote_ping" = ToolConfig.name remote_config
      /\ wrapped_config remote_config "remote_ping" (JObj [("name", JStr "ping")])
         = remote_config
      /\ forall proxy rn,
          BoundRemoteTool (@new_McpProxyExecutor ping_server (proxy_options remote_config))
                          (JStr "ping")
          <> BoundRemoteTool proxy rn)
  \/ (exists remoteTools,
         fst (@fetchRemoteTools ping_server
                (@new_McpProxyExecutor ping_server (proxy_options remote_config)) empty_world)
         = Ret remoteTools
         /\ @discovered ping_server remote_config
              (@new_McpProxyExecutor ping_server (proxy_options remote_config))
              "remote_" remoteTools "remote_ping"
              (mkRegisteredTool
                 (wrapped_config remote_config "remote_ping" (JObj [("name", JStr "ping")]))
                 (BoundRemoteTool (@new_McpProxyExecutor ping_server
                                     (proxy_options remote_config))
                                  (JStr "ping")))).
Proof.
  apply (@loadSingleTool_registers_own_or_listed ping_server empty_registry remote_config
           empty_world "remote_ping"
           (mkRegisteredTool
              (wrapped_config remote_config "remote_ping" (JObj [("name", JStr "ping")]))
              (BoundRemoteTool (@new_McpProxyExecutor ping_server (proxy_options remote_config))
                               (JStr "ping")))).
  destruct (@loadRemoteMcpTools_ping ping_server empty_registry remote_config empty_world
              eq_refl eq_refl eq_refl eq_refl) as (w' & Hload & _).
  exists 1%nat. eexists. exists w'. split.
  - rewrite (@loadSingleTool_ping ping_server); 
      [exact Hload | discriminate | discriminate | reflexivity | discriminate | reflexivity].
  - apply lookup_insert_eq.
Defined.

(** A request fails when it is not answered in time, or with anything but
    a JSON body. *)
Lemma rpc_fails `{RT : Runtime} this method params w :
  answered this w (rpc_request this method params) = false
  \/ (forall j, reply_outcome (fetch (sent w) (rpc_request this method params)) <> RespJson j) ->
  exists e, fst (rpc this method params w) = Throw e.
Proof.
  unfold answered, rpc, bind, send. intros [Hna | Hnj].
  - rewrite Hna. eauto.
  - destruct (reply_after _ <? timeout this)%N; [| eauto].
    destruct (reply_outcome _) as [j | status statusText | e]; [| eauto ..].
    now destruct (Hnj j).
Qed.

(** X9: a proxy definition with discovery enabled registers nothing, not
    even the proxy itself, when its tools/list request is not answered
    before the abort timer of the proxy, is answered with anything but a
    JSON body, or is answered only after the init timeout: loadSingleTool
    returns 0 and the registry it was given, after that one request. *)
Theorem loadSingleTool_failed_discovery_registers_nothing `{RT : Runtime}
  (this : ToolRegistry) (toolConfig : ToolConfig.t) (w : World) :
  ToolConfig.name toolConfig <> EmptyString ->
  ToolConfig.enabled toolConfig <> Some false ->
  ToolConfig.type toolConfig = Some "mcp_server" ->
  ToolConfig.server_url toolConfig <> EmptyString ->
  ToolConfig.expose_remote_tools toolConfig = Some true ->
  answered (new_McpProxyExecutor (proxy_options toolConfig)) w (list_request toolConfig) = false
  \/ (forall j, reply_outcome (fetch (sent w) (list_request toolConfig)) <> RespJson j)
  \/ (default 30 (ToolConfig.init_timeout toolConfig) * 1000
      <= reply_after (fetch (sent w) (list_request toolConfig)))%N ->
  exists w',
    loadSingleTool this toolConfig w = (Ret (O, this), w')
    /\ sent w' = sent w ++ [list_request toolConfig].
Proof.
  intros Hname Hen Htype Hurl Hexp Hfail.
  rewrite loadSingleTool_ping by assumption.
  set (proxy := new_McpProxyExecutor (proxy_options toolConfig)) in *.
  destruct (loadRemoteMcpTools_inv this toolConfig proxy w)
    as (n & this' & w' & Hrun & _ & _ & Hsent & _ & Hnothing).
  exists w'. split; [| exact Hsent].
  rewrite Hrun. destruct Hnothing as [-> ->]; [| reflexivity].
  change (list_request toolConfig) with (tools_list_request proxy) in Hfail.
  destruct (answered proxy w (tools_list_request proxy)) eqn:Ha.
  - destruct Hfail as [Hf | [Hnj | Hlate]]; [discriminate | |].
    + left. apply rpc_fails. right. exact Hnj.
    + right. unfold elapsed. rewrite Ha. lia.
  - left. apply rpc_fails. left. exact Ha.
Qed.

(** X9 on an example: [remote_config] when no server answers. *)
Lemma loadSingleTool_failed_discovery_registers_nothing_example :
  exists w',
    @loadSingleTool offline empty_registry remote_config empty_world
    = (Ret (O, empty_registry), w')
    /\ sent w' = sent empty_world ++ [@list_request offline remote_config].
Proof.
  apply (@loadSingleTool_failed_discovery_registers_nothing offline empty_registry
           remote_config empty_world); try discriminate; try reflexivity.
  left. reflexivity.
Defined.

Section Named.
Context `{RT : Runtime}.

(** The loop over tools that all have a name: each one is registered. *)
Lemma bind_remote_tools_named proxyConfig proxy prefix remoteTools :
  Forall (fun remote => exists s, named remote s) remoteTools ->
  forall this count w,
  exists this' msgs,
    bind_remote_tools proxyConfig proxy prefix remoteTools this count w =
    (Ret (this', Ret (count + length remoteTools)%nat),
     mkWorld (validatedContainers w) (uidCache w) (spawned w) (sent w)
             (logged w ++ msgs) (clock w))
    /\ (forall s, bound_under proxy prefix this s -> bound_under proxy prefix this' s)
    /\ (forall remote s, In remote remoteTools -> named remote s ->
                         bound_under proxy prefix this' s).
Proof.
  induction 1 as [|remote rest (s & Hprop & Hs) Hrest IH]; intros this count w.
  - exists this, []. cbn [bind_remote_tools length]. unfold ret.
    rewrite app_nil_r, Nat.add_0_r. destruct w.
    split; [reflexivity |]. split; [auto | intros remote s []].
  - assert (Hnn : remote <> JNull) by (intros ->; discriminate Hprop).
    rewrite bind_remote_tools_step by assumption. rewrite Hprop.
    change (default JNull (Some (JStr s))) with (JStr s).
    cbn [truthy String_of String_throws]. apply StrFacts.nonempty_true in Hs. rewrite Hs.
    cbn [negb].
    assert (Hloc : (if Str.nonempty prefix then JStr (prefix +:+ s) else JStr s)
                   = JStr (prefix +:+ s)).
    { destruct (Str.nonempty prefix) eqn:Hp; [reflexivity |].
      apply StrFacts.nonempty_false in Hp. now subst prefix. }
    rewrite Hloc. cbn [String_of]. unfold bind at 1, log at 1.
    match goal with
    | |- context [bind_remote_tools _ _ _ rest ?t ?c ?w0] =>
        destruct (IH t c w0) as (this' & msgs & Hrun & Hkeep & Hall)
    end.
    rewrite Hrun. cbn [validatedContainers uidCache spawned sent logged clock].
    exists this'. eexists. rewrite <- app_assoc. cbn [length].
    replace (S count + length rest)%nat with (count + S (length rest))%nat by lia.
    split; [reflexivity |].
    assert (Hnew : forall s', bound_under proxy prefix this s' \/ s' = s ->
                              bound_under proxy prefix
                                (tools_set this (prefix +:+ s)
                                   (mkRegisteredTool
                                      (wrapped_config proxyConfig (prefix +:+ s) remote)
                                      (BoundRemoteTool proxy (JStr s)))) s').
    { intros s' Hs'. unfold bound_under. cbn [tools_set tools].
      destruct (String.eqb_spec s' s) as [->|Hne].
      - rewrite lookup_insert_eq. eexists. split; [reflexivity |]. split; reflexivity.
      - destruct Hs' as [(t & Ht & Hb) | ->]; [| congruence].
        rewrite lookup_insert_ne; [eauto |].
        intros Heq. apply StrFacts.append_inj_l in Heq. congruence. }
    split.
    + intros s' Hb. apply Hkeep, Hnew. now left.
    + intros remote' s' [<- | Hin] Hnamed.
      * destruct Hnamed as [Hprop' _]. rewrite Hprop in Hprop'. injection Hprop' as <-.
        apply Hkeep, Hnew. now right.
      * eapply Hall; eassumption.
Qed.

End Named.

(** X10: when the server lists its tools in time and every listed tool
    has a name that is a non-empty string, loadRemoteMcpTools counts all of
    them, and each one can be reached under the prefix followed by its
    name, bound to that very name on the proxy; a name listed twice is
    counted twice and registered once. *)
Theorem loadRemoteMcpTools_registers_every_named_tool `{RT : Runtime}
  (this : ToolRegistry) (proxyConfig : ToolConfig.t) (proxy : McpProxyExecutor) (w : World)
  (remoteTools : list Json) :
  fst (fetchRemoteTools proxy w) = Ret remoteTools ->
  (elapsed proxy w (tools_list_request proxy)
   < default 30 (ToolConfig.init_timeout proxyConfig) * 1000)%N ->
  remoteTools <> [] ->
  Forall (fun remote => exists s, named remote s) remoteTools ->
  exists this' w',
    loadRemoteMcpTools this proxyConfig proxy w = (Ret (length remoteTools, this'), w')
    /\ forall remote s,
        In remote remoteTools -> named remote s ->
        bound_under proxy (default EmptyString (ToolConfig.tool_prefix proxyConfig)) this' s.
Proof.
  intros Hfetch Hlt Hne Hnamed.
  unfold loadRemoteMcpTools. unfold bind at 1, log at 1. unfold bind at 1, attempt, race_timer.
  match goal with
  | |- context [fetchRemoteTools proxy ?w0] =>
      destruct (fetchRemoteTools_run proxy w0) as (tools0 & msgs & Hrun & _);
      pose proof (fetchRemoteTools_after_log proxy w
                    (Info, "Fetching remote tools from: " +:+ ToolConfig.name proxyConfig))
        as Hsame;
      rewrite Hrun in Hsame; cbn [fst] in Hsame; rewrite Hfetch in Hsame;
      injection Hsame as ->; rewrite Hrun; clear Hrun
  end.
  cbn [validatedContainers uidCache spawned sent logged clock].
  change (elapsed proxy _ (tools_list_request proxy))
    with (elapsed proxy w (tools_list_request proxy)).
  replace (clock w + elapsed proxy w (tools_list_request proxy) - clock w)%N
    with (elapsed proxy w (tools_list_request proxy)) by lia.
  apply N.ltb_lt in Hlt. rewrite Hlt.
  destruct remoteTools as [|remote rest]; [congruence |].
  unfold bind at 1.
  match goal with
  | |- context [bind_remote_tools ?pc ?p ?pre ?l ?t ?c ?w0] =>
      destruct (bind_remote_tools_named pc p pre l Hnamed t c w0)
        as (this' & msgs' & Hloop & _ & Hall);
      rewrite Hloop; clear Hloop
  end.
  run_js. exists this'. eexists. split; [reflexivity | exact Hall].
Qed.

(** X10 on an example: the server that lists ping, under the prefix
    remote_. *)
Lemma loadRemoteMcpTools_registers_every_named_tool_example :
  exists this' w',
    @loadRemoteMcpTools ping_server empty_registry remote_config
      (@new_McpProxyExecutor ping_server (proxy_options remote_config)) empty_world
    = (Ret (1%nat, this'), w')
    /\ forall remote s,
        In remote [JObj [("name", JStr "ping")]] -> named remote s ->
        bound_under (@new_McpProxyExecutor ping_server (proxy_options remote_config))
                    "remote_" this' s.
Proof.
  apply (@loadRemoteMcpTools_registers_every_named_tool ping_server empty_registry
           remote_config (@new_McpProxyExecutor ping_server (proxy_options remote_config))
           empty_world [JObj [("name", JStr "ping")]]).
  - reflexivity.
  - reflexivity.
  - discriminate.
  - constructor; [| constructor]. exists "ping". split; [reflexivity | discriminate].
Defined.

Section NullEntry.
Context `{RT : Runtime}.

(** The loop over named tools followed by a null entry: the tools before
    the entry are registered, and the loop ends in a throw. *)
Lemma bind_remote_tools_until_null proxyConfig proxy prefix pre post :
  Forall (fun remote => exists s, named remote s) pre ->
  forall this count w,
  exists this' msgs e,
    bind_remote_tools proxyConfig proxy prefix (pre ++ JNull :: post) this count w =
    (Ret (this', Throw e),
     mkWorld (validatedContainers w) (uidCache w) (spawned w) (sent w)
             (logged w ++ msgs) (clock w))
    /\ (forall s, bound_under proxy prefix this s -> bound_under proxy prefix this' s)
    /\ (forall remote s, In remote pre -> named remote s -> bound_under proxy prefix this' s).
Proof.
  induction 1 as [|remote rest (s & Hprop & Hs) Hrest IH]; intros this count w.
  - exists this, []. eexists. cbn [app bind_remote_tools]. unfold ret.
    rewrite app_nil_r. destruct w.
    split; [reflexivity |]. split; [auto | intros remote s []].
  - assert (Hnn : remote <> JNull) by (intros ->; discriminate Hprop).
    rewrite <- app_comm_cons.
    rewrite bind_remote_tools_step by assumption. rewrite Hprop.
    change (default JNull (Some (JStr s))) with (JStr s).
    cbn [truthy String_of String_throws]. apply StrFacts.nonempty_true in Hs. rewrite Hs.
    cbn [negb].
    assert (Hloc : (if Str.nonempty prefix then JStr (prefix +:+ s) else JStr s)
                   = JStr (prefix +:+ s)).
    { destruct (Str.nonempty prefix) eqn:Hp; [reflexivity |].
      apply StrFacts.nonempty_false in Hp. now subst prefix. }
    rewrite Hloc. cbn [String_of]. unfold bind at 1, log at 1.
    match goal with
    | |- context [bind_remote_tools _ _ _ _ ?t ?c ?w0] =>
        destruct (IH t c w0) as (this' & msgs & e & Hrun & Hkeep & Hall)
    end.
    rewrite Hrun. cbn [validatedContainers uidCache spawned sent logged clock].
    exists this'. do 2 eexists. rewrite <- app_assoc.
    split; [reflexivity |].
    assert (Hnew : forall s', bound_under proxy prefix this s' \/ s' = s ->
                              bound_under proxy prefix
                                (tools_set this (prefix +:+ s)
                                   (mkRegisteredTool
                                      (wrapped_config proxyConfig (prefix +:+ s) remote)
                                      (BoundRemoteTool proxy (JStr s)))) s').
    { intros s' Hs'. unfold bound_under. cbn [tools_set tools].
      destruct (String.eqb_spec s' s) as [->|Hne].
      - rewrite lookup_insert_eq. eexists. split; [reflexivity |]. split; reflexivity.
      - destruct Hs' as [(t & Ht & Hb) | ->]; [| congruence].
        rewrite lookup_insert_ne; [eauto |].
        intros Heq. apply StrFacts.append_inj_l in Heq. congruence. }
    split.
    + intros s' Hb. apply Hkeep, Hnew. now left.
    + intros remote' s' [<- | Hin] Hnamed.
      * destruct Hnamed as [Hprop' _]. rewrite Hprop in Hprop'. injection Hprop' as <-.
        apply Hkeep, Hnew. now right.
      * eapply Hall; eassumption.
Qed.

End NullEntry.

(** X11: the count that loadRemoteMcpTools returns is not the number of
    tools it registered.  When the list of the server holds a null entry
    after tools with proper names, the loop throws at that entry and the
    method returns 0, while the tools before the entry stay registered. *)
Theorem loadRemoteMcpTools_null_entry_returns_zero `{RT : Runtime}
  (this : ToolRegistry) (proxyConfig : ToolConfig.t) (proxy : McpProxyExecutor) (w : World)
  (pre post : list Json) :
  fst (fetchRemoteTools proxy w) = Ret (pre ++ JNull :: post) ->
  (elapsed proxy w (tools_list_request proxy)
   < default 30 (ToolConfig.init_timeout proxyConfig) * 1000)%N ->
  Forall (fun remote => exists s, named remote s) pre ->
  exists this' w',
    loadRemoteMcpTools this proxyConfig proxy w = (Ret (O, this'), w')
    /\ forall remote s,
        In remote pre -> named remote s ->
        bound_under proxy (default EmptyString (ToolConfig.tool_prefix proxyConfig)) this' s.
Proof.
  intros Hfetch Hlt Hnamed.
  unfold loadRemoteMcpTools. unfold bind at 1, log at 1. unfold bind at 1, attempt, race_timer.
  match goal with
  | |- context [fetchRemoteTools proxy ?w0] =>
      destruct (fetchRemoteTools_run proxy w0) as (tools0 & msgs & Hrun & _);
      pose proof (fetchRemoteTools_after_log proxy w
                    (Info, "Fetching remote tools from: " +:+ ToolConfig.name proxyConfig))
        as Hsame;
      rewrite Hrun in Hsame; cbn [fst] in Hsame; rewrite Hfetch in Hsame;
      injection Hsame as ->; rewrite Hrun; clear Hrun
  end.
  cbn [validatedContainers uidCache spawned sent logged clock].
  change (elapsed proxy _ (tools_list_request proxy))
    with (elapsed proxy w (tools_list_request proxy)).
  replace (clock w + elapsed proxy w (tools_list_request proxy) - clock w)%N
    with (elapsed proxy w (tools_list_request proxy)) by lia.
  apply N.ltb_lt in Hlt. rewrite Hlt.
  destruct (pre ++ JNull :: post) as [|remote rest] eqn:Hlist;
    [destruct pre; discriminate Hlist |].
  rewrite <- Hlist. clear Hlist. unfold bind at 1.
  match goal with
  | |- context [bind_remote_tools ?pc ?p ?pre0 (pre ++ JNull :: post) ?t ?c ?w0] =>
      destruct (bind_remote_tools_until_null pc p pre0 pre post Hnamed t c w0)
        as (this' & msgs' & e & Hloop & _ & Hall);
      rewrite Hloop; clear Hloop
  end.
  run_js. exists this'. eexists. split; [reflexivity | exact Hall].
Qed.

(** X11 on an example: a list that ends in a null entry. *)
Lemma loadRemoteMcpTools_null_entry_returns_zero_example :
  exists this' w',
    @loadRemoteMcpTools null_entry_server empty_registry remote_config
      (@new_McpProxyExecutor null_entry_server (proxy_options remote_config)) empty_world
    = (Ret (O, this'), w')
    /\ forall remote s,
        In remote [JObj [("name", JStr "status")]] -> named remote s ->
        bound_under (@new_McpProxyExecutor null_entry_server (proxy_options remote_config))
                    "remote_" this' s.
Proof.
  apply (@loadRemoteMcpTools_null_entry_returns_zero null_entry_server empty_registry
           remote_config (@new_McpProxyExecutor null_entry_server (proxy_options remote_config))
           empty_world [JObj [("name", JStr "status")]] []).
  - reflexivity.
  - reflexivity.
  - constructor; [| constructor]. exists "status". split; [reflexivity | discriminate].
Defined.

(** ** executors/command.ts: the template and the arguments *)

Section Template.
Context `{RT : Runtime}.

Lemma inherited_None key : ~ In key Obj.prototype_keys -> inherited key = None.
Proof.
  unfold Obj.prototype_keys, inherited. intros Hn.
  destruct (String.eqb_spec key "__proto__") as [->|Hne]; [destruct Hn; now left |].
  destruct (existsb (String.eqb key) Obj.prototype_methods) eqn:Hex; [| reflexivity].
  apply existsb_exists in Hex. destruct Hex as (m & Hin & Heq).
  apply String.eqb_eq in Heq. subst m. destruct Hn. now right.
Qed.

Lemma inherited_Some key : In key Obj.prototype_keys -> exists text, inherited key = Some text.
Proof.
  unfold Obj.prototype_keys, inherited. intros Hin.
  destruct (String.eqb_spec key "__proto__") as [->|Hne]; [eauto |].
  destruct Hin as [Heq | Hin]; [congruence |].
  assert (Hex : existsb (String.eqb key) Obj.prototype_methods = true).
  { apply existsb_exists. exists key. split; [exact Hin | apply String.eqb_refl]. }
  rewrite Hex. eauto.
Qed.

(** A placeholder has nothing to render exactly when its key is neither a
    property of the merged arguments nor a name that every object
    inherits. *)
Lemma rendered_None mergedArgs key :
  rendered mergedArgs key = None
  <-> Obj.get mergedArgs key = None /\ ~ In key Obj.prototype_keys.
Proof.
  unfold rendered. destruct (Obj.get mergedArgs key) as [v|].
  - split; [discriminate | intros [H _]; discriminate H].
  - split.
    + intros H. split; [reflexivity |]. intros Hin.
      destruct (inherited_Some key Hin) as [text Ht]. rewrite Ht in H. discriminate H.
    + intros [_ Hn]. now rewrite (inherited_None key Hn).
Qed.

(** The substitution succeeds when every placeholder renders. *)
Lemma substitute_total template mergedArgs :
  forall skip,
    (forall key, In key (matchAll_placeholders skip template) ->
                 exists text, rendered mergedArgs key = Some (Ret text)) ->
    exists out, substitute skip template mergedArgs = Ret out.
Proof.
  induction template as [|a rest IH]; intros skip Hall; [now exists EmptyString |].
  cbn [substitute matchAll_placeholders] in *.
  destruct skip as [|k]; [| now apply IH].
  destruct (match_placeholder (String a rest)) as [key|].
  - destruct (Hall key (or_introl eq_refl)) as [text Ht]. rewrite Ht.
    destruct (IH (S (String.length key))) as [out Hout];
      [intros k Hk; apply Hall; now right |].
    rewrite Hout. eauto.
  - destruct (IH O Hall) as [out Hout]. rewrite Hout. eauto.
Qed.

(** What the substitution can throw: the TypeError of a value that has no
    string, or the error that names a placeholder with nothing to render. *)
Lemma substitute_throw template mergedArgs :
  forall skip e,
    substitute skip template mergedArgs = Throw e ->
    e = TypeError "Cannot convert object to primitive value"
    \/ exists key,
        In key (matchAll_placeholders skip template)
        /\ rendered mergedArgs key = None
        /\ e = Error ("Missing required argument: " +:+ key).
Proof.
  induction template as [|a rest IH]; intros skip e He; [discriminate He |].
  cbn [substitute matchAll_placeholders] in *.
  destruct skip as [|k]; [| now apply IH].
  destruct (match_placeholder (String a rest)) as [key|].
  - destruct (rendered mergedArgs key) as [[text|e0]|] eqn:Hr.
    + destruct (substitute (S (String.length key)) rest mergedArgs) as [out|e1] eqn:Hs;
        [discriminate He |].
      injection He as ->. destruct (IH _ _ Hs) as [-> | (k & Hin & Hk & ->)]; [now left |].
      right. exists k. split; [now right | split; [exact Hk | reflexivity]].
    + injection He as ->. left. unfold rendered in Hr.
      destruct (Obj.get mergedArgs key) as [v|].
      * injection Hr as Hr. unfold ToString in Hr.
        destruct (String_throws v); [now injection Hr | discriminate Hr].
      * destruct (inherited key); discriminate Hr.
    + injection He as <-. right. exists key. split; [now left | split; [exact Hr | reflexivity]].
  - destruct (substitute O rest mergedArgs) as [out|e1] eqn:Hs; [discriminate He |].
    injection He as ->. exact (IH _ _ Hs).
Qed.

(** The substitution throws at the first placeholder with nothing to
    render, when those before it render. *)
Lemma substitute_first_missing template mergedArgs key :
  forall skip before after,
    matchAll_placeholders skip template = before ++ key :: after ->
    (forall k, In k before -> exists text, rendered mergedArgs k = Some (Ret text)) ->
    rendered mergedArgs key = None ->
    substitute skip template mergedArgs
    = Throw (Error ("Missing required argument: " +:+ key)).
Proof.
  induction template as [|a rest IH]; intros skip before after Hm Hb Hk.
  - destruct before; discriminate Hm.
  - cbn [substitute matchAll_placeholders] in *.
    destruct skip as [|n]; [| now apply (IH n before after)].
    destruct (match_placeholder (String a rest)) as [k0|].
    + destruct before as [|b before'].
      * injection Hm as -> Hm. now rewrite Hk.
      * injection Hm as -> Hm.
        destruct (Hb b (or_introl eq_refl)) as [text Ht]. rewrite Ht.
        rewrite (IH _ before' after Hm); [reflexivity | | exact Hk].
        intros k Hin. apply Hb. now right.
    + now rewrite (IH O before after Hm Hb Hk).
Qed.

(** Normalization keeps every key but __proto__. *)
Lemma keys_normalizePaths args hostRoot containerRoot k :
  In k (Obj.keys (normalizePaths args hostRoot containerRoot))
  <-> In k (Obj.keys args) /\ k <> "__proto__".
Proof.
  unfold Obj.keys, normalizePaths, Obj.assigned.
  induction args as [|[k0 v0] args IH]; cbn [map List.filter fst snd In]; [tauto |].
  destruct (String.eqb_spec k0 "__proto__") as [->|Hne]; cbn [negb map In fst].
  - rewrite IH. split; [tauto |]. intros [[Heq | Hin] Hk]; [congruence | tauto].
  - rewrite IH. split.
    + intros [<- | [Hin Hk]]; tauto.
    + intros [[<- | Hin] Hk]; tauto.
Qed.

(** Every entry of the normalized arguments is the normalized value of an
    entry of the arguments. *)
Lemma In_normalizePaths args hostRoot containerRoot k v :
  In (k, v) (normalizePaths args hostRoot containerRoot) ->
  exists v0, In (k, v0) args /\ v = normalize hostRoot containerRoot v0.
Proof.
  unfold normalizePaths, Obj.assigned. rewrite filter_In, in_map_iff.
  intros [([k0 v0] & Heq & Hin) _]. cbn [fst snd] in Heq. injection Heq as <- <-. eauto.
Qed.

Lemma get_In (o : JsObject) k v : Obj.get o k = Some v -> In (k, v) o.
Proof.
  induction o as [|[k0 v0] o IH]; [discriminate |]. cbn [Obj.get].
  destruct (Obj.get o k) as [v'|].
  - intros [= ->]. right. now apply IH.
  - destruct (String.eqb_spec k0 k) as [->|]; [| discriminate].
    intros [= ->]. now left.
Qed.

(** Normalization leaves a printable value one that has a string. *)
Lemma printable_normalize hostRoot containerRoot v :
  printable v = true -> String_throws (normalize hostRoot containerRoot v) = false.
Proof.
  induction v as [| b | x | s | l IH | o IH] using Json_nested_ind; intros Hp;
    try reflexivity.
  - cbn [normalize]. destruct (Str.startsWith s _); reflexivity.
  - cbn [normalize String_throws]. cbn [printable] in Hp.
    induction l as [|x l IHl]; [reflexivity |].
    cbn [forallb] in Hp. apply andb_prop in Hp. destruct Hp as [Hx Hl].
    inversion IH as [|? ? Hx' Hl']; subst.
    cbn [map existsb]. rewrite (Hx' Hx). cbn [orb]. exact (IHl Hl' Hl).
  - cbn [normalize String_throws]. cbn [printable] in Hp.
    apply andb_prop in Hp. destruct Hp as [Hts _].
    apply negb_true_iff in Hts.
    destruct (Obj.has (Obj.assigned (map (fun kv => (fst kv, normalize hostRoot containerRoot
                                                                (snd kv))) o)) "toString")
      eqn:Hh; [| reflexivity].
    apply ObjFacts.has_In in Hh.
    change (In "toString" (Obj.keys (normalizePaths o hostRoot containerRoot))) in Hh.
    apply keys_normalizePaths in Hh. destruct Hh as [Hin _].
    apply ObjFacts.has_In in Hin. congruence.
Qed.

Lemma keys_defaultArgs_object this :
  Obj.keys (defaultArgs_object this) = map fst (defaultArgs this).
Proof.
  unfold Obj.keys, defaultArgs_object. rewrite map_map. apply map_ext. reflexivity.
Qed.

Lemma get_defaultArgs_object this k v :
  Obj.get (defaultArgs_object this) k = Some v -> exists s, v = JStr s.
Proof.
  intros H. apply get_In in H. unfold defaultArgs_object in H.
  apply in_map_iff in H. destruct H as ([k0 s] & Heq & _). injection Heq as _ <-. eauto.
Qed.

(** A key of the merged arguments is a key of the defaults or of the
    arguments. *)
Lemma get_merged this args key :
  Obj.get (Obj.spread (defaultArgs_object this) args) key <> None
  <-> In key (map fst (defaultArgs this) ++ Obj.keys args).
Proof.
  rewrite ObjFacts.get_spread, in_app_iff, <- keys_defaultArgs_object.
  rewrite <- !ObjFacts.has_In.
  destruct (Obj.get args key) eqn:Ha.
  - assert (Hh : Obj.has args key = true).
    { destruct (Obj.has args key) eqn:Hh; [reflexivity |].
      apply ObjFacts.get_None in Hh. congruence. }
    split; [auto | discriminate].
  - apply ObjFacts.get_None in Ha. rewrite Ha.
    destruct (Obj.get (defaultArgs_object this) key) eqn:Hd.
    + assert (Hh : Obj.has (defaultArgs_object this) key = true).
      { destruct (Obj.has (defaultArgs_object this) key) eqn:Hh; [reflexivity |].
        apply ObjFacts.get_None in Hh. congruence. }
      split; [auto | discriminate].
    + apply ObjFacts.get_None in Hd. rewrite Hd. split; [congruence | intros [|]; discriminate].
Qed.

Lemma missing_placeholders_In this args p :
  In p (missing_placeholders this args)
  <-> In p (matchAll_placeholders O (commandTemplate this))
      /\ ~ In p (map fst (defaultArgs this) ++ Obj.keys args).
Proof.
  unfold missing_placeholders. rewrite filter_In, Set_of_In.
  rewrite negb_true_iff, Set_has_not_In, Set_of_In. tauto.
Qed.

(** After a passed validation every placeholder of the template is a key
    of the defaults or of the arguments. *)
Lemma validated_placeholders this args key :
  CommandToolExecutor_validateArguments this args = Ret tt ->
  In key (matchAll_placeholders O (commandTemplate this)) ->
  In key (map fst (defaultArgs this) ++ Obj.keys args).
Proof.
  intros Hv Hkey. unfold CommandToolExecutor_validateArguments in Hv.
  destruct (checkRules this _) as [ruleError|e]; [| discriminate].
  destruct (truthy_message ruleError); [discriminate |].
  destruct (missing_placeholders this args) as [|p l] eqn:Hmiss; [| discriminate].
  destruct (in_dec string_dec key (map fst (defaultArgs this) ++ Obj.keys args)) as [Hin|Hnin];
    [exact Hin |].
  assert (Hp : In key (missing_placeholders this args))
    by (apply missing_placeholders_In; auto).
  rewrite Hmiss in Hp. destruct Hp.
Qed.

(** A placeholder that validation found among the keys renders after
    normalization, or its value has no string. *)
Lemma rendered_after_validation this args hostRoot containerRoot key :
  In key (map fst (defaultArgs this) ++ Obj.keys args) ->
  rendered (Obj.spread (defaultArgs_object this)
              (normalizePaths args hostRoot containerRoot)) key <> None.
Proof.
  intros Hin Hnone. apply rendered_None in Hnone. destruct Hnone as [Hget Hproto].
  apply (proj2 (get_merged this (normalizePaths args hostRoot containerRoot) key));
    [| exact Hget].
  apply in_app_iff. apply in_app_iff in Hin. destruct Hin as [Hd | Ha]; [now left | right].
  apply keys_normalizePaths. split; [exact Ha |].
  intros ->. apply Hproto. now left.
Qed.

End Template.

(** X12: what validateArguments accepts, execute finds.  When
    validateArguments returns for the arguments, the substitution that
    execute makes into the template, on the same arguments after path
    normalization as executeTool passes them on, never ends in Missing
    required argument: all it can throw is the TypeError of an argument
    that has no string.  And it succeeds when every argument is printable:
    no object with a property toString or __proto__ of its own, and no
    array that holds one. *)
Theorem validated_arguments_fill_the_template `{RT : Runtime}
  (this : CommandToolExecutor) (args : JsObject) (hostRoot containerRoot : string) :
  CommandToolExecutor_validateArguments this args = Ret tt ->
  (forall e,
      substitute O (commandTemplate this)
        (Obj.spread (defaultArgs_object this) (normalizePaths args hostRoot containerRoot))
      = Throw e ->
      e = TypeError "Cannot convert object to primitive value")
  /\ ((forall k v, In (k, v) args -> printable v = true) ->
      exists cmdStr,
        substitute O (commandTemplate this)
          (Obj.spread (defaultArgs_object this) (normalizePaths args hostRoot containerRoot))
        = Ret cmdStr).
Proof.
  intros Hv. split.
  - intros e He. destruct (substitute_throw _ _ _ _ He) as [-> | (key & Hin & Hnone & _)];
      [reflexivity |].
    exfalso. eapply rendered_after_validation; [| exact Hnone].
    eapply validated_placeholders; eassumption.
  - intros Hprint. apply substitute_total. intros key Hkey.
    pose proof (rendered_after_validation this args hostRoot containerRoot key
                  (validated_placeholders this args key Hv Hkey)) as Hsome.
    unfold rendered in *.
    destruct (Obj.get (Obj.spread (defaultArgs_object this)
                         (normalizePaths args hostRoot containerRoot)) key) as [v|] eqn:Hget.
    + assert (Hts : String_throws v = false).
      { rewrite ObjFacts.get_spread in Hget.
        destruct (Obj.get (normalizePaths args hostRoot containerRoot) key) as [v1|] eqn:Ha.
        - injection Hget as ->. apply get_In, In_normalizePaths in Ha.
          destruct Ha as (v0 & Hin & ->). apply printable_normalize. eapply Hprint, Hin.
        - apply get_defaultArgs_object in Hget. destruct Hget as [s ->]. reflexivity. }
      unfold ToString. rewrite Hts. eauto.
    + destruct (inherited key) as [text|]; [| now destruct Hsome]. cbn [option_map]. eauto.
Qed.

(** X12 on an example: the template of [ls_tool], a default and a path of
    the workspace. *)
Lemma validated_arguments_fill_the_template_example :
  exists cmdStr,
    @substitute offline O (commandTemplate ls_tool)
      (Obj.spread (defaultArgs_object ls_tool)
         (normalizePaths [("path", JStr "/workspace/web")] "/workspace" "/var/www/html"))
    = Ret cmdStr.
Proof.
  apply (proj2 (@validated_arguments_fill_the_template offline ls_tool
                  [("path", JStr "/workspace/web")] "/workspace" "/var/www/html" eq_refl)).
  intros k v [[= <- <-] | []]. reflexivity.
Defined.

(** X13: execute on arguments that leave a placeholder of the template
    without a value, when no disallowed command stops it first and the
    placeholders before it render, returns the envelope that names that
    placeholder; the command is not run, and the call does nothing beyond
    resolving the user.  A placeholder is without a value when its name is
    no key of the defaults or of the arguments and none of the names that
    every object inherits, such as toString. *)
Theorem execute_names_first_missing_argument `{RT : Runtime}
  (this : CommandToolExecutor) (args : JsObject) (w : World)
  (key : string) (before after : list string) :
  disallowed_command this (Obj.spread (defaultArgs_object this) args) = None ->
  matchAll_placeholders O (commandTemplate this) = before ++ key :: after ->
  (forall k, In k before ->
             exists text,
               rendered (Obj.spread (defaultArgs_object this) args) k = Some (Ret text)) ->
  ~ In key (map fst (defaultArgs this) ++ Obj.keys args) ->
  ~ In key Obj.prototype_keys ->
  CommandToolExecutor_execute this args w
  = (Ret (mkResult (JStr ("Error: Missing required argument: " +:+ key)) (Some true)),
     snd (resolveContainerUser (user this) (container this) w)).
Proof.
  intros Hallowed Hm Hb Hk Hproto.
  destruct (resolveContainerUser_returns (user this) (container this) w)
    as (u & w1 & Hrun & _).
  unfold CommandToolExecutor_execute, bind at 1. rewrite Hrun, Hallowed. cbn [snd].
  rewrite (substitute_first_missing _ _ key O before after Hm Hb); [reflexivity |].
  apply rendered_None. split; [| exact Hproto].
  destruct (Obj.get (Obj.spread (defaultArgs_object this) args) key) eqn:Hg;
    [| reflexivity].
  exfalso. apply Hk, get_merged. congruence.
Qed.

(** X13 on an example: [ls_tool] without a path. *)
Lemma execute_names_first_missing_argument_example :
  @CommandToolExecutor_execute offline ls_tool [] empty_world
  = (Ret (mkResult (JStr "Error: Missing required argument: path") (Some true)), empty_world).
Proof.
  apply (@execute_names_first_missing_argument offline ls_tool [] empty_world
           "path" ["mode"] ["path"; "mode"]).
  - reflexivity.
  - reflexivity.
  - intros k [<-|[]]. eexists. reflexivity.
  - intros [H|[]]. discriminate H.
  - unfold Obj.prototype_keys, Obj.prototype_methods. cbn [In].
    intros H. repeat (destruct H as [H|H]; [discriminate H |]). exact H.
Defined.

(** X14: a rule with an empty message blocks nothing and hides the rules
    after it.  When the first rule that matches the serialized arguments
    has the empty string as its message, validateArguments answers as the
    same executor without any rule would, even if a later rule matches as
    well. *)
Theorem validateArguments_empty_message_blocks_nothing `{RT : Runtime}
  (this : CommandToolExecutor) (args : JsObject)
  (before : list ValidationRule) (rule : ValidationRule) (after : list ValidationRule) :
  validationRules this = before ++ rule :: after ->
  Forall (passes (JSON_stringify (JObj args))) before ->
  pattern rule <> EmptyString ->
  RegExp_test (pattern rule) (JSON_stringify (JObj args)) = Ret true ->
  message rule = Some EmptyString ->
  CommandToolExecutor_validateArguments this args
  = CommandToolExecutor_validateArguments (without_rules this) args.
Proof.
  intros Hrules Hb Hp Ht Hmsg.
  unfold CommandToolExecutor_validateArguments, checkRules. rewrite Hrules.
  rewrite (checkRules_from_first_match _ _ _ _ Hb Hp Ht), Hmsg. reflexivity.
Qed.

(** X14 on an example: the arguments match both rules of
    [silent_rule_tool], and pass. *)
Lemma validateArguments_empty_message_blocks_nothing_example :
  @CommandToolExecutor_validateArguments offline silent_rule_tool
    [("script", JStr "rm -rf /")]
  = Ret tt.
Proof.
  rewrite (@validateArguments_empty_message_blocks_nothing offline silent_rule_tool
             [("script", JStr "rm -rf /")] [] (mkRule "rm" (Some EmptyString))
             [mkRule "rm -rf" (Some "never remove recursively")]).
  - reflexivity.
  - reflexivity.
  - constructor.
  - discriminate.
  - reflexivity.
  - reflexivity.
Defined.

(** ** executors/command.ts: execute *)

Section Execute.
Context `{RT : Runtime}.

Lemma checkRules_from_total rules value :
  (forall rule, In rule rules -> exists b, RegExp_test (pattern rule) value = Ret b) ->
  exists r, checkRules_from rules value = Ret r.
Proof.
  induction rules as [|rule rest IH]; intros Hc; [now exists None |].
  cbn [checkRules_from].
  destruct (Str.nonempty (pattern rule)); [| apply IH; intros r Hr; apply Hc; now right].
  destruct (Hc rule (or_introl eq_refl)) as [b Hb]. rewrite Hb.
  destruct b; [eauto |]. apply IH. intros r Hr. apply Hc. now right.
Qed.

End Execute.

(** X15: when every pattern among its rules is a regular expression,
    execute of the command executor returns an envelope for every
    argument mapping and every behaviour of the container: a failed user
    lookup, a failed or refused validation of the container and a failed
    command all end in a returned envelope, not in a throw. *)
Theorem execute_returns_when_patterns_compile `{RT : Runtime}
  (this : CommandToolExecutor) (args : JsObject) (w : World) :
  patterns_compile this ->
  exists result w', CommandToolExecutor_execute this args w = (Ret result, w').
Proof.
  intros Hc.
  destruct (resolveContainerUser_returns (user this) (container this) w)
    as (u & w1 & Hrun & _).
  unfold CommandToolExecutor_execute, bind at 1. rewrite Hrun.
  destruct (disallowed_command this _) as [c|]; [run_js; eauto |].
  destruct (substitute O (commandTemplate this) _) as [cmdStr|e]; [| run_js; eauto].
  destruct (checkRules_from_total (validationRules this) cmdStr) as [r Hr];
    [intros rule Hin; exact (Hc rule cmdStr Hin) |].
  unfold bind at 1, lift, checkRules. rewrite Hr.
  destruct (truthy_message r); [run_js; eauto |].
  unfold bind at 1, try_catch at 1.
  destruct (validateContainer (container this) (ddevProject this) w1) as [[[]|e] w2].
  - unfold try_catch, bind at 1, log at 1, bind at 1.
    match goal with
    | |- context [dockerExec ?o ?w0] => destruct (dockerExec o w0) as [[out|e] w3]
    end; run_js; eauto.
  - unfold log at 1. unfold try_catch, bind at 1, log at 1, bind at 1.
    match goal with
    | |- context [dockerExec ?o ?w0] => destruct (dockerExec o w0) as [[out|e'] w3]
    end; run_js; eauto.
Qed.

(** X15 on an example: [ls_tool] when no process can be started. *)
Lemma execute_returns_when_patterns_compile_example :
  exists result w',
    @CommandToolExecutor_execute offline ls_tool [("path", JStr "/tmp")] empty_world
    = (Ret result, w').
Proof.
  apply (@execute_returns_when_patterns_compile offline ls_tool [("path", JStr "/tmp")]
           empty_world).
  intros rule value _. eexists. reflexivity.
Defined.

Section Runs.
Context `{RT : Runtime}.

(** [validateContainer] starts no process on a cached key and the label
    query otherwise, whether it returns or throws. *)
Lemma validateContainer_cases container ddevProject w :
  exists r w2,
    validateContainer container ddevProject w = (r, w2)
    /\ sent w2 = sent w
    /\ (spawned w2 = spawned w /\ is_Some (validatedContainers w !! (container +:+ ":" +:+
                                                                    ddevProject))
        \/ spawned w2 = spawned w ++ [inspect_call container]
           /\ validatedContainers w !! (container +:+ ":" +:+ ddevProject) = None).
Proof.
  destruct (validatedContainers w !! (container +:+ ":" +:+ ddevProject)) eqn:Hc.
  - rewrite validateContainer_hit by (rewrite Hc; eauto).
    do 2 eexists. split; [reflexivity |]. split; [reflexivity |]. left. split; eauto.
  - rewrite (validateContainer_miss _ _ _ Hc). cbv zeta.
    destruct (proc_error _); [destruct (Str.includes _ _) | destruct (negb _ && negb _)];
      do 2 eexists; (split; [reflexivity |]); (split; [reflexivity |]); right; split;
      reflexivity.
Qed.

Lemma dockerExec_as_user container cmdStr u sh :
  u <> EmptyString ->
  dockerExec (mkDockerExecOptions container [cmdStr] (Some u) (Some sh)) =
  execCommand "docker" ["exec"; "-u"; u; container; sh; "-c"; cmdStr].
Proof.
  intros Hu. unfold dockerExec. cbn [dx_user dx_shell dx_container dx_command].
  apply StrFacts.nonempty_true in Hu. rewrite Hu. reflexivity.
Qed.

(** [execute] once the arguments have rendered to a command that no rule
    stops: the validation, whose throw is logged, and then the command. *)
Lemma execute_past_checks this args w cmdStr :
  Str.startsWith (user this) "auto:uid-from-path" = false ->
  user this <> EmptyString ->
  disallowed_command this (Obj.spread (defaultArgs_object this) args) = None ->
  substitute O (commandTemplate this) (Obj.spread (defaultArgs_object this) args)
  = Ret cmdStr ->
  checkRules this cmdStr = Ret None ->
  exists w2,
    snd (try_catch (validateContainer (container this) (ddevProject this))
           (fun e => log Warn ("Container validation: " +:+ err_message e)) w) = w2
    /\ CommandToolExecutor_execute this args w =
       (Ret (exec_envelope this cmdStr (execFile (spawned w2) (exec_call this cmdStr))),
        mkWorld (validatedContainers w2) (uidCache w2)
                (spawned w2 ++ [exec_call this cmdStr]) (sent w2)
                (logged w2 ++ [(Info, "EXEC: " +:+ container this +:+ " as " +:+ user this +:+
                                      ": " +:+ shell this +:+ " -c ...")])
                (clock w2)).
Proof.
  intros Hplain Huser Hallowed Hsub Hrules.
  unfold CommandToolExecutor_execute, bind at 1.
  rewrite (resolveContainerUser_plain _ _ _ Hplain), Hallowed, Hsub.
  unfold bind at 1, lift. rewrite Hrules. cbn [truthy_message].
  unfold bind at 1. rewrite dockerExec_as_user by assumption.
  destruct (try_catch (validateContainer (container this) (ddevProject this)) _ w)
    as [[[]|e] w2] eqn:Hv.
  - exists w2. split; [reflexivity |].
    unfold try_catch, bind at 1, log at 1, bind at 1. rewrite execCommand_docker.
    cbn [validatedContainers uidCache spawned sent logged clock].
    unfold exec_envelope, exec_call.
    destruct (proc_error (execFile (spawned w2) _)); reflexivity.
  - exfalso. unfold try_catch in Hv.
    destruct (validateContainer (container this) (ddevProject this) w) as [[[]|e'] w3];
      discriminate Hv.
Qed.

End Runs.

(** X16: the validation of the container never keeps a command from
    running.  For a tool with a fixed user, once the arguments render to a
    command that no rule stops, the last process that execute starts is
    sg docker -c with one line: the words docker exec -u, the user, the
    container, the shell, -c and the rendered command, joined by spaces,
    a word between single quotes only when it holds a space or a quote.
    Before it comes the label query at most, on a key that is not cached,
    and whatever that query says, an ownership mismatch included.  The
    envelope carries the trimmed output of that process, or its
    failure. *)
Theorem execute_runs_whatever_validation_says `{RT : Runtime}
  (this : CommandToolExecutor) (args : JsObject) (w : World) (cmdStr : string) :
  Str.startsWith (user this) "auto:uid-from-path" = false ->
  user this <> EmptyString ->
  disallowed_command this (Obj.spread (defaultArgs_object this) args) = None ->
  substitute O (commandTemplate this) (Obj.spread (defaultArgs_object this) args)
  = Ret cmdStr ->
  checkRules this cmdStr = Ret None ->
  exists pre,
    (pre = [] /\ is_Some (validatedContainers w !! (container this +:+ ":" +:+
                                                    ddevProject this))
     \/ pre = [inspect_call (container this)]
        /\ validatedContainers w !! (container this +:+ ":" +:+ ddevProject this) = None)
    /\ spawned (snd (CommandToolExecutor_execute this args w))
       = spawned w ++ pre ++ [exec_call this cmdStr]
    /\ exec_call this cmdStr
       = mkProcCall "sg"
           ["docker"; "-c";
            Str.join (map sg_quote ["docker"; "exec"; "-u"; user this; container this;
                                    shell this; "-c"; cmdStr]) " "]
    /\ fst (CommandToolExecutor_execute this args w)
       = Ret (match proc_error (execFile (spawned w ++ pre) (exec_call this cmdStr)) with
              | None =>
                  mkResult
                    (JStr (Str.trim (proc_stdout (execFile (spawned w ++ pre)
                                                    (exec_call this cmdStr)))))
                    None
              | Some _ =>
                  mkResult
                    (JStr ("Execution failed: " +:+
                           failure_message "docker"
                             ["exec"; "-u"; user this; container this; shell this; "-c";
                              cmdStr]
                             (execFile (spawned w ++ pre) (exec_call this cmdStr))))
                    (Some true)
              end)
    /\ sent (snd (CommandToolExecutor_execute this args w)) = sent w.
Proof.
  intros Hplain Huser Hallowed Hsub Hrules.
  destruct (execute_past_checks this args w cmdStr Hplain Huser Hallowed Hsub Hrules)
    as (w2 & Hw2 & Hrun).
  rewrite Hrun. cbn [fst snd spawned sent]. clear Hrun.
  destruct (validateContainer_cases (container this) (ddevProject this) w)
    as (r & w1 & Hv & Hsent & Hsp).
  assert (Hsame : spawned w2 = spawned w1 /\ sent w2 = sent w1).
  { subst w2. unfold try_catch. rewrite Hv. destruct r as [[]|e]; split; reflexivity. }
  destruct Hsame as [Hs2 Hn2]. rewrite Hs2, Hn2, Hsent.
  destruct Hsp as [[Hs Hc] | [Hs Hc]]; rewrite Hs.
  - exists []. rewrite app_nil_r. repeat split. left. split; [reflexivity | exact Hc].
  - exists [inspect_call (container this)]. rewrite <- app_assoc. repeat split.
    right. split; [reflexivity | exact Hc].
Qed.

(** The line for sg is not quoted as a whole: a rendered command without
    a space or a quote goes into it as it is. *)
Example exec_call_unquoted :
  exec_call ls_tool "id;reboot"
  = mkProcCall "sg" ["docker"; "-c"; "docker exec -u www-data web /bin/bash -c id;reboot"].
Proof. reflexivity. Qed.

(** X16 on an example: the container belongs to another project, and the
    command runs in it all the same. *)
Lemma execute_runs_whatever_validation_says_example :
  exists pre,
    (pre = [] /\ is_Some (validatedContainers empty_world !! "web:site")
     \/ pre = [inspect_call "web"] /\ validatedContainers empty_world !! "web:site" = None)
    /\ spawned (snd (@CommandToolExecutor_execute other_site ls_tool
                       [("path", JStr "/tmp")] empty_world))
       = spawned empty_world ++ pre ++ [exec_call ls_tool "ls -l /tmp /tmp -l"]
    /\ fst (@CommandToolExecutor_execute other_site ls_tool
              [("path", JStr "/tmp")] empty_world)
       = Ret (exec_envelope ls_tool "ls -l /tmp /tmp -l"
                (@execFile other_site (spawned empty_world ++ pre)
                   (exec_call ls_tool "ls -l /tmp /tmp -l")))
    /\ sent (snd (@CommandToolExecutor_execute other_site ls_tool
                    [("path", JStr "/tmp")] empty_world)) = sent empty_world.
Proof.
  destruct (@execute_runs_whatever_validation_says other_site ls_tool [("path", JStr "/tmp")]
              empty_world "ls -l /tmp /tmp -l")
    as (pre & Hpre & Hspawn & _ & Hres & Hsent).
  - reflexivity.
  - discriminate.
  - reflexivity.
  - reflexivity.
  - reflexivity.
  - exists pre. split; [exact Hpre |]. split; [exact Hspawn |]. split; [exact Hres |].
    exact Hsent.
Defined.

(** ** docker.ts: the cache of resolved users *)

(** X17: every call of resolveContainerUser pins its answer.  After a
    call has returned an identity, a call for the same user and container
    in any later world with the same cache returns that identity again and
    changes nothing: no process, no log line.  This holds after a failed
    lookup as well, whose fallback www-data is cached like a resolved
    UID. *)
Theorem resolveContainerUser_answer_is_pinned `{RT : Runtime}
  (user container : string) (w : World) :
  exists u w1,
    resolveContainerUser user container w = (Ret u, w1)
    /\ forall w2, uidCache w2 = uidCache w1 ->
                  resolveContainerUser user container w2 = (Ret u, w2).
Proof.
  destruct (Str.startsWith user "auto:uid-from-path") eqn:H.
  - assert (Hfresh : uid_uncached w (container +:+ ":" +:+ uid_target_path user) ->
                     exists u w1,
                       resolveContainerUser user container w = (Ret u, w1)
                       /\ forall w2, uidCache w2 = uidCache w1 ->
                                     resolveContainerUser user container w2 = (Ret u, w2)).
    { intros Hu. rewrite (resolveContainerUser_lookup _ _ _ H Hu), resolve_uid_run.
      destruct (proc_error _); [| destruct (Str.nonempty _) eqn:Hne];
        do 2 eexists; (split; [reflexivity |]); intros w2 Hc; cbn [uidCache] in Hc;
        apply (resolveContainerUser_cached _ _ _ _ H);
        try (rewrite Hc; apply lookup_insert_eq); try discriminate.
      now apply StrFacts.nonempty_true. }
    destruct (uidCache w !! (container +:+ ":" +:+ uid_target_path user)) as [c|] eqn:Hc.
    + destruct (String.eqb_spec c EmptyString) as [->|Hne].
      * apply Hfresh. unfold uid_uncached. now rewrite Hc.
      * rewrite (resolveContainerUser_cached _ _ _ _ H Hc Hne).
        do 2 eexists. split; [reflexivity |]. intros w2 Hw2.
        apply (resolveContainerUser_cached _ _ _ _ H); [now rewrite Hw2 | exact Hne].
    + apply Hfresh. unfold uid_uncached. now rewrite Hc.
  - exists user, w. split; [now apply resolveContainerUser_plain |].
    intros w2 _. now apply resolveContainerUser_plain.
Qed.

(** ** The SSH variant of the command executor *)

(** X18: in the SSH variant the check of disallowed commands comes before
    everything else.  For every injected backend, a command of the
    disallowed set is refused with the error envelope, and the call does
    nothing but log the refusal: the backend is not called, so no process
    is started and no request sent. *)
Theorem ssh_execute_refuses_before_backend `{RT : Runtime}
  (this : SshCommand.CommandToolExecutor) (args : JsObject) (c : string) (w : World) :
  Obj.get args "command" = Some (JStr c) ->
  In c (SshCommand.disallowedCommands this) ->
  SshCommand.execute this args w
  = (Ret (mkResult (JStr ("Error: Command '" +:+ c +:+ "' is not allowed")) (Some true)),
     mkWorld (validatedContainers w) (uidCache w) (spawned w) (sent w)
             (logged w ++ [(Warn, "Blocked disallowed command: " +:+ c)]) (clock w)).
Proof.
  intros Hc Hin. unfold SshCommand.execute, SshCommand.disallowed_command.
  rewrite ObjFacts.get_spread, Hc. apply Set_has_In in Hin. rewrite Hin. reflexivity.
Qed.

(** X18 on an example: rm, with a backend that would fail. *)
Lemma ssh_execute_refuses_before_backend_example :
  fst (@SshCommand.execute offline ssh_guarded_tool [("command", JStr "rm")] empty_world)
  = Ret (mkResult (JStr "Error: Command 'rm' is not allowed") (Some true)).
Proof.
  exact (f_equal fst (@ssh_execute_refuses_before_backend offline ssh_guarded_tool
                        [("command", JStr "rm")] "rm" empty_world eq_refl
                        (or_introl eq_refl))).
Defined.

(** X19: in the SSH variant execute returns an envelope for every
    argument mapping and every injected backend, when every pattern among
    the rules is a regular expression; a backend that throws ends in the
    envelope Execution failed with the message of its error. *)
Theorem ssh_execute_returns_for_every_backend `{RT : Runtime}
  (this : SshCommand.CommandToolExecutor) (args : JsObject) (w : World) :
  (forall rule value, In rule (SshCommand.validationRules this) ->
                      exists b, RegExp_test (pattern rule) value = Ret b) ->
  (exists result w', SshCommand.execute this args w = (Ret result, w'))
  /\ (forall cmdStr e w1,
         SshCommand.disallowed_command this
           (Obj.spread (SshCommand.defaultArgs_object this) args) = None ->
         substitute O (SshCommand.commandTemplate this)
           (Obj.spread (SshCommand.defaultArgs_object this) args) = Ret cmdStr ->
         SshCommand.checkRules this cmdStr = Ret None ->
         run (SshCommand.executor this) (SshCommand.backend_options this cmdStr)
             (mkWorld (validatedContainers w) (uidCache w) (spawned w) (sent w)
                      (logged w ++ [(Info, "EXEC: " +:+ SshCommand.host this +:+ " via " +:+
                                           class_name (SshCommand.executor this))])
                      (clock w))
         = (Throw e, w1) ->
         SshCommand.execute this args w
         = (Ret (mkResult (JStr ("Execution failed: " +:+ err_message e)) (Some true)), w1)).
Proof.
  intros Hc. split.
  - unfold SshCommand.execute.
    destruct (SshCommand.disallowed_command this _) as [c|]; [run_js; eauto |].
    destruct (substitute O (SshCommand.commandTemplate this) _) as [cmdStr|e];
      [| run_js; eauto].
    destruct (checkRules_from_total (SshCommand.validationRules this) cmdStr) as [r Hr];
      [intros rule Hin; exact (Hc rule cmdStr Hin) |].
    unfold bind at 1, lift, SshCommand.checkRules. rewrite Hr.
    destruct (truthy_message r); [run_js; eauto |].
    unfold try_catch, bind at 1, log at 1, bind at 1.
    match goal with
    | |- context [run ?b ?o ?w0] => destruct (run b o w0) as [[out|e] w3]
    end; run_js; eauto.
  - intros cmdStr e w1 Hallowed Hsub Hrules Hrun.
    unfold SshCommand.execute. rewrite Hallowed, Hsub.
    unfold bind at 1, lift. rewrite Hrules. cbn [truthy_message].
    unfold try_catch, bind at 1, log at 1, bind at 1. rewrite Hrun. reflexivity.
Qed.

(** X19 on an example: a backend that cannot reach the host. *)
Lemma ssh_execute_returns_for_every_backend_example :
  @SshCommand.execute offline ssh_guarded_tool
    [("command", JStr "ls"); ("target", JStr "/tmp")] empty_world
  = (Ret (mkResult (JStr "Execution failed: no route to host") (Some true)),
     mkWorld ∅ ∅ [] [] [(Info, "EXEC: web via Failing")] 0).
Proof.
  refine (proj2 (@ssh_execute_returns_for_every_backend offline ssh_guarded_tool
                   [("command", JStr "ls"); ("target", JStr "/tmp")] empty_world _)
            "ls /tmp" (Error "no route to host") _ eq_refl eq_refl eq_refl eq_refl).
  intros rule value [].
Defined.

(** ** Quoting for the shell *)

Section Quoting.

Lemma replaceChar_quote_read cmd tail :
  sh_read true
    (Str.replaceChar cmd "039"%char
       (Str.squote +:+ Str.backslash +:+ Str.squote +:+ Str.squote) +:+ tail)
  = option_map (String.append cmd) (sh_read true tail).
Proof.
  induction cmd as [|a cmd IH].
  - cbn [Str.replaceChar]. rewrite StrFacts.append_nil_l.
    destruct (sh_read true tail); reflexivity.
  - cbn [Str.replaceChar]. destruct (Ascii.eqb_spec a "039"%char) as [->|Hne].
    + rewrite StrFacts.append_assoc.
      change ((Str.squote +:+ Str.backslash +:+ Str.squote +:+ Str.squote) +:+ ?x)
        with (String "039"%char (String "092"%char (String "039"%char (String "039"%char x)))).
      cbn [sh_read Ascii.eqb Bool.eqb]. rewrite IH.
      destruct (sh_read true tail); reflexivity.
    + rewrite StrFacts.append_cons. cbn [sh_read].
      apply Ascii.eqb_neq in Hne. rewrite Hne, IH.
      destruct (sh_read true tail); reflexivity.
Qed.

Lemma quoted_read cmd :
  sh_read false
    (Str.squote +:+
     Str.replaceChar cmd "039"%char
       (Str.squote +:+ Str.backslash +:+ Str.squote +:+ Str.squote) +:+
     Str.squote)
  = Some cmd.
Proof.
  change (Str.squote +:+ ?x) with (String "039"%char x) at 1.
  cbn [sh_read Ascii.eqb Bool.eqb]. rewrite replaceChar_quote_read.
  cbn [Str.squote sh_read Ascii.eqb Bool.eqb option_map].
  now rewrite StrFacts.append_nil_r.
Qed.

End Quoting.

(** X20: the quoting is sound.  What escapeShellCommand makes of a
    command, a POSIX shell reads back as one word that is the command
    itself, whatever characters it holds; and so does it read every word
    that execCommand quotes for sg, those with a space or a quote in
    them. *)
Theorem shell_quoting_reads_back (s : string) :
  sh_read false (escapeShellCommand s) = Some s
  /\ (Str.includes s " " || Str.includes s Str.dquote || Str.includes s Str.squote = true ->
      sh_read false (sg_quote s) = Some s).
Proof.
  split.
  - unfold escapeShellCommand. apply quoted_read.
  - intros Hq. unfold sg_quote. rewrite Hq. apply quoted_read.
Qed.

(** X20 on an example: a command with a quote in it. *)
Lemma shell_quoting_reads_back_example :
  sh_read false (sg_quote "echo 'a b'") = Some "echo 'a b'".
Proof.
  exact (proj2 (shell_quoting_reads_back "echo 'a b'") eq_refl).
Defined.

(** X21: from the template to the remote shell.  When the SSH variant
    runs over SshExecutor without a working directory, the rendered
    command of a call that passes the checks reaches the one process of
    the call, ssh, as the last argument: the shell of the tool, -c, and a
    quoted word that a POSIX shell reads back as the rendered command. *)
Theorem ssh_command_reaches_remote_shell_as_one_word `{RT : Runtime}
  (this : SshCommand.CommandToolExecutor) (ssh : SshExecutor) (args : JsObject) (w : World)
  (cmdStr : string) :
  SshCommand.executor this = SshExecutor_object ssh ->
  given (SshCommand.workingDir this) = false ->
  SshCommand.disallowed_command this
    (Obj.spread (SshCommand.defaultArgs_object this) args) = None ->
  substitute O (SshCommand.commandTemplate this)
    (Obj.spread (SshCommand.defaultArgs_object this) args) = Ret cmdStr ->
  SshCommand.checkRules this cmdStr = Ret None ->
  exists word,
    spawned (snd (SshCommand.execute this args w))
    = spawned w ++
      [mkProcCall "ssh"
         ["-o"; "StrictHostKeyChecking=no"; "-o"; "UserKnownHostsFile=/dev/null";
          "-o"; "LogLevel=ERROR";
          ssh_destination ssh (SshCommand.backend_options this cmdStr);
          SshCommand.shell this +:+ " -c " +:+ word]]
    /\ sh_read false word = Some cmdStr.
Proof.
  intros Hex Hwd Hallowed Hsub Hrules.
  exists (escapeShellCommand cmdStr). split; [| apply quoted_read].
  unfold SshCommand.execute. rewrite Hallowed, Hsub.
  unfold bind at 1, lift. rewrite Hrules. cbn [truthy_message].
  unfold try_catch, bind at 1, log at 1, bind at 1. rewrite Hex.
  cbn [run SshExecutor_object]. unfold SshExecutor_execute, bind at 1, log at 1.
  unfold bind at 1, spawn.
  cbn [validatedContainers uidCache spawned sent logged clock].
  assert (Hargs : ssh_args ssh (SshCommand.backend_options this cmdStr)
                  = ["-o"; "StrictHostKeyChecking=no"; "-o"; "UserKnownHostsFile=/dev/null";
                     "-o"; "LogLevel=ERROR";
                     ssh_destination ssh (SshCommand.backend_options this cmdStr);
                     SshCommand.shell this +:+ " -c " +:+ escapeShellCommand cmdStr]).
  { unfold ssh_args, ssh_fullCmd, SshCommand.backend_options.
    cbn [sx_shell sx_workingDir sx_command]. rewrite Hwd. reflexivity. }
  rewrite Hargs.
  destruct (proc_error _); reflexivity.
Qed.

(** X21 on an example: a path with a space and a quote in it. *)
Lemma ssh_command_reaches_remote_shell_as_one_word_example :
  exists word,
    spawned (snd (@SshCommand.execute offline (@ssh_ls_tool offline)
                    [("path", JStr "/srv/it's here")] empty_world))
    = spawned empty_world ++
      [mkProcCall "ssh"
         ["-o"; "StrictHostKeyChecking=no"; "-o"; "UserKnownHostsFile=/dev/null";
          "-o"; "LogLevel=ERROR";
          ssh_destination (mkSshExecutor (Some "deploy"))
            (@SshCommand.backend_options (@ssh_ls_tool offline) "ls /srv/it's here");
          SshCommand.shell (@ssh_ls_tool offline) +:+ " -c " +:+ word]]
    /\ sh_read false word = Some "ls /srv/it's here".
Proof.
  exact (@ssh_command_reaches_remote_shell_as_one_word offline (@ssh_ls_tool offline)
           (mkSshExecutor (Some "deploy")) [("path", JStr "/srv/it's here")] empty_world
           "ls /srv/it's here" eq_refl eq_refl eq_refl eq_refl eq_refl).
Defined.

(** ** env-resolve.ts *)

Section Placeholders.

Lemma only_logged_refl w : only_logged w w.
Proof. repeat split. Qed.

Lemma only_logged_trans a b c : only_logged a b -> only_logged b c -> only_logged a c.
Proof.
  intros (H1 & H2 & H3 & H4 & H5) (G1 & G2 & G3 & G4 & G5).
  repeat split; congruence.
Qed.

Lemma only_logged_log lvl msg w : only_logged w (snd (log lvl msg w)).
Proof. repeat split. Qed.

(** The word at the start of a string is a prefix of it. *)
Lemma take_word_prefix s : s = take_word s +:+ Str.slice s (String.length (take_word s)).
Proof.
  induction s as [|a s IH]; [reflexivity |].
  cbn [take_word]. destruct (is_word a); [| reflexivity].
  rewrite StrFacts.append_cons. cbn [String.length Str.slice]. now rewrite <- IH.
Qed.

(** A match of the brace pattern is the text at the start of the string. *)
Lemma match_placeholder_text s v :
  match_placeholder s = Some v -> exists tail, s = "{" +:+ v +:+ "}" +:+ tail.
Proof.
  destruct s as [|a s]; [discriminate |]. unfold match_placeholder.
  destruct (Ascii.eqb_spec a "{"%char) as [->|]; [| discriminate].
  destruct (Str.nonempty (take_word s) &&
            Str.startsWith (Str.slice s (String.length (take_word s))) "}") eqn:H;
    [| discriminate].
  intros [= <-]. apply andb_prop in H. destruct H as [_ H].
  apply StrFacts.startsWith_spec in H. destruct H as [tail Htail].
  exists tail. rewrite <- Htail, StrFacts.append_cons, StrFacts.append_nil_l.
  f_equal. apply take_word_prefix.
Qed.

Lemma match_env_placeholder_text s v :
  match_env_placeholder s = Some v -> exists tail, s = "${" +:+ v +:+ "}" +:+ tail.
Proof.
  destruct s as [|a s]; [discriminate |]. unfold match_env_placeholder.
  destruct (Ascii.eqb_spec a "$"%char) as [->|]; [| discriminate].
  intros H. apply match_placeholder_text in H. destruct H as [tail ->].
  exists tail. reflexivity.
Qed.

(** The word at the start of a name followed by a brace is the name. *)
Lemma take_word_name v tail :
  Forall (fun a => is_word a = true) (list_ascii_of_string v) ->
  take_word (v +:+ "}" +:+ tail) = v.
Proof.
  induction v as [|a v IH]; intros Hw; [reflexivity |].
  cbn [list_ascii_of_string] in Hw. inversion Hw as [|? ? Ha Hv]; subst.
  rewrite StrFacts.append_cons. cbn [take_word]. rewrite Ha. f_equal. now apply IH.
Qed.

Lemma match_placeholder_name v tail :
  is_name v -> match_placeholder ("{" +:+ v +:+ "}" +:+ tail) = Some v.
Proof.
  intros [Hne Hw]. rewrite StrFacts.append_cons, StrFacts.append_nil_l.
  unfold match_placeholder. cbn [Ascii.eqb Bool.eqb].
  rewrite (take_word_name v tail Hw), StrFacts.slice_append.
  apply StrFacts.nonempty_true in Hne. rewrite Hne. reflexivity.
Qed.

Lemma match_env_placeholder_name v tail :
  is_name v -> match_env_placeholder ("${" +:+ v +:+ "}" +:+ tail) = Some v.
Proof.
  intros Hn. rewrite StrFacts.append_cons. unfold match_env_placeholder.
  cbn [Ascii.eqb Bool.eqb]. now apply match_placeholder_name.
Qed.

End Placeholders.

Section Replace.
Variable opening : string.
Variable matcher : string -> option string.
Variable callback : string -> string -> M string.
Hypothesis opening_nonempty : opening <> EmptyString.
Hypothesis matcher_text :
  forall s v, matcher s = Some v -> exists tail, s = opening +:+ v +:+ "}" +:+ tail.

(** A match that is stepped over leaves nothing to replace. *)
Lemma replace_placeholders_skip s :
  forall skip w,
    (String.length s <= skip)%nat ->
    replace_placeholders opening matcher callback skip s w = (Ret EmptyString, w).
Proof.
  induction s as [|a s IH]; intros skip w Hlen; [reflexivity |].
  cbn [replace_placeholders]. cbn [String.length] in Hlen.
  destruct skip as [|k]; [lia |]. apply IH. lia.
Qed.

(** With a callback that keeps the matches of [s], the string comes back
    as it is, from where the scan starts. *)
Lemma replace_placeholders_keep (kept : string -> Prop) s :
  (forall matched v w, kept v ->
                       exists w', callback matched v w = (Ret matched, w')
                                  /\ only_logged w w') ->
  (forall p t v, s = p +:+ t -> matcher t = Some v -> kept v) ->
  forall skip w,
  exists w',
    replace_placeholders opening matcher callback skip s w = (Ret (Str.slice s skip), w')
    /\ only_logged w w'.
Proof.
  intros Hkeep. induction s as [|a s IH]; intros Hs skip w.
  - exists w. split; [destruct skip; reflexivity | apply only_logged_refl].
  - assert (IH' := IH (fun p t v Hp => Hs (String a p) t v (f_equal (String a) Hp))).
    cbn [replace_placeholders]. destruct skip as [|k]; [| apply IH'].
    cbn [Str.slice]. destruct (matcher (String a s)) as [v|] eqn:Hm.
    + destruct (matcher_text _ _ Hm) as [tail Htail].
      destruct (Hkeep (opening +:+ v +:+ "}") v w (Hs EmptyString _ v eq_refl Hm))
        as (w1 & Hcb & Hl1).
      unfold bind at 1. rewrite Hcb.
      destruct (IH' (String.length (opening +:+ v +:+ "}") - 1)%nat w1) as (w2 & Hrest & Hl2).
      unfold bind at 1. rewrite Hrest. unfold ret. exists w2.
      split; [| eapply only_logged_trans; eassumption].
      f_equal. f_equal.
      destruct opening as [|o opening'] eqn:Ho; [congruence |].
      rewrite <- !StrFacts.append_assoc in Htail. rewrite !StrFacts.append_cons in Htail.
      injection Htail as -> ->.
      rewrite <- !StrFacts.append_assoc, !StrFacts.append_cons.
      set (m := (opening' +:+ v) +:+ "}").
      replace (String.length (String o m) - 1)%nat with (String.length m)
        by (cbn [String.length]; lia).
      now rewrite StrFacts.slice_append.
    + destruct (IH' O w) as (w1 & Hrest & Hl). unfold bind at 1. rewrite Hrest.
      exists w1. split; [reflexivity | exact Hl].
Qed.

(** A match is a part of the string. *)
Lemma matcher_includes s p t v :
  s = p +:+ t -> matcher t = Some v -> Str.includes s (opening +:+ v +:+ "}") = true.
Proof.
  intros -> Hm. destruct (matcher_text _ _ Hm) as [tail ->].
  replace (opening +:+ v +:+ "}" +:+ tail) with ((opening +:+ v +:+ "}") +:+ tail)
    by (now rewrite !StrFacts.append_assoc).
  apply StrIncludes.includes_infix.
Qed.

(** A string that is one placeholder: the callback decides. *)
Lemma replace_placeholders_one v w r w1 :
  matcher (opening +:+ v +:+ "}") = Some v ->
  callback (opening +:+ v +:+ "}") v w = (Ret r, w1) ->
  replace_placeholders opening matcher callback O (opening +:+ v +:+ "}") w = (Ret r, w1).
Proof.
  intros Hm Hcb.
  destruct (opening +:+ v +:+ "}") as [|a rest] eqn:Htext.
  { destruct opening; [congruence | discriminate Htext]. }
  cbn [replace_placeholders]. rewrite Hm. rewrite Htext. unfold bind at 1.
  rewrite Hcb. unfold bind at 1.
  rewrite replace_placeholders_skip.
  - unfold ret. now rewrite StrFacts.append_nil_r.
  - cbn [String.length]. lia.
Qed.

End Replace.

Section Resolve.
Context `{RT : Runtime}.

Lemma lookup_or_keep_missing kind vars matched v w :
  given (read_var vars v) = false ->
  exists w', lookup_or_keep kind vars matched v w = (Ret matched, w') /\ only_logged w w'.
Proof.
  intros H. unfold lookup_or_keep. rewrite H. eexists. split; [reflexivity |].
  repeat split.
Qed.

Lemma lookup_or_keep_found kind vars matched v x w :
  vars !! v = Some x -> x <> EmptyString ->
  lookup_or_keep kind vars matched v w = (Ret x, w).
Proof.
  intros H Hx. unfold lookup_or_keep, read_var. rewrite H. cbn [given].
  apply StrFacts.nonempty_true in Hx. rewrite Hx. reflexivity.
Qed.

End Resolve.

(** X22: resolveEnvVars keeps what it cannot resolve.  When no name that
    the template holds between a dollar sign and braces reads as a value
    that is not empty in the environment, and no name that it holds
    between braces does among the bridge variables, the template comes
    back as it is, and the call does nothing but log its warnings.  A name
    reads as the value the object has for it, or else as what every object
    inherits under it: toString is never without a value. *)
Theorem resolveEnvVars_keeps_unresolved_template `{RT : Runtime}
  (template : string) (envVars bridgeVars : gmap string string) (w : World) :
  (forall v, Str.includes template ("${" +:+ v +:+ "}") = true ->
             given (read_var envVars v) = false) ->
  (forall v, Str.includes template ("{" +:+ v +:+ "}") = true ->
             given (read_var bridgeVars v) = false) ->
  exists w',
    resolveEnvVars template envVars bridgeVars w = (Ret template, w')
    /\ only_logged w w'.
Proof.
  intros He Hb. unfold resolveEnvVars, bind.
  destruct (replace_placeholders_keep "${" match_env_placeholder
              (lookup_or_keep "Environment" envVars) ltac:(discriminate)
              match_env_placeholder_text
              (fun v => given (read_var envVars v) = false) template
              (fun matched v w0 Hv => lookup_or_keep_missing _ _ matched v w0 Hv)
              (fun p t v Hp Hm =>
                 He v (matcher_includes "${" match_env_placeholder
                         match_env_placeholder_text template p t v Hp Hm))
              O w)
    as (w1 & H1 & Hl1).
  rewrite H1. cbn [Str.slice].
  destruct (replace_placeholders_keep "{" match_placeholder
              (lookup_or_keep "Bridge" bridgeVars) ltac:(discriminate)
              match_placeholder_text
              (fun v => given (read_var bridgeVars v) = false) template
              (fun matched v w0 Hv => lookup_or_keep_missing _ _ matched v w0 Hv)
              (fun p t v Hp Hm =>
                 Hb v (matcher_includes "{" match_placeholder
                         match_placeholder_text template p t v Hp Hm))
              O w1)
    as (w2 & H2 & Hl2).
  rewrite H2. cbn [Str.slice]. exists w2.
  split; [reflexivity | eapply only_logged_trans; eassumption].
Qed.

(** Without variables, a name reads as a value only if it is inherited. *)
Lemma read_var_empty `{RT : Runtime} v :
  ~ In v Obj.prototype_keys -> given (read_var ∅ v) = false.
Proof.
  intros Hn. unfold read_var. rewrite lookup_empty. now rewrite (inherited_None v Hn).
Qed.

(** X22 on an example: no variable at all, and a template that names
    none that is inherited. *)
Lemma resolveEnvVars_keeps_unresolved_template_example :
  exists w',
    @resolveEnvVars offline "ssh ${USER}@{DDEV_PROJECT}.ddev.site" ∅ ∅ empty_world
    = (Ret "ssh ${USER}@{DDEV_PROJECT}.ddev.site", w')
    /\ only_logged empty_world w'.
Proof.
  apply (@resolveEnvVars_keeps_unresolved_template offline
           "ssh ${USER}@{DDEV_PROJECT}.ddev.site" ∅ ∅ empty_world).
  - intros v Hv. apply read_var_empty. intros Hin.
    unfold Obj.prototype_keys, Obj.prototype_methods in Hin. cbn [In] in Hin.
    repeat (destruct Hin as [<-|Hin]; [discriminate Hv |]). exact Hin.
  - intros v Hv. apply read_var_empty. intros Hin.
    unfold Obj.prototype_keys, Obj.prototype_methods in Hin. cbn [In] in Hin.
    repeat (destruct Hin as [<-|Hin]; [discriminate Hv |]). exact Hin.
Defined.

(** X23: the second pass of resolveEnvVars reads the output of the first.
    An environment placeholder whose name reads as no value in the
    environment is not kept when a bridge variable has its name: its
    braces are resolved as a bridge placeholder, and the dollar sign stays
    in front of the value.  And the value of an environment variable is
    itself searched for bridge placeholders. *)
Theorem resolveEnvVars_second_pass_reads_first `{RT : Runtime}
  (v x : string) (envVars bridgeVars : gmap string string) (w : World) :
  is_name v ->
  x <> EmptyString ->
  (given (read_var envVars v) = false -> bridgeVars !! v = Some x ->
   fst (resolveEnvVars ("${" +:+ v +:+ "}") envVars bridgeVars w) = Ret ("$" +:+ x))
  /\ (forall b, is_name b -> envVars !! v = Some ("{" +:+ b +:+ "}") ->
                bridgeVars !! b = Some x ->
                fst (resolveEnvVars ("${" +:+ v +:+ "}") envVars bridgeVars w) = Ret x).
Proof.
  intros Hv Hx. split.
  - intros He Hb. unfold resolveEnvVars, bind at 1.
    destruct (lookup_or_keep_missing "Environment" envVars ("${" +:+ v +:+ "}") v w He)
      as (w1 & Hcb & _).
    rewrite (replace_placeholders_one "${" match_env_placeholder _ ltac:(discriminate)
               match_env_placeholder_text v w _ w1 (match_env_placeholder_name v EmptyString Hv) Hcb).
    rewrite StrFacts.append_cons.
    cbn [replace_placeholders match_placeholder Ascii.eqb Bool.eqb]. unfold bind at 1.
    rewrite (replace_placeholders_one "{" match_placeholder _ ltac:(discriminate)
               match_placeholder_text v w1 x w1 (match_placeholder_name v EmptyString Hv)
               (lookup_or_keep_found _ _ _ _ _ _ Hb Hx)).
    reflexivity.
  - intros b Hbn He Hb. unfold resolveEnvVars, bind at 1.
    assert (Hbx : "{" +:+ b +:+ "}" <> EmptyString) by discriminate.
    rewrite (replace_placeholders_one "${" match_env_placeholder _ ltac:(discriminate)
               match_env_placeholder_text v w _ w (match_env_placeholder_name v EmptyString Hv)
               (lookup_or_keep_found _ _ _ _ _ _ He Hbx)).
    rewrite (replace_placeholders_one "{" match_placeholder _ ltac:(discriminate)
               match_placeholder_text b w x w (match_placeholder_name b EmptyString Hbn)
               (lookup_or_keep_found _ _ _ _ _ _ Hb Hx)).
    reflexivity.
Qed.

(** X23 on an example: USER is not set in the environment, and is a
    bridge variable. *)
Lemma resolveEnvVars_second_pass_reads_first_example :
  fst (@resolveEnvVars offline "${USER}" ∅ {["USER" := "deploy"]} empty_world)
  = Ret "$deploy".
Proof.
  refine (proj1 (@resolveEnvVars_second_pass_reads_first offline "USER" "deploy" ∅
                   {["USER" := "deploy"]} empty_world _ _) eq_refl eq_refl).
  - split; [discriminate | repeat constructor].
  - discriminate.
Defined.

Section ResolveObject.
Context `{RT : Runtime}.

Lemma replace_placeholders_returns opening matcher callback s :
  (forall matched v w, exists r w', callback matched v w = (Ret r, w') /\ only_logged w w') ->
  forall skip w,
  exists out w',
    replace_placeholders opening matcher callback skip s w = (Ret out, w')
    /\ only_logged w w'.
Proof.
  intros Hcb. induction s as [|a s IH]; intros skip w.
  - exists EmptyString, w. split; [reflexivity | apply only_logged_refl].
  - cbn [replace_placeholders]. destruct skip as [|k]; [| apply IH].
    destruct (matcher (String a s)) as [v|].
    + destruct (Hcb (opening +:+ v +:+ "}") v w) as (r & w1 & Hr & Hl1).
      unfold bind at 1. rewrite Hr.
      destruct (IH (String.length (opening +:+ v +:+ "}") - 1)%nat w1) as (out & w2 & Ho & Hl2).
      unfold bind at 1. rewrite Ho. do 2 eexists.
      split; [reflexivity | eapply only_logged_trans; eassumption].
    + destruct (IH O w) as (out & w1 & Ho & Hl). unfold bind at 1. rewrite Ho.
      do 2 eexists. split; [reflexivity | exact Hl].
Qed.

Lemma lookup_or_keep_returns kind vars matched v w :
  exists r w', lookup_or_keep kind vars matched v w = (Ret r, w') /\ only_logged w w'.
Proof.
  unfold lookup_or_keep. destruct (given (read_var vars v)).
  - do 2 eexists. split; [reflexivity | apply only_logged_refl].
  - do 2 eexists. split; [reflexivity | repeat split].
Qed.

Lemma resolveEnvVars_returns template envVars bridgeVars w :
  exists r w', resolveEnvVars template envVars bridgeVars w = (Ret r, w') /\ only_logged w w'.
Proof.
  unfold resolveEnvVars, bind.
  destruct (replace_placeholders_returns "${" match_env_placeholder
              (lookup_or_keep "Environment" envVars) template
              (lookup_or_keep_returns _ _) O w) as (r1 & w1 & H1 & Hl1).
  rewrite H1.
  destruct (replace_placeholders_returns "{" match_placeholder
              (lookup_or_keep "Bridge" bridgeVars) r1
              (lookup_or_keep_returns _ _) O w1) as (r2 & w2 & H2 & Hl2).
  rewrite H2. do 2 eexists. split; [reflexivity | eapply only_logged_trans; eassumption].
Qed.

(** A loop of assignments is a spread of the entries it leaves. *)
Lemma spread_assigned_cons acc key value entries :
  Obj.spread acc (Obj.assigned ((key, value) :: entries))
  = Obj.spread (Obj.assign acc key value) (Obj.assigned entries).
Proof.
  unfold Obj.assigned, Obj.assign. cbn [List.filter fst].
  destruct (String.eqb key "__proto__"); reflexivity.
Qed.

(** The loop writes, entry by entry, what it makes of each entry. *)
Lemma resolveEnvVars_entries_inv entries envVars bridgeVars :
  forall acc w,
  exists entries' w',
    resolveEnvVars_entries entries acc envVars bridgeVars w
    = (Ret (Obj.spread acc (Obj.assigned entries')), w')
    /\ only_logged w w'
    /\ Forall2 resolved_entry entries entries'.
Proof.
  induction entries as [|[key value] rest IH]; intros acc w.
  - exists [], w. split; [reflexivity |]. split; [apply only_logged_refl | constructor].
  - cbn [resolveEnvVars_entries].
    assert (Hother : (forall s, value <> JStr s) ->
                     exists entries' w',
                       resolveEnvVars_entries rest (Obj.assign acc key value) envVars bridgeVars w
                       = (Ret (Obj.spread acc (Obj.assigned entries')), w')
                       /\ only_logged w w'
                       /\ Forall2 resolved_entry ((key, value) :: rest) entries').
    { intros Hns. destruct (IH (Obj.assign acc key value) w) as (entries' & w' & Hrun & Hl & Hf).
      exists ((key, value) :: entries'), w'. rewrite spread_assigned_cons.
      split; [exact Hrun |]. split; [exact Hl |].
      constructor; [| exact Hf]. split; [reflexivity |].
      split; [intros s Hs; cbn [snd] in Hs; now destruct (Hns s) | reflexivity]. }
    destruct value as [| b | x | s | l | o]; try (apply Hother; intros s0; discriminate).
    destruct (resolveEnvVars_returns s envVars bridgeVars w) as (r & w1 & Hr & Hl1).
    unfold bind at 1. rewrite Hr.
    destruct (IH (Obj.assign acc key (JStr r)) w1) as (entries' & w' & Hrun & Hl & Hf).
    exists ((key, JStr r) :: entries'), w'. rewrite spread_assigned_cons.
    split; [exact Hrun |].
    split; [eapply only_logged_trans; eassumption |].
    constructor; [| exact Hf]. split; [reflexivity |].
    split; [intros s0 _; eauto | intros Hns; now destruct (Hns s)].
Qed.

Lemma get_assigned_proto (o : JsObject) : Obj.get (Obj.assigned o) "__proto__" = None.
Proof.
  unfold Obj.assigned. induction o as [|[k v] o IH]; [reflexivity |].
  cbn [List.filter fst]. destruct (String.eqb_spec k "__proto__") as [->|Hne]; cbn [negb].
  - exact IH.
  - cbn [Obj.get]. rewrite IH. apply String.eqb_neq in Hne. now rewrite Hne.
Qed.

Lemma get_assigned (o : JsObject) k :
  k <> "__proto__" -> Obj.get (Obj.assigned o) k = Obj.get o k.
Proof.
  intros Hk. unfold Obj.assigned. induction o as [|[k0 v] o IH]; [reflexivity |].
  cbn [List.filter fst Obj.get].
  destruct (String.eqb_spec k0 "__proto__") as [->|Hne]; cbn [negb].
  - rewrite IH. apply not_eq_sym, String.eqb_neq in Hk. rewrite Hk.
    now destruct (Obj.get o k).
  - cbn [Obj.get]. now rewrite IH.
Qed.

Lemma resolved_get_None entries entries' k :
  Forall2 resolved_entry entries entries' ->
  (Obj.get entries k = None <-> Obj.get entries' k = None).
Proof.
  induction 1 as [|[k0 v0] [k1 v1] rest rest' (Hk & _ & _) Hrest IH]; [reflexivity |].
  cbn [fst] in Hk. subst k1. cbn [Obj.get].
  destruct (Obj.get rest k) eqn:H1; destruct (Obj.get rest' k) eqn:H2.
  - split; discriminate.
  - destruct IH as [_ IH]. specialize (IH eq_refl). discriminate.
  - destruct IH as [IH _]. specialize (IH eq_refl). discriminate.
  - destruct (String.eqb k0 k); split; congruence.
Qed.

Lemma resolved_get_kept entries entries' k v :
  Forall2 resolved_entry entries entries' ->
  Obj.get entries k = Some v -> (forall s, v <> JStr s) ->
  Obj.get entries' k = Some v.
Proof.
  induction 1 as [|[k0 v0] [k1 v1] rest rest' (Hk & _ & Hv) Hrest IH]; [discriminate |].
  cbn [fst snd] in Hk, Hv. subst k1. cbn [Obj.get]. intros Hg Hns.
  destruct (Obj.get rest k) eqn:H1.
  - injection Hg as ->. now rewrite (IH eq_refl Hns).
  - apply (resolved_get_None _ _ k Hrest) in H1. rewrite H1.
    destruct (String.eqb k0 k); [| discriminate].
    injection Hg as ->. now rewrite (Hv Hns).
Qed.

Lemma has_get (o : JsObject) k : Obj.has o k = negb (bool_decide (Obj.get o k = None)).
Proof.
  destruct (Obj.get o k) eqn:Hg.
  - rewrite bool_decide_eq_false_2 by discriminate.
    destruct (Obj.has o k) eqn:Hh; [reflexivity |].
    apply ObjFacts.get_None in Hh. congruence.
  - rewrite bool_decide_eq_true_2 by reflexivity. now apply ObjFacts.get_None.
Qed.

End ResolveObject.

(** X24: resolveEnvVarsInObject is shallow.  It never throws and does
    nothing but log; the object it returns has the keys of the one it was
    given, except __proto__, which an assignment does not make a key; and
    under every other key a value that is not a string comes back as it
    is, so placeholders in the strings of a nested object or array are not
    resolved. *)
Theorem resolveEnvVarsInObject_is_shallow `{RT : Runtime}
  (obj : JsObject) (envVars bridgeVars : gmap string string) (w : World) :
  exists result w',
    resolveEnvVarsInObject obj envVars bridgeVars w = (Ret result, w')
    /\ only_logged w w'
    /\ (forall k, k <> "__proto__" -> Obj.has result k = Obj.has obj k)
    /\ Obj.has result "__proto__" = false
    /\ (forall k v, k <> "__proto__" ->
                    Obj.get obj k = Some v -> (forall s, v <> JStr s) ->
                    Obj.get result k = Some v).
Proof.
  unfold resolveEnvVarsInObject.
  destruct (resolveEnvVars_entries_inv obj envVars bridgeVars [] w)
    as (entries' & w' & Hrun & Hl & Hf).
  do 2 eexists. split; [exact Hrun |]. split; [exact Hl |].
  assert (Hget : forall k, Obj.get (Obj.spread [] (Obj.assigned entries')) k
                           = Obj.get (Obj.assigned entries') k).
  { intros k. rewrite ObjFacts.get_spread. now destruct (Obj.get (Obj.assigned entries') k). }
  split; [| split].
  - intros k Hk. rewrite !has_get, Hget, (get_assigned _ _ Hk). f_equal.
    pose proof (resolved_get_None _ _ k Hf) as Hn.
    destruct (Obj.get obj k), (Obj.get entries' k);
      try reflexivity; destruct Hn as [H1 H2];
      [specialize (H2 eq_refl) | specialize (H1 eq_refl)]; discriminate.
  - apply ObjFacts.get_None. rewrite Hget. apply get_assigned_proto.
  - intros k v Hk Hg Hns. rewrite Hget, (get_assigned _ _ Hk).
    eapply resolved_get_kept; eassumption.
Qed.

(** ** config.ts *)

Section Cli.

(** How the loop over the arguments can end in an exit. *)
Lemma parse_options_exited n :
  forall args acc code printed,
    (length args <= n)%nat ->
    parse_options args acc = Exited code printed ->
    (code = 0%Z /\ In "--help" args /\ printed = [usage]
     \/ code = 1%Z /\ exists arg, In arg args /\ printed = ["Unknown argument: " +:+ arg; usage]).
Proof.
  induction n as [|n IH]; intros args acc code printed Hlen H.
  - destruct args; [discriminate H | cbn in Hlen; lia].
  - destruct args as [|arg rest]; [discriminate H |].
    cbn [parse_options] in H. cbn [length] in Hlen.
    assert (Hstep : forall acc',
               match rest with
               | value :: rest' => parse_options rest' acc'
               | [] => Returned acc'
               end = Exited code printed ->
               (code = 0%Z /\ In "--help" (arg :: rest) /\ printed = [usage]
                \/ code = 1%Z /\ exists a, In a (arg :: rest)
                                           /\ printed = ["Unknown argument: " +:+ a; usage])).
    { intros acc' H'. destruct rest as [|value rest']; [discriminate H' |].
      cbn [length] in Hlen.
      destruct (IH rest' acc' code printed ltac:(lia) H') as [(-> & Hin & ->) | (-> & a & Hin & ->)].
      - left. repeat split. right. right. exact Hin.
      - right. split; [reflexivity |]. exists a. split; [right; right; exact Hin | reflexivity]. }
    destruct (String.eqb arg "--tools-config").
    { destruct rest; [discriminate H | eapply Hstep; exact H]. }
    destruct (String.eqb arg "--log-level").
    { destruct rest; [discriminate H | eapply Hstep; exact H]. }
    destruct (String.eqb arg "--log-file").
    { destruct rest; [discriminate H | eapply Hstep; exact H]. }
    destruct (String.eqb_spec arg "--help") as [->|Hne].
    + injection H as <- <-. left. repeat split. now left.
    + injection H as <- <-. right. split; [reflexivity |]. exists arg.
      split; [now left | reflexivity].
Qed.

(** The loop over options that all take a value: the last value of each
    option, or what the variable held before. *)
Lemma parse_options_spelled pairs :
  Forall (fun fv => known_flag (fst fv)) pairs ->
  forall acc,
    parse_options (spelled pairs) acc =
    Returned
      (mkCliOptions
         (match last_value pairs "--tools-config" with
          | Some v => Some v
          | None => cli_toolsConfigPath acc
          end)
         (match last_value pairs "--log-level" with
          | Some v => Some v
          | None => cli_logLevel acc
          end)
         (match last_value pairs "--log-file" with
          | Some v => Some v
          | None => cli_logFile acc
          end)).
Proof.
  induction 1 as [|[f v] rest Hf Hrest IH]; intros acc.
  - destruct acc. reflexivity.
  - unfold spelled. cbn [map concat fst snd app]. fold (spelled rest).
    cbn [parse_options last_value]. cbn [fst] in Hf.
    destruct Hf as [-> | [-> | ->]]; cbn [String.eqb Ascii.eqb Bool.eqb];
      rewrite IH; cbn [cli_toolsConfigPath cli_logLevel cli_logFile];
      destruct (last_value rest "--tools-config"), (last_value rest "--log-level"),
        (last_value rest "--log-file"); reflexivity.
Qed.

End Cli.

(** X25: parseArgs returns a configuration only with a tools path that
    is not empty.  Every other run ends in an exit after the usage text:
    with code 0 only for --help read as an option, with code 1 for an
    argument that is no option, and with code 1 when the path is missing
    or empty. *)
Theorem parseArgs_returns_only_with_tools_path
  (argv : list string) (env : gmap string string) :
  match parseArgs argv env with
  | Returned c => BridgeConfig.toolsConfigPath (bridge c) <> EmptyString
  | Exited code printed =>
      (code = 0%Z /\ In "--help" (skipn 2 argv) /\ printed = [usage])
      \/ (code = 1%Z /\ exists arg, In arg (skipn 2 argv)
                                    /\ printed = ["Unknown argument: " +:+ arg; usage])
      \/ (code = 1%Z /\ printed = ["Error: --tools-config is required"; usage])
  end.
Proof.
  unfold parseArgs.
  destruct (parse_options (skipn 2 argv) _) as [options | code printed] eqn:Hp.
  - destruct (given (cli_toolsConfigPath options)) eqn:Hg; cbn [negb].
    + cbn [bridge BridgeConfig.toolsConfigPath].
      destruct (cli_toolsConfigPath options) as [p|]; [| discriminate Hg].
      cbn [given] in Hg. now apply StrFacts.nonempty_true.
    + right. right. split; reflexivity.
  - destruct (parse_options_exited _ _ _ _ _ (le_n _) Hp) as [H | H]; [left | right; left];
      exact H.
Qed.

(** X26: for arguments that spell out options with their values,
    parseArgs does not depend on the order of different options, and the
    last value of an option wins: the tools path is the last value given
    for it, which must not be empty; the log level and the log file are
    their last values, or info and /tmp/wdrmcp.log; the project and the two
    roots come from the environment, or are default-project, /workspace
    and /var/www/html. *)
Theorem parseArgs_last_value_wins
  (node script : string) (pairs : list (string * string)) (env : gmap string string)
  (path : string) :
  Forall (fun fv => known_flag (fst fv)) pairs ->
  last_value pairs "--tools-config" = Some path ->
  path <> EmptyString ->
  parseArgs (node :: script :: spelled pairs) env =
  Returned
    (mkCliConfig
       (BridgeConfig.mk path
          (default "default-project" (env !! "DDEV_PROJECT"))
          (default "/workspace" (env !! "HOST_PROJECT_ROOT"))
          (default "/var/www/html" (env !! "CONTAINER_PROJECT_ROOT")))
       (Some (default "info" (last_value pairs "--log-level")))
       (Some (default "/tmp/wdrmcp.log" (last_value pairs "--log-file")))).
Proof.
  intros Hknown Hpath Hne. unfold parseArgs. cbn [skipn].
  rewrite (parse_options_spelled pairs Hknown), Hpath.
  cbn [cli_toolsConfigPath cli_logLevel cli_logFile given].
  apply StrFacts.nonempty_true in Hne. rewrite Hne. cbn [negb].
  destruct (last_value pairs "--log-level"), (last_value pairs "--log-file"); reflexivity.
Qed.

(** X26 on an example: the path given twice, around a log level. *)
Lemma parseArgs_last_value_wins_example :
  parseArgs ["node"; "wdrmcp"; "--tools-config"; "/a"; "--log-level"; "debug";
             "--tools-config"; "/b"]
            {["DDEV_PROJECT" := "site"]}
  = Returned
      (mkCliConfig (BridgeConfig.mk "/b" "site" "/workspace" "/var/www/html")
                   (Some "debug") (Some "/tmp/wdrmcp.log")).
Proof.
  refine (parseArgs_last_value_wins "node" "wdrmcp"
            [("--tools-config", "/a"); ("--log-level", "debug"); ("--tools-config", "/b")]
            {["DDEV_PROJECT" := "site"]} "/b" _ eq_refl _).
  - constructor; [now left |]. constructor; [right; now left |].
    constructor; [now left | constructor].
  - discriminate.
Defined.

(** ** logger.ts *)

Lemma LOG_LEVELS_at_most_error name :
  less_than (LOG_LEVELS "error") (LOG_LEVELS name) = false.
Proof.
  unfold LOG_LEVELS at 2.
  destruct (String.eqb name "debug"); [reflexivity |].
  destruct (String.eqb name "info"); [reflexivity |].
  destruct (String.eqb name "warn"); [reflexivity |].
  destruct (String.eqb name "error"); reflexivity.
Qed.

(** X27: what the logger lets through.  Whatever level name and file the
    logger was made with, an error is never filtered out: it is written
    to standard error.  Messages of the levels debug and info are never
    written to standard error.  And a logger made with a level name
    outside the table filters nothing: with a log file, messages of every
    level are appended to it, debug included. *)
Theorem logger_never_filters_errors `{RT : Runtime}
  (name file : option string) (timestamp message : string) (args : list Json) :
  In (Stderr ("[wdrmcp] error: " +:+ message +:+ formatArgs args))
     (Logger_log (fst (new_Logger name file)) timestamp Err message args)
  /\ (forall level line,
         level = Debug \/ level = Info ->
         ~ In (Stderr line) (Logger_log (fst (new_Logger name file)) timestamp level message args))
  /\ (forall s level,
         name = Some s -> LOG_LEVELS s = None -> given file = true ->
         In (AppendFile (default EmptyString file)
               (timestamp +:+ " - wdrmcp - " +:+ level_label level +:+ " - " +:+ message +:+
                formatArgs args +:+ Str.newline))
            (Logger_log (fst (new_Logger name file)) timestamp level message args)).
Proof.
  unfold new_Logger, Logger_log. cbn [fst logger_level logger_logFile].
  split; [| split].
  - cbn [level_name]. rewrite LOG_LEVELS_at_most_error. now left.
  - intros level line [-> | ->] Hin;
      destruct (less_than _ _); cbn [app] in Hin;
      try (destruct (given file); cbn in Hin; intuition discriminate);
      destruct Hin.
  - intros s level -> Hnone Hfile. change (default "info" (Some s)) with s. rewrite Hnone.
    assert (Hlt : less_than (LOG_LEVELS (level_name level)) None = false)
      by (destruct (LOG_LEVELS (level_name level)); reflexivity).
    rewrite Hlt, Hfile. apply in_or_app. right. left.
    now rewrite !StrFacts.append_assoc.
Qed.

(** ** registry.ts: the configuration files *)

Section Files.
Context `{RT : Runtime}.

Lemma quiet_refl w : quiet w w.
Proof. repeat split. Qed.

Lemma quiet_trans a b c : quiet a b -> quiet b c -> quiet a c.
Proof. intros (H1 & H2 & H3) (G1 & G2 & G3). repeat split; congruence. Qed.

Lemma quiet_log lvl msg w : quiet w (snd (log lvl msg w)).
Proof. repeat split. Qed.

Lemma load_entries_inv entries :
  forall this count w,
  exists this' count' outcome w',
    load_entries entries this count w = (Ret (this', count', outcome), w')
    /\ extends this this'
    /\ quiet w w'.
Proof.
  induction entries as [|[toolConfig|] rest IH]; intros this count w.
  - do 4 eexists. split; [reflexivity |]. split; [apply extends_refl | apply quiet_refl].
  - cbn [load_entries].
    destruct (loadSingleTool_inv this toolConfig w)
      as (n & this1 & w1 & Hrun & Hext & Hq & _).
    unfold bind at 1. rewrite Hrun. cbn [fst snd].
    destruct (IH this1 (count + n)%nat w1) as (this' & count' & outcome & w' & Hrest & He & Hq').
    rewrite Hrest. do 4 eexists. split; [reflexivity |].
    split; [eapply extends_trans; eassumption | eapply quiet_trans; eassumption].
  - do 4 eexists. split; [reflexivity |]. split; [apply extends_refl | apply quiet_refl].
Qed.

Lemma load_files_inv files :
  forall this count w,
  exists n this' w',
    load_files files this count w = (Ret (n, this'), w')
    /\ extends this this'
    /\ quiet w w'.
Proof.
  induction files as [|[file parsed] rest IH]; intros this count w.
  - do 3 eexists. split; [reflexivity |]. split; [apply extends_refl | apply quiet_refl].
  - cbn [load_files].
    assert (Hskip : forall lvl msg,
               exists n this' w',
                 (log lvl msg ;; load_files rest this count) w = (Ret (n, this'), w')
                 /\ extends this this' /\ quiet w w').
    { intros lvl msg. unfold bind at 1, log at 1.
      match goal with
      | |- context [load_files rest this count ?w0] =>
          destruct (IH this count w0) as (n & this' & w' & Hrun & He & Hq)
      end.
      rewrite Hrun. do 3 eexists. split; [reflexivity |]. split; [exact He |].
      eapply quiet_trans; [| exact Hq]. repeat split. }
    destruct parsed as [yaml e | | | entries]; try apply Hskip.
    destruct (load_entries_inv entries this count w)
      as (this1 & count1 & outcome & w1 & Hrun & He1 & Hq1).
    unfold bind at 1. rewrite Hrun. cbn [fst snd].
    destruct outcome as [[]|e].
    + destruct (IH this1 count1 w1) as (n & this' & w' & Hrest & He & Hq).
      rewrite Hrest. do 3 eexists. split; [reflexivity |].
      split; [eapply extends_trans; eassumption | eapply quiet_trans; eassumption].
    + unfold bind at 1, log at 1.
      match goal with
      | |- context [load_files rest this1 count1 ?w0] =>
          destruct (IH this1 count1 w0) as (n & this' & w' & Hrest & He & Hq)
      end.
      rewrite Hrest. do 3 eexists. split; [reflexivity |].
      split; [eapply extends_trans; eassumption |].
      eapply quiet_trans; [exact Hq1 |]. eapply quiet_trans; [| exact Hq]. repeat split.
Qed.

End Files.

(** X28: loadTools never throws, whatever the directory holds: files that
    cannot be read or parsed, empty files, files without tools, null
    entries among the tools and definitions of any kind.  It returns a
    count and a registry that keeps its directory, its configuration and
    every name registered before; it starts no process and writes no
    cache.  When the directory does not exist it returns 0 and the
    registry as it was, and sends nothing. *)
Theorem loadTools_never_throws `{RT : Runtime}
  (this : ToolRegistry) (directory_exists : bool) (files : list (string * ConfigFile))
  (w : World) :
  exists n this' w',
    loadTools this directory_exists files w = (Ret (n, this'), w')
    /\ toolsConfigDir this' = toolsConfigDir this
    /\ registry_config this' = registry_config this
    /\ (forall k, is_Some (tools this !! k) -> is_Some (tools this' !! k))
    /\ spawned w' = spawned w
    /\ validatedContainers w' = validatedContainers w
    /\ uidCache w' = uidCache w
    /\ (directory_exists = false -> n = O /\ this' = this /\ sent w' = sent w).
Proof.
  unfold loadTools. destruct directory_exists; cbn [negb].
  - destruct (load_files_inv files this O w)
      as (n & this' & w' & Hrun & (Hd & Hc & Hk) & (Hs & Hv & Hu)).
    unfold bind at 1. rewrite Hrun. run_js.
    do 3 eexists. split; [reflexivity |]. cbn [spawned validatedContainers uidCache].
    repeat (split; [assumption |]). discriminate.
  - run_js. do 3 eexists. split; [reflexivity |]. repeat split; auto.
Qed.

(** ** The log is write-only *)

Section LogBlind.
Context `{RT : Runtime}.

Lemma log_blind_ret {A} (a : A) : log_blind (ret a).
Proof. intros w1 w2 H. split; [reflexivity | exact H]. Qed.

Lemma log_blind_throw {A} e : log_blind (@throw A e).
Proof. intros w1 w2 H. split; [reflexivity | exact H]. Qed.

Lemma log_blind_lift {A} (r : Result A) : log_blind (lift r).
Proof. intros w1 w2 H. split; [reflexivity | exact H]. Qed.

Lemma log_blind_log lvl msg : log_blind (log lvl msg).
Proof.
  intros w1 w2 (H1 & H2 & H3 & H4 & H5). split; [reflexivity |].
  repeat split; assumption.
Qed.

Lemma log_blind_bind {A B} (m : M A) (k : A -> M B) :
  log_blind m -> (forall a, log_blind (k a)) -> log_blind (bind m k).
Proof.
  intros Hm Hk w1 w2 H. unfold bind. destruct (Hm w1 w2 H) as [Hf Hs].
  destruct (m w1) as [[a|e] w1'], (m w2) as [[a'|e'] w2']; cbn [fst snd] in *;
    try discriminate.
  - injection Hf as <-. now apply Hk.
  - injection Hf as <-. split; [reflexivity | exact Hs].
Qed.

Lemma log_blind_try_catch {A} (m : M A) (h : JsError -> M A) :
  log_blind m -> (forall e, log_blind (h e)) -> log_blind (try_catch m h).
Proof.
  intros Hm Hh w1 w2 H. unfold try_catch. destruct (Hm w1 w2 H) as [Hf Hs].
  destruct (m w1) as [[a|e] w1'], (m w2) as [[a'|e'] w2']; cbn [fst snd] in *;
    try discriminate.
  - injection Hf as <-. split; [reflexivity | exact Hs].
  - injection Hf as <-. now apply Hh.
Qed.

Lemma log_blind_attempt {A} (m : M A) : log_blind m -> log_blind (attempt m).
Proof.
  intros Hm w1 w2 H. unfold attempt. destruct (Hm w1 w2 H) as [Hf Hs].
  destruct (m w1) as [r1 w1'], (m w2) as [r2 w2']; cbn [fst snd] in *.
  subst r2. split; [reflexivity | exact Hs].
Qed.

Lemma log_blind_race_timer {A} (m : M A) ms e :
  log_blind m -> log_blind (race_timer m ms e).
Proof.
  intros Hm w1 w2 H. unfold race_timer. destruct (Hm w1 w2 H) as [Hf Hs].
  destruct (m w1) as [r1 w1'], (m w2) as [r2 w2']; cbn [fst snd] in *. subst r2.
  destruct H as (H1 & H2 & H3 & H4 & H5). destruct Hs as (G1 & G2 & G3 & G4 & G5).
  rewrite G5, H5. destruct (clock w1' - clock w1 <? ms)%N; cbn [fst snd].
  - split; [reflexivity | repeat split; assumption].
  - split; [reflexivity |]. repeat split; cbn; congruence.
Qed.

Lemma log_blind_send call ms : log_blind (send call ms).
Proof.
  intros w1 w2 (H1 & H2 & H3 & H4 & H5). unfold send. cbn [fst snd]. rewrite H4.
  split; [reflexivity |]. repeat split; cbn; congruence.
Qed.

Lemma log_blind_rpc this method params : log_blind (rpc this method params).
Proof.
  unfold rpc. apply log_blind_bind; [apply log_blind_send |].
  intros [j | status statusText | e];
    [apply log_blind_ret | apply log_blind_throw | apply log_blind_throw].
Qed.

Lemma log_blind_fetchRemoteTools this : log_blind (fetchRemoteTools this).
Proof.
  unfold fetchRemoteTools.
  apply log_blind_bind; [apply log_blind_log | intros _].
  apply log_blind_try_catch.
  - apply log_blind_bind; [apply log_blind_rpc |].
    intros [| b | x | s | l | r]; cbv zeta;
      (apply log_blind_bind; [apply log_blind_log | intros _; apply log_blind_ret]).
  - intros e. apply log_blind_bind; [apply log_blind_log | intros _; apply log_blind_ret].
Qed.

Lemma log_blind_bind_remote_tools proxyConfig proxy prefix remoteTools :
  forall this count,
    log_blind (bind_remote_tools proxyConfig proxy prefix remoteTools this count).
Proof.
  induction remoteTools as [|remote rest IH]; intros this count.
  - apply log_blind_ret.
  - assert (Hcase : remote = JNull \/ remote <> JNull)
      by (destruct remote; [left; reflexivity | right; discriminate ..]).
    destruct Hcase as [->|Hnn]; [apply log_blind_ret |].
    rewrite bind_remote_tools_step by assumption.
    destruct (negb (truthy (default JNull (prop remote "name")))); [apply IH |].
    destruct (String_throws (default JNull (prop remote "name"))); [apply log_blind_ret |].
    apply log_blind_bind; [apply log_blind_log | intros _; apply IH].
Qed.

Lemma log_blind_loadRemoteMcpTools this proxyConfig proxy :
  log_blind (loadRemoteMcpTools this proxyConfig proxy).
Proof.
  unfold loadRemoteMcpTools. cbv zeta.
  apply log_blind_bind; [apply log_blind_log | intros _].
  apply log_blind_bind;
    [apply log_blind_attempt, log_blind_race_timer, log_blind_fetchRemoteTools |].
  intros [[|remote rest]|e].
  - apply log_blind_bind; [apply log_blind_log | intros _; apply log_blind_ret].
  - apply log_blind_bind; [apply log_blind_bind_remote_tools |].
    intros [this' [count|e]];
      (apply log_blind_bind; [apply log_blind_log | intros _; apply log_blind_ret]).
  - apply log_blind_bind; [apply log_blind_log | intros _; apply log_blind_ret].
Qed.

Lemma log_blind_createExecutor this toolConfig : log_blind (createExecutor this toolConfig).
Proof.
  unfold createExecutor. apply log_blind_try_catch.
  - unfold construct_executor. cbv zeta.
    destruct (String.eqb _ "command").
    + destruct (negb _).
      * apply log_blind_bind; [apply log_blind_log | intros _; apply log_blind_ret].
      * apply log_blind_bind; [apply log_blind_lift | intros c; apply log_blind_ret].
    + destruct (String.eqb _ "mcp_server").
      * destruct (negb _); [| apply log_blind_ret].
        apply log_blind_bind; [apply log_blind_log | intros _; apply log_blind_ret].
      * apply log_blind_bind; [apply log_blind_log | intros _; apply log_blind_ret].
  - intros e. apply log_blind_bind; [apply log_blind_log | intros _; apply log_blind_ret].
Qed.

Lemma log_blind_loadSingleTool this toolConfig : log_blind (loadSingleTool this toolConfig).
Proof.
  unfold loadSingleTool. cbv zeta.
  destruct (negb (Str.nonempty (ToolConfig.name toolConfig))).
  { apply log_blind_bind; [apply log_blind_log | intros _; apply log_blind_ret]. }
  destruct (bool_decide (ToolConfig.enabled toolConfig = Some false)).
  { apply log_blind_bind; [apply log_blind_log | intros _; apply log_blind_ret]. }
  apply log_blind_bind; [apply log_blind_createExecutor |].
  intros [ex|].
  - destruct (bool_decide _ && default false _).
    + destruct ex; [apply log_blind_ret | apply log_blind_loadRemoteMcpTools |
                    apply log_blind_ret].
    + apply log_blind_bind; [apply log_blind_log | intros _; apply log_blind_ret].
  - apply log_blind_bind; [apply log_blind_log | intros _; apply log_blind_ret].
Qed.

Lemma log_blind_load_entries entries :
  forall this count, log_blind (load_entries entries this count).
Proof.
  induction entries as [|[toolConfig|] rest IH]; intros this count; cbn [load_entries].
  - apply log_blind_ret.
  - apply log_blind_bind; [apply log_blind_loadSingleTool | intros loaded; apply IH].
  - apply log_blind_ret.
Qed.

Lemma log_blind_load_files files :
  forall this count, log_blind (load_files files this count).
Proof.
  induction files as [|[file parsed] rest IH]; intros this count; cbn [load_files].
  - apply log_blind_ret.
  - destruct parsed as [yaml e | | | entries];
      try (apply log_blind_bind; [apply log_blind_log | intros _; apply IH]).
    apply log_blind_bind; [apply log_blind_load_entries |].
    intros [[this' count'] [[]|e]]; cbn [fst snd]; [apply IH |].
    apply log_blind_bind; [apply log_blind_log | intros _; apply IH].
Qed.

(** The loop over files, one list after another. *)
Lemma load_files_app pre post :
  forall this count w,
    load_files (pre ++ post) this count w =
    (loaded <- load_files pre this count ;; load_files post (snd loaded) (fst loaded)) w.
Proof.
  induction pre as [|[file parsed] pre IH]; intros this count w; [reflexivity |].
  cbn [app load_files].
  destruct parsed as [yaml e | | | entries];
    try (unfold bind, log; rewrite IH; unfold bind; reflexivity).
  unfold bind.
  destruct (load_entries entries this count w) as [[[[this1 count1] [[]|e]]|e] w1];
    cbn [fst snd]; try reflexivity.
  - rewrite IH. unfold bind. reflexivity.
  - unfold log. rewrite IH. unfold bind. reflexivity.
Qed.

End LogBlind.

(** X29: a file that gives no tool costs nothing but itself.  When a
    file of the directory cannot be read or parsed, is empty or has no
    tools, loadTools returns the count and the registry it would return
    if the file were not there: the files before and after it are loaded
    all the same. *)
Theorem loadTools_skips_file_without_tools `{RT : Runtime}
  (this : ToolRegistry) (pre post : list (string * ConfigFile))
  (file : string) (parsed : ConfigFile) (w : World) :
  gives_no_tool parsed ->
  fst (loadTools this true (pre ++ (file, parsed) :: post) w)
  = fst (loadTools this true (pre ++ post) w).
Proof.
  intros Hno. unfold loadTools. cbn [negb].
  assert (Hfiles : fst (load_files (pre ++ (file, parsed) :: post) this O w)
                   = fst (load_files (pre ++ post) this O w)).
  { rewrite 2 load_files_app. unfold bind.
    destruct (load_files pre this O w) as [[[n1 this1]|e] w1]; [| reflexivity].
    cbn [fst snd load_files].
    assert (Hlog : forall lvl msg,
               fst ((log lvl msg ;; load_files post this1 n1) w1)
               = fst (load_files post this1 n1 w1)).
    { intros lvl msg. unfold bind, log.
      apply (log_blind_load_files post this1 n1). repeat split. }
    destruct parsed as [yaml e | | | entries]; [apply Hlog .. | destruct Hno]. }
  unfold bind at 1 3.
  destruct (load_files (pre ++ (file, parsed) :: post) this O w) as [r1 w1].
  destruct (load_files (pre ++ post) this O w) as [r2 w2].
  cbn [fst] in Hfiles. subst r2. destruct r1 as [loaded|e]; reflexivity.
Qed.

(** X29 on an example: a file that is not YAML between two files with
    tools. *)
Lemma loadTools_skips_file_without_tools_example :
  fst (@loadTools offline empty_registry true
         ([("a.yml", Tools [Some chained_shell_config])] ++
          ("b.yml", Broken true (Error "bad indentation")) ::
          [("c.yml", Tools [Some remote_config])])
         empty_world)
  = fst (@loadTools offline empty_registry true
           ([("a.yml", Tools [Some chained_shell_config])] ++
            [("c.yml", Tools [Some remote_config])])
           empty_world).
Proof.
  exact (@loadTools_skips_file_without_tools offline empty_registry
           [("a.yml", Tools [Some chained_shell_config])]
           [("c.yml", Tools [Some remote_config])]
           "b.yml" (Broken true (Error "bad indentation")) empty_world I).
Defined.

(** ** registry.ts: validation comes first *)

(** X30: through the registry, validation comes before everything else.
    When a command tool is called without a value for a placeholder of
    its template, and no rule matches the serialized arguments,
    executeTool returns the validation envelope that lists the missing
    placeholders, and the world is as it was: the user is not resolved,
    the container is not validated, no process is started and nothing is
    logged. *)
Theorem executeTool_stops_at_missing_arguments `{RT : Runtime}
  (this : ToolRegistry) (name : string) (registered : RegisteredTool)
  (cmd : CommandToolExecutor) (args : JsObject) (w : World) :
  tools this !! name = Some registered ->
  executor registered = Command cmd ->
  Forall (passes (JSON_stringify (JObj args))) (validationRules cmd) ->
  missing_placeholders cmd args <> [] ->
  executeTool this name args w
  = (Ret (mkResult (JStr ("Validation error: Missing required arguments: " +:+
                          Str.join (missing_placeholders cmd args) ", "))
                   (Some true)),
     w).
Proof.
  intros Hget Hex Hrules Hmiss. unfold executeTool. rewrite Hget. cbv zeta. rewrite Hex.
  cbn [validateArguments]. unfold bind, attempt, lift.
  apply checkRules_from_none in Hrules.
  unfold CommandToolExecutor_validateArguments, checkRules. rewrite Hrules.
  cbn [truthy_message].
  destruct (missing_placeholders cmd args) as [|p l]; [congruence |]. reflexivity.
Qed.

(** X30 on an example: [ls_tool] registered as ls and called without a
    path. *)
Lemma executeTool_stops_at_missing_arguments_example :
  @executeTool offline
    (tools_set empty_registry "ls" (mkRegisteredTool chained_shell_config (Command ls_tool)))
    "ls" [("verbose", JBool true)] empty_world
  = (Ret (mkResult (JStr "Validation error: Missing required arguments: path") (Some true)),
     empty_world).
Proof.
  apply (@executeTool_stops_at_missing_arguments offline
           (tools_set empty_registry "ls"
              (mkRegisteredTool chained_shell_config (Command ls_tool)))
           "ls" (mkRegisteredTool chained_shell_config (Command ls_tool)) ls_tool
           [("verbose", JBool true)] empty_world).
  - reflexivity.
  - reflexivity.
  - constructor; [right; reflexivity | constructor].
  - discriminate.
Defined.
